(** * Game Boy Printer web client: firmware byte-stream parser and image
      reconstruction (js/printer.js)

    A shallow embedding of the [GameBoyPrinter] class of [js/printer.js]:
    the sliding abort-marker window, the packet parser
    [processFirmwareByte], the packet dispatcher [processPacket], the
    run-length decompressor [decompressRLE] and the tile renderer
    [renderImage] / [decodeTile], followed by the properties of the
    natural-language specification that concern them.

    Conventions of the embedding.
    - JavaScript numbers that hold bytes, lengths read from the wire and
      timestamps are [Z]; array lengths and array indices are [nat].
    - The 32-bit bitwise operators of JavaScript ([&], [|], [<<], [>>])
      are written out with their [ToInt32] wrap-around in module [JS].
    - [this] is the record [GameBoyPrinter]; a method that mutates [this]
      is a function from the record to the record, or to a [Completion]
      when the method can throw.
    - [console.log] / [console.warn] are not modelled.  The status line
      ([updateStatus]) is the pair of fields [statusText], [statusClass];
      the canvases appended to the page are the list [canvasContainer].
    - An [ImageData] buffer is a list of [Z] of length [width*height*4],
      zero-filled at creation; [createImageData] throws when the width
      or the height is 0.  A write outside the buffer is ignored, as for
      a typed array, which is what the list insert of stdpp does.
    - An exception is the result [None] of a function that throws before
      it has assigned anything ([createImageData], [renderImage]), and
      otherwise the completion [Throws] with the state [this] is left in
      ([processFirmwareByte], the loop over a chunk): what was assigned
      before the throw stays assigned.
    - [Date.now()] is an argument [now] of the two branches of
      [printerLoop]; the transport ([Serial]) is not modelled. *)

From Stdlib Require Import ZArith Lia List Bool.
From stdpp Require Import base numbers list strings pretty.

Local Open Scope Z_scope.

(** ** JavaScript 32-bit integer operators *)

Module JS.

(** [ToInt32]: reduce modulo 2^32 into the signed range. *)
Definition toInt32 (z : Z) : Z := (z + 2 ^ 31) mod 2 ^ 32 - 2 ^ 31.

(** [a & b] *)
Definition and (a b : Z) : Z := toInt32 (Z.land (toInt32 a) (toInt32 b)).

(** [a | b] *)
Definition or (a b : Z) : Z := toInt32 (Z.lor (toInt32 a) (toInt32 b)).

(** [a << n]: the shift count is taken modulo 32. *)
Definition shl (a n : Z) : Z := toInt32 (Z.shiftl (toInt32 a) (Z.land n 31)).

(** [a >> n]: sign-propagating right shift. *)
Definition shr (a n : Z) : Z := toInt32 (Z.shiftr (toInt32 a) (Z.land n 31)).

(** Truthiness of a number: every number but zero. *)
Definition truthy (z : Z) : bool := negb (z =? 0).

(** [data[i] || 0] where [data[i]] is [undefined] out of range. *)
Definition orZero (v : option Z) : Z :=
  match v with
  | Some x => if truthy x then x else 0
  | None => 0
  end.

End JS.

(** ** Constants *)

(** [PrinterCommand] *)
Definition INIT : Z := 0x01.
Definition PRINT : Z := 0x02.
Definition DATA : Z := 0x04.
Definition BREAK : Z := 0x08.
Definition INQUIRY : Z := 0x0F.

(** [ParserState] *)
Inductive ParserState : Type :=
  | WAIT_START
  | WAIT_COMMAND
  | WAIT_COMPRESSION
  | WAIT_LEN_LOW
  | WAIT_LEN_HIGH
  | READ_DATA.

(** [PALETTE]: 2bpp colour index to RGB. *)
Definition PALETTE : list (list Z) :=
  [ [255; 255; 255];
    [170; 170; 170];
    [85; 85; 85];
    [0; 0; 0] ].

(** The [abortMarker] of [processFirmwareByte]: ASCII "ABORTPRINT". *)
Definition abortMarker : list Z :=
  [0x41; 0x42; 0x4F; 0x52; 0x54; 0x50; 0x52; 0x49; 0x4E; 0x54].

(** The [validCommands] of [processFirmwareByte]. *)
Definition validCommands : list Z := [INIT; PRINT; DATA; BREAK; INQUIRY].

Definition PRINT_TIMEOUT_MS : Z := 2000.

(** ** decompressRLE *)

(** The inner loop of the literal branch:
    [for (j = 0; j < count && i < data.length; j++) result.push(data[i++])].
    Returns the cursor and the result. *)
Fixpoint literalRun (data : list Z) (count i : nat) (result : list Z)
  : nat * list Z :=
  match count with
  | O => (i, result)
  | S count' =>
      match data !! i with
      | Some b => literalRun data count' (S i) (result ++ [b])
      | None => (i, result)
      end
  end.

(** The [while (i < data.length)] loop.  Every round advances [i], so
    [length data] rounds of fuel are enough (lemma [rleLoop_fuel]). *)
Fixpoint rleLoop (fuel : nat) (data : list Z) (i : nat) (result : list Z)
  : list Z :=
  match fuel with
  | O => result
  | S fuel' =>
      match data !! i with
      | None => result
      | Some control =>
          let i1 := S i in
          if JS.truthy (JS.and control 0x80) then
            let count := JS.and control 0x7F + 2 in
            let value := JS.orZero (data !! i1) in
            let i2 := S i1 in
            rleLoop fuel' data i2 (result ++ replicate (Z.to_nat count) value)
          else
            let count := control + 1 in
            let '(i2, result') := literalRun data (Z.to_nat count) i1 result in
            rleLoop fuel' data i2 result'
      end
  end.

Definition decompressRLE (data : list Z) : list Z :=
  rleLoop (length data) data 0%nat [].

(** ** decodeTile and renderImage *)

(** [((byte1 >> bit) & 1) | (((byte2 >> bit) & 1) << 1)] with
    [bit = 7 - col]. *)
Definition colorIndex (byte1 byte2 : Z) (col : nat) : Z :=
  let bit := 7 - Z.of_nat col in
  JS.or (JS.and (JS.shr byte1 bit) 1) (JS.shl (JS.and (JS.shr byte2 bit) 1) 1).

(** [PALETTE[colorIndex]]; the index is always one of 0..3. *)
Definition paletteColor (ci : Z) : list Z :=
  default [] (PALETTE !! Z.to_nat ci).

(** The four writes of one pixel. *)
Definition putPixel (pixels : list Z) (pixelOffset : nat) (color : list Z)
  : list Z :=
  let p0 := <[pixelOffset := default 0 (color !! 0%nat)]> pixels in
  let p1 := <[(pixelOffset + 1)%nat := default 0 (color !! 1%nat)]> p0 in
  let p2 := <[(pixelOffset + 2)%nat := default 0 (color !! 2%nat)]> p1 in
  <[(pixelOffset + 3)%nat := 255]> p2.

(** The body of the [col] loop for one column. *)
Definition decodePixel (byte1 byte2 : Z) (imageWidth startX startY row : nat)
    (pixels : list Z) (col : nat) : list Z :=
  let color := paletteColor (colorIndex byte1 byte2 col) in
  let x := (startX + col)%nat in
  let y := (startY + row)%nat in
  let pixelOffset := ((y * imageWidth + x) * 4)%nat in
  putPixel pixels pixelOffset color.

(** The body of the [row] loop for one row. *)
Definition decodeTileRow (data : list Z) (offset imageWidth startX startY : nat)
    (pixels : list Z) (row : nat) : list Z :=
  let byte1 := JS.orZero (data !! (offset + row * 2)%nat) in
  let byte2 := JS.orZero (data !! (offset + row * 2 + 1)%nat) in
  foldl (decodePixel byte1 byte2 imageWidth startX startY row) pixels (seq 0 8).

Definition decodeTile (data : list Z) (offset : nat) (pixels : list Z)
    (imageWidth startX startY : nat) : list Z :=
  foldl (decodeTileRow data offset imageWidth startX startY) pixels (seq 0 8).

Definition tilesPerRow : nat := 20.
Definition bytesPerTile : nat := 16.

(** [Math.ceil(a / b)] for array-sized naturals: the quotient is exact
    in double precision when [b] divides [a] and otherwise lies strictly
    between two integers, so the ceiling is the integer one. *)
Definition ceilDiv (a b : nat) : nat :=
  (a `div` b + (if (a `mod` b =? 0)%nat then 0 else 1))%nat.

(** The [tileX] loop of one tile row, with its [break]: returns the
    tile cursor and the pixel buffer. *)
Fixpoint tileRowLoop (data : list Z) (totalTiles width tileY : nat)
    (tileXs : list nat) (tileIndex : nat) (pixels : list Z) : nat * list Z :=
  match tileXs with
  | [] => (tileIndex, pixels)
  | tileX :: rest =>
      if (totalTiles <=? tileIndex)%nat then (tileIndex, pixels)
      else
        let tileOffset := (tileIndex * bytesPerTile)%nat in
        let pixels' :=
          decodeTile data tileOffset pixels width (tileX * 8) (tileY * 8) in
        tileRowLoop data totalTiles width tileY rest (S tileIndex) pixels'
  end.

(** The [tileY] loop. *)
Definition tileLoop (data : list Z) (totalTiles tileRows width : nat)
    (pixels : list Z) : nat * list Z :=
  foldl (fun st tileY =>
           tileRowLoop data totalTiles width tileY (seq 0 tilesPerRow)
             (fst st) (snd st))
        (0%nat, pixels) (seq 0 tileRows).

(** A canvas appended to the page, with the image put on it. *)
Record Canvas : Type := mkCanvas {
  canvasId : string;
  canvasWidth : nat;
  canvasHeight : nat;
  canvasPixels : list Z
}.

(** [ctx.createImageData(width, height)]: the zero-filled buffer;
    [None] is the [IndexSizeError] that the canvas throws when the width
    or the height is 0. *)
Definition createImageData (width height : nat) : option (list Z) :=
  if (width =? 0)%nat || (height =? 0)%nat then None
  else Some (replicate (width * height * 4) 0).

(** The part of [renderImage] that builds the canvas: the dimensions,
    the [ImageData] and the tile loops.  The first component is the
    final value of [tileIndex], the number of tiles decoded.  [None]:
    [createImageData] threw, which it does when [data] has no whole tile
    and the height is 0. *)
Definition renderCanvas (data : list Z) (imageCount : nat)
  : option (nat * Canvas) :=
  let totalTiles := (length data `div` bytesPerTile)%nat in
  let tileRows := ceilDiv totalTiles tilesPerRow in
  let width := (tilesPerRow * 8)%nat in
  let height := (tileRows * 8)%nat in
  match createImageData width height with
  | None => None
  | Some pixels =>
      let '(tileIndex, pixels') :=
        tileLoop data totalTiles tileRows width pixels in
      Some (tileIndex,
            {| canvasId := "print-" +:+ pretty imageCount;
               canvasWidth := width;
               canvasHeight := height;
               canvasPixels := pixels' |})
  end.

(** ** The printer object *)

Record GameBoyPrinter : Type := mkPrinter {
  printData : list Z;
  totalBytesReceived : nat;
  imageCount : nat;
  parserState : ParserState;
  currentCommand : Z;
  currentCompression : Z;
  currentLength : Z;
  currentDataIndex : Z;
  currentPacketData : list Z;
  lastDataTime : Z;
  recentBytes : list Z;
  statusText : string;
  statusClass : string;
  canvasContainer : list Canvas
}.

(** The state the constructor builds. *)
Definition newPrinter : GameBoyPrinter :=
  {| printData := [];
     totalBytesReceived := 0;
     imageCount := 0;
     parserState := WAIT_COMMAND;
     currentCommand := 0;
     currentCompression := 0;
     currentLength := 0;
     currentDataIndex := 0;
     currentPacketData := [];
     lastDataTime := 0;
     recentBytes := [];
     statusText := "";
     statusClass := "";
     canvasContainer := [] |}.

(** Field assignments. *)
Definition set_printData (v : list Z) (p : GameBoyPrinter) : GameBoyPrinter :=
  mkPrinter v (totalBytesReceived p) (imageCount p) (parserState p)
    (currentCommand p) (currentCompression p) (currentLength p)
    (currentDataIndex p) (currentPacketData p) (lastDataTime p)
    (recentBytes p) (statusText p) (statusClass p) (canvasContainer p).

Definition set_totalBytesReceived (v : nat) (p : GameBoyPrinter) : GameBoyPrinter :=
  mkPrinter (printData p) v (imageCount p) (parserState p)
    (currentCommand p) (currentCompression p) (currentLength p)
    (currentDataIndex p) (currentPacketData p) (lastDataTime p)
    (recentBytes p) (statusText p) (statusClass p) (canvasContainer p).

Definition set_imageCount (v : nat) (p : GameBoyPrinter) : GameBoyPrinter :=
  mkPrinter (printData p) (totalBytesReceived p) v (parserState p)
    (currentCommand p) (currentCompression p) (currentLength p)
    (currentDataIndex p) (currentPacketData p) (lastDataTime p)
    (recentBytes p) (statusText p) (statusClass p) (canvasContainer p).

Definition set_parserState (v : ParserState) (p : GameBoyPrinter) : GameBoyPrinter :=
  mkPrinter (printData p) (totalBytesReceived p) (imageCount p) v
    (currentCommand p) (currentCompression p) (currentLength p)
    (currentDataIndex p) (currentPacketData p) (lastDataTime p)
    (recentBytes p) (statusText p) (statusClass p) (canvasContainer p).

Definition set_currentCommand (v : Z) (p : GameBoyPrinter) : GameBoyPrinter :=
  mkPrinter (printData p) (totalBytesReceived p) (imageCount p) (parserState p)
    v (currentCompression p) (currentLength p)
    (currentDataIndex p) (currentPacketData p) (lastDataTime p)
    (recentBytes p) (statusText p) (statusClass p) (canvasContainer p).

Definition set_currentCompression (v : Z) (p : GameBoyPrinter) : GameBoyPrinter :=
  mkPrinter (printData p) (totalBytesReceived p) (imageCount p) (parserState p)
    (currentCommand p) v (currentLength p)
    (currentDataIndex p) (currentPacketData p) (lastDataTime p)
    (recentBytes p) (statusText p) (statusClass p) (canvasContainer p).

Definition set_currentLength (v : Z) (p : GameBoyPrinter) : GameBoyPrinter :=
  mkPrinter (printData p) (totalBytesReceived p) (imageCount p) (parserState p)
    (currentCommand p) (currentCompression p) v
    (currentDataIndex p) (currentPacketData p) (lastDataTime p)
    (recentBytes p) (statusText p) (statusClass p) (canvasContainer p).

Definition set_currentDataIndex (v : Z) (p : GameBoyPrinter) : GameBoyPrinter :=
  mkPrinter (printData p) (totalBytesReceived p) (imageCount p) (parserState p)
    (currentCommand p) (currentCompression p) (currentLength p)
    v (currentPacketData p) (lastDataTime p)
    (recentBytes p) (statusText p) (statusClass p) (canvasContainer p).

Definition set_currentPacketData (v : list Z) (p : GameBoyPrinter) : GameBoyPrinter :=
  mkPrinter (printData p) (totalBytesReceived p) (imageCount p) (parserState p)
    (currentCommand p) (currentCompression p) (currentLength p)
    (currentDataIndex p) v (lastDataTime p)
    (recentBytes p) (statusText p) (statusClass p) (canvasContainer p).

Definition set_lastDataTime (v : Z) (p : GameBoyPrinter) : GameBoyPrinter :=
  mkPrinter (printData p) (totalBytesReceived p) (imageCount p) (parserState p)
    (currentCommand p) (currentCompression p) (currentLength p)
    (currentDataIndex p) (currentPacketData p) v
    (recentBytes p) (statusText p) (statusClass p) (canvasContainer p).

Definition set_recentBytes (v : list Z) (p : GameBoyPrinter) : GameBoyPrinter :=
  mkPrinter (printData p) (totalBytesReceived p) (imageCount p) (parserState p)
    (currentCommand p) (currentCompression p) (currentLength p)
    (currentDataIndex p) (currentPacketData p) (lastDataTime p)
    v (statusText p) (statusClass p) (canvasContainer p).

Definition set_canvasContainer (v : list Canvas) (p : GameBoyPrinter) : GameBoyPrinter :=
  mkPrinter (printData p) (totalBytesReceived p) (imageCount p) (parserState p)
    (currentCommand p) (currentCompression p) (currentLength p)
    (currentDataIndex p) (currentPacketData p) (lastDataTime p)
    (recentBytes p) (statusText p) (statusClass p) v.

(** [updateStatus(text, className)] *)
Definition updateStatus (text className : string) (p : GameBoyPrinter)
  : GameBoyPrinter :=
  mkPrinter (printData p) (totalBytesReceived p) (imageCount p) (parserState p)
    (currentCommand p) (currentCompression p) (currentLength p)
    (currentDataIndex p) (currentPacketData p) (lastDataTime p)
    (recentBytes p) ("Status: " +:+ text) className (canvasContainer p).

(** How a call of a method ends: it returns, or an exception leaves it.
    Either way [this] is left in a state. *)
Inductive Completion : Type :=
  | Returns (p : GameBoyPrinter)
  | Throws (p : GameBoyPrinter).

Definition stateAfter (c : Completion) : GameBoyPrinter :=
  match c with
  | Returns p => p
  | Throws p => p
  end.

(** [renderImage(data)]: build the canvas, append it to the page, count
    it and report.  [None]: [createImageData] threw; nothing of [this]
    was assigned before. *)
Definition renderImage (data : list Z) (p : GameBoyPrinter)
  : option GameBoyPrinter :=
  match renderCanvas data (imageCount p) with
  | None => None
  | Some (_, canvas) =>
      let p := set_canvasContainer (canvasContainer p ++ [canvas]) p in
      let p := set_imageCount (S (imageCount p)) p in
      Some (updateStatus "Image received! Waiting for more..." "status-idle" p)
  end.

(** ** processPacket *)

Definition processPacket (p : GameBoyPrinter) : GameBoyPrinter :=
  if currentCommand p =? INIT then
    let p := set_printData [] p in
    let p := set_currentPacketData [] p in
    updateStatus "Ready for print data" "status-idle" p
  else if currentCommand p =? DATA then
    let p :=
      if currentCompression p =? 0 then
        set_printData (printData p ++ currentPacketData p) p
      else
        let decompressed := decompressRLE (currentPacketData p) in
        set_printData (printData p ++ decompressed) p in
    updateStatus ("Receiving: " +:+ pretty (length (printData p)) +:+ " bytes")
      "status-receiving" p
  else if currentCommand p =? PRINT then
    updateStatus "Waiting for image..." "status-printing" p
  else if currentCommand p =? INQUIRY then
    p
  else
    p.

(** ** processFirmwareByte *)

(** [recentBytes.push(byte); if (recentBytes.length > 10) recentBytes.shift()] *)
Definition pushRecent (recent : list Z) (byte : Z) : list Z :=
  let recent' := recent ++ [byte] in
  if (10 <? length recent')%nat then tail recent' else recent'.

(** [l.every((b, i) => f(b, i))], the index starting at [i]. *)
Fixpoint everyFrom {A : Type} (f : A -> nat -> bool) (l : list A) (i : nat)
  : bool :=
  match l with
  | [] => true
  | x :: l' => f x i && everyFrom f l' (S i)
  end.

(** [b === abortMarker[i]] *)
Definition matchesMarkerAt (b : Z) (i : nat) : bool :=
  match abortMarker !! i with
  | Some m => b =? m
  | None => false
  end.

(** [recentBytes.length === 10 && recentBytes.every(...)] *)
Definition isAbortMarker (recent : list Z) : bool :=
  (length recent =? 10)%nat && everyFrom matchesMarkerAt recent 0.

(** The body of the abort branch. *)
Definition abortPrint (p : GameBoyPrinter) : GameBoyPrinter :=
  let p := set_printData [] p in
  let p := set_currentPacketData [] p in
  let p := set_recentBytes [] p in
  let p := set_parserState WAIT_COMMAND p in
  updateStatus "Print aborted - ready" "status-idle" p.

(** The [switch (this.parserState)] of [processFirmwareByte].  Only the
    print-trigger branch can throw, from [renderImage]; the window slid
    before the switch is all that the call has assigned by then, and
    [printData] is not emptied. *)
Definition parseByte (p : GameBoyPrinter) (byte : Z) : Completion :=
  match parserState p with
  | WAIT_START => Returns p
  | WAIT_COMMAND =>
      if byte =? 0xFF then
        let p := set_printData [] p in
        let p := set_currentPacketData [] p in
        Returns (updateStatus "Ready for print" "status-idle" p)
      else if byte =? 0xFE then
        if (0 <? length (printData p))%nat then
          match renderImage (printData p) p with
          | None => Throws p
          | Some p => Returns (set_printData [] p)
          end
        else Returns p
      else if (byte =? 0x88) || (byte =? 0x33) then
        Returns p
      else if negb (existsb (Z.eqb byte) validCommands) then
        Returns p
      else
        let p := set_currentCommand byte p in
        let p := set_parserState WAIT_COMPRESSION p in
        if currentCommand p =? DATA then
          Returns (updateStatus "Receiving print data..." "status-receiving" p)
        else if currentCommand p =? PRINT then
          Returns (updateStatus "Print command!" "status-printing" p)
        else if currentCommand p =? INIT then
          let p := set_printData [] p in
          Returns (updateStatus "Init - buffer cleared" "status-receiving" p)
        else if currentCommand p =? INQUIRY then
          Returns (updateStatus "Status inquiry" "status-idle" p)
        else Returns p
  | WAIT_COMPRESSION =>
      if negb (byte =? 0x00) && negb (byte =? 0x01) then
        Returns (set_parserState WAIT_COMMAND p)
      else
        let p := set_currentCompression byte p in
        Returns (set_parserState WAIT_LEN_LOW p)
  | WAIT_LEN_LOW =>
      let p := set_currentLength byte p in
      Returns (set_parserState WAIT_LEN_HIGH p)
  | WAIT_LEN_HIGH =>
      let p := set_currentLength (JS.or (currentLength p) (JS.shl byte 8)) p in
      let p := set_currentDataIndex 0 p in
      let p := set_currentPacketData [] p in
      if currentLength p >? 1000 then
        Returns (set_parserState WAIT_COMMAND p)
      else if currentLength p >? 0 then
        Returns (set_parserState READ_DATA p)
      else
        let p := processPacket p in
        Returns (set_parserState WAIT_COMMAND p)
  | READ_DATA =>
      let p := set_currentPacketData (currentPacketData p ++ [byte]) p in
      let p := set_currentDataIndex (currentDataIndex p + 1) p in
      if currentDataIndex p >=? currentLength p then
        let p := processPacket p in
        Returns (set_parserState WAIT_COMMAND p)
      else Returns p
  end.

Definition processFirmwareByte (p : GameBoyPrinter) (byte : Z)
  : Completion :=
  let p := set_recentBytes (pushRecent (recentBytes p) byte) p in
  if isAbortMarker (recentBytes p) then Returns (abortPrint p)
  else parseByte p byte.

(** Feeding a run of bytes, one call of [processFirmwareByte] each,
    every call made on the state the call before it left, whether that
    call returned or threw. *)
Definition feed (p : GameBoyPrinter) (bytes : list Z) : GameBoyPrinter :=
  foldl (fun p byte => stateAfter (processFirmwareByte p byte)) p bytes.

(** The state in which the length check of WAIT_LEN_HIGH is made: the
    three assignments that precede it, with [n] the assembled length. *)
Definition withLength (p : GameBoyPrinter) (n : Z) : GameBoyPrinter :=
  set_currentPacketData [] (set_currentDataIndex 0 (set_currentLength n p)).

(** The state in which the switch is entered: the byte is in the window. *)
Definition withByte (p : GameBoyPrinter) (byte : Z) : GameBoyPrinter :=
  set_recentBytes (pushRecent (recentBytes p) byte) p.

(** ** printerLoop *)

(** The [for] loop over the bytes of a chunk.  A call that throws
    leaves the loop: the byte it was given is not counted and the bytes
    after it are not processed. *)
Fixpoint chunkLoop (bytes : list Z) (p : GameBoyPrinter) : Completion :=
  match bytes with
  | [] => Returns p
  | byte :: rest =>
      match processFirmwareByte p byte with
      | Returns p =>
          chunkLoop rest (set_totalBytesReceived (S (totalBytesReceived p)) p)
      | Throws p => Throws p
      end
  end.

(** The [try] block of a round of [printerLoop] whose read succeeds at
    time [now] with the chunk [bytes]. *)
Definition tryChunk (now : Z) (bytes : list Z) (p : GameBoyPrinter)
  : Completion :=
  if (0 <? length bytes)%nat then
    let p := set_lastDataTime now p in
    chunkLoop bytes p
  else Returns p.

(** The [catch] branch of [printerLoop] at time [now], while
    [this.running].  It is entered when the read times out and when a
    call of the [try] block throws. *)
Definition readTimeout (now : Z) (p : GameBoyPrinter) : GameBoyPrinter :=
  if (0 <? length (printData p))%nat && (lastDataTime p >? 0) then
    let timeSinceLastData := now - lastDataTime p in
    if timeSinceLastData >? PRINT_TIMEOUT_MS then
      let p := set_printData [] p in
      let p := set_parserState WAIT_COMMAND p in
      let p := set_currentPacketData [] p in
      updateStatus "Print canceled - ready" "status-idle" p
    else p
  else p.

(** One round of [printerLoop] whose read succeeds at time [now]: the
    [try] block and, when a call in it throws, the [catch] branch at time
    [later]. *)
Definition receiveChunk (now later : Z) (bytes : list Z) (p : GameBoyPrinter)
  : GameBoyPrinter :=
  match tryChunk now bytes p with
  | Returns p => p
  | Throws p => readTimeout later p
  end.

(** ** Notions of the specification *)

(** A byte of the wire. *)
Definition isByte (b : Z) : Prop := 0 <= b < 256.

(** The run-length scheme in the words of the specification: a control
    byte with the high bit set is followed by one value byte, repeated
    [(c & 0x7F) + 2] times; any other control byte [c] is followed by
    [c + 1] bytes copied verbatim; until the input is exhausted. *)
Inductive RleScheme : list Z -> list Z -> Prop :=
  | RleEnd : RleScheme [] []
  | RleRepeat c v rest out :
      isByte c -> isByte v -> Z.testbit c 7 = true ->
      RleScheme rest out ->
      RleScheme (c :: v :: rest)
                (replicate (Z.to_nat (Z.land c 0x7F + 2)) v ++ out)
  | RleLiteral c lits rest out :
      isByte c -> Z.testbit c 7 = false ->
      length lits = Z.to_nat (c + 1) ->
      RleScheme rest out ->
      RleScheme (c :: lits ++ rest) (lits ++ out).

(** [prefixb p l]: [p] is a prefix of [l]. *)
Fixpoint prefixb (p l : list Z) : bool :=
  match p, l with
  | [], _ => true
  | _ :: _, [] => false
  | x :: p', y :: l' => (x =? y) && prefixb p' l'
  end.

(** [occursIn p l]: [p] occurs in [l] as a run of consecutive bytes. *)
Fixpoint occursIn (p l : list Z) : bool :=
  prefixb p l ||
  match l with
  | [] => false
  | _ :: l' => occursIn p l'
  end.

(** The bytes of a packet on the wire: command, compression flag, the
    payload length as two bytes, low byte first, and the payload. *)
Definition packetBytes (command compression lenLow lenHigh : Z)
    (payload : list Z) : list Z :=
  command :: compression :: lenLow :: lenHigh :: payload.

(** The five states the parser is meant to visit. *)
Definition liveState (st : ParserState) : Prop :=
  st = WAIT_COMMAND \/ st = WAIT_COMPRESSION \/ st = WAIT_LEN_LOW \/
  st = WAIT_LEN_HIGH \/ st = READ_DATA.

(** The offset, in the pixel buffer, of the first channel of the pixel
    in column [col] and row [row] of the tile placed at
    [(startX, startY)]: the [pixelOffset] of [decodeTile]. *)
Definition pixelOffset (imageWidth startX startY row col : nat) : nat :=
  (((startY + row) * imageWidth + (startX + col)) * 4)%nat.

(** The offsets one column of a tile row writes to, and the offsets the
    whole tile row writes to. *)
Definition colTouched (imageWidth startX startY row col q : nat) : Prop :=
  (pixelOffset imageWidth startX startY row col <= q
   < pixelOffset imageWidth startX startY row col + 4)%nat.

Definition rowTouched (imageWidth startX startY row q : nat) : Prop :=
  (pixelOffset imageWidth startX startY row 0 <= q
   < pixelOffset imageWidth startX startY row 8)%nat.

(** The grey level of a colour index: the palette, one channel. *)
Definition grayOf (ci : Z) : Z := nth (Z.to_nat ci) [255; 170; 85; 0] 0.

(** The four channels stored at an offset of a pixel buffer. *)
Definition rgbaAt (pixels : list Z) (o : nat) : list (option Z) :=
  [pixels !! o; pixels !! (o + 1)%nat; pixels !! (o + 2)%nat;
   pixels !! (o + 3)%nat].

(** [quiet w bs]: while the bytes [bs] are pushed one by one into the
    window [w], the window never spells the abort marker. *)
Fixpoint quiet (w : list Z) (bs : list Z) : bool :=
  match bs with
  | [] => true
  | b :: bs' =>
      negb (isAbortMarker (pushRecent w b)) && quiet (pushRecent w b) bs'
  end.

(** The state every reset is meant to reach. *)
Definition resetState (p : GameBoyPrinter) : Prop :=
  parserState p = WAIT_COMMAND /\ printData p = [].

(** The states of a running client: the constructor's state, then any
    number of bytes processed, chunks received and reads timed out. *)
Inductive Reachable : GameBoyPrinter -> Prop :=
  | reach_new : Reachable newPrinter
  | reach_byte p b :
      Reachable p -> Reachable (stateAfter (processFirmwareByte p b))
  | reach_chunk p now later bytes :
      Reachable p -> Reachable (receiveChunk now later bytes p)
  | reach_timeout p now : Reachable p -> Reachable (readTimeout now p).

(** A packet as it travels on the wire. *)
Record Packet : Type := mkPacket {
  pCommand : Z;
  pCompression : Z;
  pLenLow : Z;
  pLenHigh : Z;
  pPayload : list Z
}.

Definition packetWire (k : Packet) : list Z :=
  packetBytes (pCommand k) (pCompression k) (pLenLow k) (pLenHigh k)
    (pPayload k).

(** A packet the parser reads to its end: a known command, a compression
    flag of 0 or 1, a length of at most 1000 that is the length of the
    payload, and a payload in which the abort marker does not occur. *)
Definition wellFormedPacket (k : Packet) : Prop :=
  In (pCommand k) validCommands /\
  (pCompression k = 0 \/ pCompression k = 1) /\
  isByte (pLenLow k) /\ isByte (pLenHigh k) /\
  pLenLow k + 256 * pLenHigh k <= 1000 /\
  Z.of_nat (length (pPayload k)) = pLenLow k + 256 * pLenHigh k /\
  occursIn abortMarker (pPayload k) = false.

(** What a dispatched packet does to the print buffer. *)
Definition packetEffect (command compression : Z) (payload printBuffer : list Z)
  : list Z :=
  if command =? INIT then []
  else if command =? DATA then
    if compression =? 0 then printBuffer ++ payload
    else printBuffer ++ decompressRLE payload
  else printBuffer.

Definition packetEffectOf (printBuffer : list Z) (k : Packet) : list Z :=
  packetEffect (pCommand k) (pCompression k) (pPayload k) printBuffer.

(** The body of the two tile loops for the tile of index [t]: it is
    decoded from its sixteen bytes and placed in column [t mod 20] of tile
    row [t / 20]. *)
Definition tileStep (data : list Z) (width : nat) (pixels : list Z) (t : nat)
  : list Z :=
  decodeTile data (t * bytesPerTile) pixels width
    ((t `mod` tilesPerRow) * 8) ((t `div` tilesPerRow) * 8).

(** The offsets the tile of index [t] writes to. *)
Definition tileTouched (width t q : nat) : Prop :=
  exists row, (row < 8)%nat /\
    rowTouched width ((t `mod` tilesPerRow) * 8) ((t `div` tilesPerRow) * 8)
      row q.

(** A change of the state applied to the state a call leaves. *)
Definition mapCompletion (f : GameBoyPrinter -> GameBoyPrinter)
    (c : Completion) : Completion :=
  match c with
  | Returns p => Returns (f p)
  | Throws p => Throws (f p)
  end.

(** The position, in a run of bytes processed from the state [p], of the
    first byte for which [processFirmwareByte] throws. *)
Fixpoint firstThrow (p : GameBoyPrinter) (bytes : list Z) : option nat :=
  match bytes with
  | [] => None
  | byte :: rest =>
      match processFirmwareByte p byte with
      | Returns q => option_map S (firstThrow q rest)
      | Throws _ => Some 0%nat
      end
  end.

(** The print buffer and the pending packet data hold bytes only. *)
Definition bytesOnly (p : GameBoyPrinter) : Prop :=
  Forall isByte (printData p) /\ Forall isByte (currentPacketData p).

(** The page is a log of the images printed: the image count is the
    number of canvases, and the canvas at position [i] is named after
    [i]. *)
Definition canvasLog (p : GameBoyPrinter) : Prop :=
  imageCount p = length (canvasContainer p) /\
  forall i c, canvasContainer p !! i = Some c ->
              canvasId c = "print-" +:+ pretty i.

(** ** js/serial.js: magic packets and hex strings *)

(** A [Uint8Array] is a list of bytes; a JavaScript string is the list of
    its UTF-16 code units. *)

(** Storing an integer in a [Uint8Array]: modulo 256. *)
Definition toUint8 (n : Z) : Z := n mod 256.

(** [target.set(source, offset)]: [None] is the [RangeError] thrown when
    the source does not fit. *)
Definition typedArraySet (target source : list Z) (offset : nat)
  : option (list Z) :=
  if (offset + length source <=? length target)%nat then
    Some (take offset target ++ source
            ++ drop (offset + length source) target)
  else None.

(** [MAGIC_PREFIX] of serial.js. *)
Definition MAGIC_PREFIX : list Z :=
  [0xCA; 0xFE; 0xCA; 0xFE; 0xCA; 0xFE; 0xCA; 0xFE;
   0xCA; 0xFE; 0xCA; 0xFE; 0xCA; 0xFE; 0xCA; 0xFE;
   0xDE; 0xAD; 0xBE; 0xEF; 0xDE; 0xAD; 0xBE; 0xEF;
   0xDE; 0xAD; 0xBE; 0xEF; 0xDE; 0xAD; 0xBE; 0xEF].

(** [PRINTER_MODE_MAGIC] of printer.js. *)
Definition PRINTER_MODE_MAGIC : list Z :=
  [0xCA; 0xFE; 0xCA; 0xFE; 0xCA; 0xFE; 0xCA; 0xFE;
   0xCA; 0xFE; 0xCA; 0xFE; 0xCA; 0xFE; 0xCA; 0xFE;
   0xDE; 0xAD; 0xBE; 0xEF; 0xDE; 0xAD; 0xBE; 0xEF;
   0xDE; 0xAD; 0xBE; 0xEF; 0xDE; 0xAD; 0xBE; 0xEF;
   0x50; 0x52; 0x4E; 0x54].

(** [buildVswitchPacket(suffix)], on the bytes [encoded] that
    [new TextEncoder().encode(suffix)] returns. *)
Definition buildVswitchPacket (encoded : list Z) : option (list Z) :=
  let packet := replicate 36 0 in
  match typedArraySet packet MAGIC_PREFIX 0 with
  | None => None
  | Some packet => typedArraySet packet encoded 32
  end.

(** [LED_PREFIX]: the magic prefix followed by "LEDS". *)
Definition LED_PREFIX : list Z := MAGIC_PREFIX ++ [0x4C; 0x45; 0x44; 0x53].

(** [buildLedPacket(r, g, b, on)] for integers [r], [g], [b]; [on] is
    the truthiness of the fourth argument. *)
Definition buildLedPacket (r g b : Z) (on : bool) : option (list Z) :=
  let packet := replicate 40 0 in
  match typedArraySet packet LED_PREFIX 0 with
  | None => None
  | Some packet =>
      let packet := <[36%nat := toUint8 r]> packet in
      let packet := <[37%nat := toUint8 g]> packet in
      let packet := <[38%nat := toUint8 b]> packet in
      Some (<[39%nat := toUint8 (if on then 1 else 0)]> packet)
  end.

(** The digit of [Number.prototype.toString(16)] for a value 0..15:
    '0'..'9', 'a'..'f'. *)
Definition hexDigit (d : Z) : Z := if d <? 10 then 48 + d else 87 + d.

(** The hexadecimal digits of a positive integer, most significant
    first; the fuel covers one digit per bit. *)
Fixpoint hexDigits (fuel : nat) (n : Z) (acc : list Z) : list Z :=
  match fuel with
  | O => acc
  | S fuel' =>
      let acc' := hexDigit (n mod 16) :: acc in
      if n / 16 =? 0 then acc' else hexDigits fuel' (n / 16) acc'
  end.

(** [n.toString(16)] for an integer [n]. *)
Definition numberToHex (n : Z) : list Z :=
  if n <? 0 then 45 :: hexDigits (S (Z.to_nat (Z.log2 (- n)))) (- n) []
  else hexDigits (S (Z.to_nat (Z.log2 n))) n [].

(** [s.padStart(2, '0')] *)
Definition padStart2 (s : list Z) : list Z :=
  replicate (2 - length s) 48 ++ s.

(** [toHexString(bytes)]: the [reduce] appends the two digits of every
    element to the string, from the empty string. *)
Definition toHexString (bytes : list Z) : list Z :=
  foldl (fun str byte => str ++ padStart2 (numberToHex byte)) [] bytes.

(** [buf2hex(buffer)], on the bytes of the buffer: [map] then
    [join('')]. *)
Definition buf2hex (buffer : list Z) : list Z :=
  concat (map (fun x => padStart2 (numberToHex x)) buffer).

(** Line terminators, which [.] does not match in a regular expression. *)
Definition isLineTerminator (c : Z) : bool :=
  (c =? 0x0A) || (c =? 0x0D) || (c =? 0x2028) || (c =? 0x2029).

(** White space and line terminators, which [parseInt] skips at the
    start of its argument. *)
Definition isStrWhiteSpace (c : Z) : bool :=
  (c =? 0x09) || (c =? 0x0B) || (c =? 0x0C) || (c =? 0x20) || (c =? 0xA0) ||
  (c =? 0x1680) || ((0x2000 <=? c) && (c <=? 0x200A)) || (c =? 0x202F) ||
  (c =? 0x205F) || (c =? 0x3000) || (c =? 0xFEFF) || isLineTerminator c.

(** [hexString.match(/.{1,2}/g)]: the successive matches, each of two
    code units that are not line terminators, or of one when the next is
    a line terminator or the end; the empty list stands for [null]. *)
Fixpoint matchPairs (s : list Z) : list (list Z) :=
  match s with
  | [] => []
  | c :: rest =>
      if isLineTerminator c then matchPairs rest
      else
        match rest with
        | [] => [[c]]
        | c2 :: rest2 =>
            if isLineTerminator c2 then [c] :: matchPairs rest2
            else [c; c2] :: matchPairs rest2
        end
  end.

(** The value of a hexadecimal digit, in either case. *)
Definition hexValue (c : Z) : option Z :=
  if (48 <=? c) && (c <=? 57) then Some (c - 48)
  else if (97 <=? c) && (c <=? 102) then Some (c - 87)
  else if (65 <=? c) && (c <=? 70) then Some (c - 55)
  else None.

Fixpoint skipWhiteSpace (s : list Z) : list Z :=
  match s with
  | c :: rest => if isStrWhiteSpace c then skipWhiteSpace rest else s
  | [] => []
  end.

(** The digits at the start of [s], read in base 16: the value read so
    far and whether a digit was seen. *)
Fixpoint readHex (s : list Z) (value : Z) (seen : bool) : option Z :=
  match s with
  | c :: rest =>
      match hexValue c with
      | Some d => readHex rest (16 * value + d) true
      | None => if seen then Some value else None
      end
  | [] => if seen then Some value else None
  end.

(** [parseInt(s, 16)]; [None] is [NaN]. *)
Definition parseInt16 (s : list Z) : option Z :=
  let s := skipWhiteSpace s in
  let '(sign, s) :=
    match s with
    | c :: rest =>
        if c =? 45 then (-1, rest)
        else if c =? 43 then (1, rest)
        else (1, s)
    | [] => (1, s)
    end in
  let s :=
    match s with
    | c1 :: c2 :: rest =>
        if (c1 =? 48) && ((c2 =? 120) || (c2 =? 88)) then rest else s
    | _ => s
    end in
  match readHex s 0 false with
  | Some v => Some (sign * v)
  | None => None
  end.

(** An element of [new Uint8Array(numbers)]: [NaN] is stored as 0. *)
Definition numberToUint8 (v : option Z) : Z :=
  match v with
  | Some n => toUint8 n
  | None => 0
  end.

(** [fromHexString(hexString)]; [None] is the [TypeError] thrown by
    [.map] when [match] returns [null]. *)
Definition fromHexString (hexString : list Z) : option (list Z) :=
  match matchPairs hexString with
  | [] => None
  | pairs => Some (map (fun byte => numberToUint8 (parseInt16 byte)) pairs)
  end.

(** The check that a byte survives the two conversions. *)
Definition hexByteOk (b : Z) : bool :=
  match padStart2 (numberToHex b) with
  | [c1; c2] =>
      negb (isLineTerminator c1) && negb (isLineTerminator c2) &&
      (numberToUint8 (parseInt16 [c1; c2]) =? b)
  | _ => false
  end.

(** * Properties *)

(** ** Sanity checks of the embedding on concrete runs *)

Example decompress_literal_example :
  decompressRLE [0x02; 0xAA; 0xBB; 0xCC] = [0xAA; 0xBB; 0xCC].
Proof. reflexivity. Qed.

Example decompress_repeat_example :
  decompressRLE [0x83; 0x7F] = [0x7F; 0x7F; 0x7F; 0x7F; 0x7F].
Proof. reflexivity. Qed.


(** ** The 32-bit operators on small values *)

Lemma toInt32_small (z : Z) : - 2 ^ 31 <= z < 2 ^ 31 -> JS.toInt32 z = z.
Proof.
  intros Hz. unfold JS.toInt32.
  rewrite Z.mod_small by lia. lia.
Qed.

Lemma land_byte_bounds (a m : Z) : isByte a -> 0 <= m -> 0 <= Z.land a m < 256.
Proof.
  unfold isByte. intros Ha Hm.
  assert (H0 : 0 <= Z.land a m) by (apply Z.land_nonneg; left; lia).
  split; [assumption|].
  destruct (Z.eq_dec (Z.land a m) 0) as [->|Hne]; [lia|].
  destruct (Z.eq_dec a 0) as [->|Ha0]; [rewrite Z.land_0_l in Hne; lia|].
  change 256 with (2 ^ 8). apply Z.log2_lt_pow2; [lia|].
  pose proof (Z.log2_land a m ltac:(lia) Hm) as Hl.
  assert (Z.log2 a < 8) by (apply Z.log2_lt_pow2; lia).
  lia.
Qed.

Lemma js_and_byte (c m : Z) :
  isByte c -> 0 <= m < 256 -> JS.and c m = Z.land c m.
Proof.
  intros Hc Hm. pose proof Hc as Hc'. unfold isByte in Hc'. unfold JS.and.
  rewrite (toInt32_small c), (toInt32_small m) by lia.
  pose proof (land_byte_bounds c m Hc ltac:(lia)).
  apply toInt32_small. lia.
Qed.

Lemma land_0x80_testbit (c : Z) :
  isByte c -> (Z.land c 0x80 =? 0) = negb (Z.testbit c 7).
Proof.
  intros Hc. unfold isByte in Hc.
  change 0x80 with (Z.shiftl 1 7).
  destruct (Z.testbit c 7) eqn:Hb; simpl.
  - apply Z.eqb_neq. intros H0.
    assert (Ht : Z.testbit (Z.land c (Z.shiftl 1 7)) 7 = true).
    { rewrite Z.land_spec, Hb, Z.shiftl_spec by lia. reflexivity. }
    rewrite H0 in Ht. rewrite Z.bits_0 in Ht. discriminate.
  - apply Z.eqb_eq. apply Z.bits_inj'. intros n Hn.
    rewrite Z.land_spec, Z.bits_0, Z.shiftl_spec by lia.
    destruct (Z.eq_dec n 7) as [->|Hne].
    + rewrite Hb. reflexivity.
    + replace (Z.testbit 1 (n - 7)) with false; [apply andb_false_r|].
      destruct (Z_lt_le_dec n 7).
      * rewrite Z.testbit_neg_r by lia. reflexivity.
      * symmetry. apply (Z.bits_above_log2 1 (n - 7)); simpl; lia.
Qed.

Lemma js_highbit (c : Z) :
  isByte c -> JS.truthy (JS.and c 0x80) = Z.testbit c 7.
Proof.
  intros Hc. unfold JS.truthy.
  rewrite js_and_byte by (unfold isByte in *; lia).
  rewrite land_0x80_testbit by assumption.
  apply negb_involutive.
Qed.

Lemma js_orZero_some (v : Z) : JS.orZero (Some v) = v.
Proof.
  unfold JS.orZero, JS.truthy.
  destruct (Z.eqb_spec v 0); simpl; congruence.
Qed.

(** The two length bytes assemble little-endian. *)
Lemma js_length_le (lo hi : Z) :
  isByte lo -> isByte hi -> JS.or lo (JS.shl hi 8) = lo + 256 * hi.
Proof.
  intros Hlo Hhi. unfold isByte in *. unfold JS.or, JS.shl.
  change (Z.land 8 31) with 8.
  rewrite (toInt32_small hi), (toInt32_small lo) by lia.
  rewrite Z.shiftl_mul_pow2 by lia. change (2 ^ 8) with 256.
  rewrite !(toInt32_small (hi * 256)) by lia.
  assert (Hdisj : Z.land lo (hi * 256) = 0).
  { apply Z.bits_inj'. intros n Hn. rewrite Z.land_spec, Z.bits_0.
    destruct (Z_lt_le_dec n 8).
    - replace (hi * 256) with (hi * 2 ^ 8) by reflexivity.
      rewrite Z.mul_pow2_bits_low by lia. apply andb_false_r.
    - destruct (Z.eq_dec lo 0) as [->|Hne].
      + rewrite Z.bits_0. reflexivity.
      + rewrite (Z.bits_above_log2 lo n); [reflexivity|lia|].
        assert (Z.log2 lo < 8) by (apply Z.log2_lt_pow2; lia). lia. }
  rewrite <- (Z.lxor_lor _ _ Hdisj), <- (Z.add_nocarry_lxor _ _ Hdisj).
  rewrite toInt32_small; lia.
Qed.

(** ** The sliding marker window *)

Lemma pushRecent_snoc (w : list Z) (b : Z) :
  exists u, pushRecent w b = u ++ [b].
Proof.
  unfold pushRecent.
  destruct (10 <? length (w ++ [b]))%nat eqn:Hlen.
  - destruct w as [|x w'].
    + simpl in Hlen. discriminate.
    + exists w'. reflexivity.
  - exists w. reflexivity.
Qed.

Lemma pushRecent_length (w : list Z) (b : Z) :
  (length w <= 10)%nat -> (length (pushRecent w b) <= 10)%nat.
Proof.
  intros Hw. unfold pushRecent.
  destruct (10 <? length (w ++ [b]))%nat eqn:Hlen.
  - destruct w as [|x w']; simpl in *; [lia|].
    rewrite length_app. simpl. lia.
  - apply Nat.ltb_ge in Hlen. exact Hlen.
Qed.

(** Ten pushes into a window of at most ten bytes leave exactly the ten
    bytes pushed. *)
Lemma pushRecent_ten (w bs : list Z) :
  (length w <= 10)%nat -> length bs = 10%nat -> foldl pushRecent w bs = bs.
Proof.
  intros Hw Hbs.
  do 10 (destruct bs as [|? bs]; [discriminate Hbs|]).
  destruct bs; [|discriminate Hbs].
  do 10 (destruct w as [|? w]; [reflexivity|]).
  destruct w; [reflexivity|]. simpl in Hw. lia.
Qed.

Lemma isAbortMarker_eq (w : list Z) :
  isAbortMarker w = true <-> w = abortMarker.
Proof.
  split.
  - unfold isAbortMarker. intros H.
    apply andb_prop in H as [Hlen Hall].
    apply Nat.eqb_eq in Hlen.
    do 10 (destruct w as [|? w]; [discriminate Hlen|]).
    destruct w; [|discriminate Hlen].
    cbn in Hall.
    repeat (apply andb_prop in Hall as [?%Z.eqb_eq Hall]).
    subst. reflexivity.
  - intros ->. reflexivity.
Qed.

(** The marker ends in 'T' (0x54), preceded by 'N' (0x4E): the window can
    only match right after those bytes were pushed. *)
Lemma abort_last_byte (w : list Z) (b : Z) :
  isAbortMarker (pushRecent w b) = true -> b = 0x54.
Proof.
  intros H. apply isAbortMarker_eq in H.
  destruct (pushRecent_snoc w b) as [u Hu]. rewrite Hu in H.
  change abortMarker
    with ([0x41; 0x42; 0x4F; 0x52; 0x54; 0x50; 0x52; 0x49; 0x4E] ++ [0x54]) in H.
  apply app_inj_tail in H as [_ ->]. reflexivity.
Qed.

Lemma abort_last_two (w : list Z) (a b : Z) :
  isAbortMarker (pushRecent (pushRecent w a) b) = true -> a = 0x4E.
Proof.
  intros H. apply isAbortMarker_eq in H.
  destruct (pushRecent_snoc w a) as [u Hu]. rewrite Hu in H.
  assert (Hv : exists v, abortMarker = (v ++ [a]) ++ [b]).
  { unfold pushRecent in H.
    destruct (10 <? length ((u ++ [a]) ++ [b]))%nat.
    - destruct u as [|x u'].
      + discriminate H.
      + exists u'. rewrite <- H. reflexivity.
    - exists u. rewrite <- H. reflexivity. }
  destruct Hv as [v Hv].
  change abortMarker
    with (([0x41; 0x42; 0x4F; 0x52; 0x54; 0x50; 0x52; 0x49] ++ [0x4E]) ++ [0x54])
    in Hv.
  apply app_inj_tail in Hv as [Hv _].
  apply app_inj_tail in Hv as [_ Hv]. congruence.
Qed.

(** ** One step of the parser *)

(** Reading a field through the field assignments. *)
Ltac fields :=
  cbn [printData totalBytesReceived imageCount parserState currentCommand
       currentCompression currentLength currentDataIndex currentPacketData
       lastDataTime recentBytes statusText statusClass canvasContainer
       set_printData set_totalBytesReceived set_imageCount set_parserState
       set_currentCommand set_currentCompression set_currentLength
       set_currentDataIndex set_currentPacketData set_lastDataTime
       set_recentBytes set_canvasContainer updateStatus stateAfter
       abortPrint withByte withLength] in *.

(** ** Where the code throws *)

Lemma createImageData_Some (width height : nat) (pixels : list Z) :
  createImageData width height = Some pixels ->
  (0 < width)%nat /\ (0 < height)%nat /\
  pixels = replicate (width * height * 4) 0.
Proof.
  unfold createImageData.
  destruct (Nat.eqb_spec width 0), (Nat.eqb_spec height 0); cbn [orb];
    intros H; try discriminate H.
  injection H as <-. repeat split; lia.
Qed.

Lemma ceilDiv_zero (a b : nat) :
  (0 < b)%nat -> ceilDiv a b = 0%nat <-> a = 0%nat.
Proof.
  intros Hb. unfold ceilDiv. split.
  - intros H. destruct (Nat.eqb_spec (a `mod` b) 0) as [Hm|Hm]; [|lia].
    pose proof (Nat.div_mod_eq a b). nia.
  - intros ->. rewrite Nat.Div0.div_0_l, Nat.Div0.mod_0_l. reflexivity.
Qed.

(** The canvas is built exactly when the data holds a whole tile. *)
Lemma renderCanvas_None (data : list Z) (n : nat) :
  renderCanvas data n = None <-> (length data < 16)%nat.
Proof.
  unfold renderCanvas. cbn zeta.
  set (T := (length data `div` bytesPerTile)%nat).
  assert (HT : T = 0%nat <-> (length data < 16)%nat).
  { unfold T, bytesPerTile. split.
    - intros H. apply Nat.div_small_iff in H; lia.
    - intros H. apply Nat.div_small. exact H. }
  assert (Hc : ceilDiv T tilesPerRow = 0%nat <-> T = 0%nat)
    by (apply ceilDiv_zero; unfold tilesPerRow; lia).
  unfold createImageData.
  change (tilesPerRow * 8 =? 0)%nat with false. cbn [orb].
  destruct (Nat.eqb_spec (ceilDiv T tilesPerRow * 8) 0) as [H0|H0].
  - split; [intros _; apply HT, Hc; lia|reflexivity].
  - destruct (tileLoop _ _ _ _ _). split; [discriminate|].
    intros H. apply HT, Hc in H. lia.
Qed.

Lemma renderCanvas_Some (data : list Z) (n : nat) :
  (16 <= length data)%nat -> exists t c, renderCanvas data n = Some (t, c).
Proof.
  intros H. destruct (renderCanvas data n) as [[t c]|] eqn:E.
  - exists t, c. reflexivity.
  - apply renderCanvas_None in E. lia.
Qed.

(** What [renderImage] assigns when it returns. *)
Lemma renderImage_Some (data : list Z) (p q : GameBoyPrinter) :
  renderImage data p = Some q ->
  exists t c,
    renderCanvas data (imageCount p) = Some (t, c) /\
    q = updateStatus "Image received! Waiting for more..." "status-idle"
          (set_imageCount (S (imageCount p))
             (set_canvasContainer (canvasContainer p ++ [c]) p)).
Proof.
  unfold renderImage.
  destruct (renderCanvas data (imageCount p)) as [[t c]|]; [|discriminate].
  intros H. injection H as <-. exists t, c. split; reflexivity.
Qed.

Lemma renderImage_None (data : list Z) (p : GameBoyPrinter) :
  renderImage data p = None <-> (length data < 16)%nat.
Proof.
  rewrite <- (renderCanvas_None data (imageCount p)). unfold renderImage.
  destruct (renderCanvas data (imageCount p)) as [[t c]|];
    split; intros H; try discriminate H; reflexivity.
Qed.

(** A call of [processFirmwareByte] throws exactly on the print trigger
    in WAIT_COMMAND when the print buffer holds bytes but no whole tile;
    the switch has assigned nothing by then. *)
Lemma parseByte_Throws (p q : GameBoyPrinter) (b : Z) :
  parseByte p b = Throws q <->
  parserState p = WAIT_COMMAND /\ b = 0xFE /\
  (0 < length (printData p) < 16)%nat /\ q = p.
Proof.
  unfold parseByte. split.
  - destruct (parserState p); try discriminate;
      repeat match goal with
             | |- context [if ?c then _ else _] => destruct c eqn:?
             end; try discriminate.
    destruct (renderImage (printData p) p) eqn:E; [discriminate|].
    intros H. injection H as <-.
    apply renderImage_None in E.
    repeat match goal with
           | H : (_ =? _) = true |- _ => apply Z.eqb_eq in H
           | H : (_ <? _)%nat = true |- _ => apply Nat.ltb_lt in H
           end.
    repeat split; first [reflexivity | assumption | lia].
  - intros (-> & -> & [Hl Hu] & ->). cbn [Z.eqb Pos.eqb].
    change (0xFE =? 0xFF) with false. change (0xFE =? 0xFE) with true.
    cbv iota. rewrite (proj2 (Nat.ltb_lt _ _) Hl).
    rewrite (proj2 (renderImage_None _ _) Hu). reflexivity.
Qed.

Lemma parseByte_Returns (p : GameBoyPrinter) (b : Z) :
  b <> 0xFE \/ parserState p <> WAIT_COMMAND \/ printData p = [] \/
  (16 <= length (printData p))%nat ->
  parseByte p b = Returns (stateAfter (parseByte p b)).
Proof.
  intros H. destruct (parseByte p b) as [q|q] eqn:E; [reflexivity|].
  apply parseByte_Throws in E as (Hs & Hb & Hl & _).
  destruct H as [H|[H|[H|H]]]; try contradiction; try lia.
  rewrite H in Hl. cbn in Hl. lia.
Qed.


Lemma processFirmwareByte_quiet (p : GameBoyPrinter) (b : Z) :
  isAbortMarker (pushRecent (recentBytes p) b) = false ->
  processFirmwareByte p b =
  parseByte (set_recentBytes (pushRecent (recentBytes p) b) p) b.
Proof.
  intros H. unfold processFirmwareByte. cbn [recentBytes set_recentBytes].
  rewrite H. reflexivity.
Qed.

Lemma processFirmwareByte_abort (p : GameBoyPrinter) (b : Z) :
  isAbortMarker (pushRecent (recentBytes p) b) = true ->
  processFirmwareByte p b =
  Returns (abortPrint (set_recentBytes (pushRecent (recentBytes p) b) p)).
Proof.
  intros H. unfold processFirmwareByte. cbn [recentBytes set_recentBytes].
  rewrite H. reflexivity.
Qed.

(** A byte other than 'T' never fires the abort. *)
Lemma processFirmwareByte_not_T (p : GameBoyPrinter) (b : Z) :
  b <> 0x54 ->
  processFirmwareByte p b =
  parseByte (set_recentBytes (pushRecent (recentBytes p) b) p) b.
Proof.
  intros Hb. apply processFirmwareByte_quiet.
  destruct (isAbortMarker _) eqn:H; [|reflexivity].
  apply abort_last_byte in H. contradiction.
Qed.

Lemma recentBytes_processPacket (p : GameBoyPrinter) :
  recentBytes (processPacket p) = recentBytes p.
Proof.
  unfold processPacket.
  repeat match goal with |- context [if ?c then _ else _] => destruct c end;
    reflexivity.
Qed.

Lemma recentBytes_parseByte (p : GameBoyPrinter) (b : Z) :
  recentBytes (stateAfter (parseByte p b)) = recentBytes p.
Proof.
  unfold parseByte.
  destruct (parserState p);
    repeat match goal with |- context [if ?c then _ else _] => destruct c end;
    try (destruct (renderImage (printData p) p) as [q|] eqn:E;
         [apply renderImage_Some in E as (t & c & _ & ->)|]);
    cbn; rewrite ?recentBytes_processPacket; reflexivity.
Qed.

Lemma recentBytes_step_quiet (p : GameBoyPrinter) (b : Z) :
  isAbortMarker (pushRecent (recentBytes p) b) = false ->
  recentBytes (stateAfter (processFirmwareByte p b)) =
  pushRecent (recentBytes p) b.
Proof.
  intros H. rewrite processFirmwareByte_quiet by assumption.
  rewrite recentBytes_parseByte. reflexivity.
Qed.

Lemma recentBytes_step_not_T (p : GameBoyPrinter) (b : Z) :
  b <> 0x54 ->
  recentBytes (stateAfter (processFirmwareByte p b)) =
  pushRecent (recentBytes p) b.
Proof.
  intros Hb. apply recentBytes_step_quiet.
  destruct (isAbortMarker _) eqn:H; [|reflexivity].
  apply abort_last_byte in H. contradiction.
Qed.

(** The window never holds more than ten bytes. *)
Lemma recentBytes_step_bound (p : GameBoyPrinter) (b : Z) :
  (length (recentBytes p) <= 10)%nat ->
  (length (recentBytes (stateAfter (processFirmwareByte p b))) <= 10)%nat.
Proof.
  intros Hw.
  destruct (isAbortMarker (pushRecent (recentBytes p) b)) eqn:H.
  - rewrite processFirmwareByte_abort by assumption. cbn. lia.
  - rewrite recentBytes_step_quiet by assumption.
    now apply pushRecent_length.
Qed.

Lemma feed_nil (p : GameBoyPrinter) : feed p [] = p.
Proof. reflexivity. Qed.

Lemma feed_cons (p : GameBoyPrinter) (b : Z) (bs : list Z) :
  feed p (b :: bs) = feed (stateAfter (processFirmwareByte p b)) bs.
Proof. reflexivity. Qed.

Lemma feed_app (p : GameBoyPrinter) (xs ys : list Z) :
  feed p (xs ++ ys) = feed (feed p xs) ys.
Proof. unfold feed. apply foldl_app. Qed.

Lemma recentBytes_feed_bound (bs : list Z) (p : GameBoyPrinter) :
  (length (recentBytes p) <= 10)%nat ->
  (length (recentBytes (feed p bs)) <= 10)%nat.
Proof.
  revert p. induction bs as [|b bs IH]; intros p Hw.
  - exact Hw.
  - rewrite feed_cons. apply IH. now apply recentBytes_step_bound.
Qed.

(** ** The abort sequence *)

(** While the first nine bytes of the marker go by, the window just
    slides: the abort cannot fire before the tenth. *)
Lemma recentBytes_feed_marker_prefix (p : GameBoyPrinter) :
  recentBytes
    (feed p [0x41; 0x42; 0x4F; 0x52; 0x54; 0x50; 0x52; 0x49; 0x4E]) =
  foldl pushRecent (recentBytes p)
    [0x41; 0x42; 0x4F; 0x52; 0x54; 0x50; 0x52; 0x49; 0x4E].
Proof.
  rewrite !feed_cons, feed_nil. cbn [foldl].
  do 4 (rewrite recentBytes_step_not_T by discriminate).
  rewrite recentBytes_step_quiet.
  - rewrite !recentBytes_step_not_T by discriminate. reflexivity.
  - rewrite !recentBytes_step_not_T by discriminate.
    destruct (isAbortMarker _) eqn:H; [|reflexivity].
    apply abort_last_two in H. discriminate H.
Qed.

(** The whole state after the ten bytes of the marker: the state after
    the first nine, with the four fields of the abort branch reset. *)
Lemma feed_abortMarker (p : GameBoyPrinter) :
  (length (recentBytes p) <= 10)%nat ->
  let q := feed p abortMarker in
  printData q = [] /\ currentPacketData q = [] /\ recentBytes q = [] /\
  parserState q = WAIT_COMMAND.
Proof.
  intros Hw q. subst q.
  change abortMarker
    with ([0x41; 0x42; 0x4F; 0x52; 0x54; 0x50; 0x52; 0x49; 0x4E] ++ [0x54]).
  rewrite feed_app, feed_cons, feed_nil.
  rewrite processFirmwareByte_abort; [cbn; auto|].
  rewrite recentBytes_feed_marker_prefix.
  apply isAbortMarker_eq.
  apply (pushRecent_ten (recentBytes p) abortMarker Hw eq_refl).
Qed.

(** After the abort the window refills from empty: fewer than ten
    further bytes never match the marker. *)
Lemma feed_short_window (bs : list Z) (p : GameBoyPrinter) :
  (length (recentBytes p) + length bs < 10)%nat ->
  recentBytes (feed p bs) = recentBytes p ++ bs.
Proof.
  revert p. induction bs as [|b bs IH]; intros p Hlen.
  - rewrite feed_nil, app_nil_r. reflexivity.
  - simpl in Hlen. rewrite feed_cons.
    assert (Hpush : pushRecent (recentBytes p) b = recentBytes p ++ [b]).
    { unfold pushRecent.
      destruct (10 <? length (recentBytes p ++ [b]))%nat eqn:E; [|reflexivity].
      apply Nat.ltb_lt in E. rewrite length_app in E. simpl in E. lia. }
    assert (Hq : isAbortMarker (pushRecent (recentBytes p) b) = false).
    { rewrite Hpush. unfold isAbortMarker.
      replace (length (recentBytes p ++ [b]) =? 10)%nat with false; [reflexivity|].
      symmetry. apply Nat.eqb_neq. rewrite length_app. simpl. lia. }
    rewrite IH.
    + rewrite recentBytes_step_quiet, Hpush by assumption.
      rewrite <- app_assoc. reflexivity.
    + rewrite recentBytes_step_quiet, Hpush by assumption.
      rewrite length_app. simpl. lia.
Qed.

(** ** Reachable states *)

Lemma recentBytes_readTimeout (now : Z) (p : GameBoyPrinter) :
  recentBytes (readTimeout now p) = recentBytes p.
Proof.
  unfold readTimeout.
  repeat match goal with |- context [if ?c then _ else _] => destruct c end;
    reflexivity.
Qed.

Lemma recentBytes_chunkLoop_bound (bytes : list Z) (p : GameBoyPrinter) :
  (length (recentBytes p) <= 10)%nat ->
  (length (recentBytes (stateAfter (chunkLoop bytes p))) <= 10)%nat.
Proof.
  revert p. induction bytes as [|b bs IH]; intros p Hw; [exact Hw|].
  cbn [chunkLoop].
  pose proof (recentBytes_step_bound p b Hw) as Hs.
  destruct (processFirmwareByte p b) as [q|q]; [|exact Hs].
  apply IH. exact Hs.
Qed.

Lemma recentBytes_receiveChunk_bound (bytes : list Z) (now later : Z)
    (p : GameBoyPrinter) :
  (length (recentBytes p) <= 10)%nat ->
  (length (recentBytes (receiveChunk now later bytes p)) <= 10)%nat.
Proof.
  intros Hw. unfold receiveChunk, tryChunk.
  destruct (0 <? length bytes)%nat; [|exact Hw].
  pose proof (recentBytes_chunkLoop_bound bytes (set_lastDataTime now p) Hw)
    as Hs.
  destruct (chunkLoop bytes (set_lastDataTime now p)) as [q|q];
    [exact Hs|].
  rewrite recentBytes_readTimeout. exact Hs.
Qed.

(** In every reachable state the window holds at most ten bytes. *)
Lemma Reachable_window (p : GameBoyPrinter) :
  Reachable p -> (length (recentBytes p) <= 10)%nat.
Proof.
  induction 1.
  - cbn. lia.
  - now apply recentBytes_step_bound.
  - now apply recentBytes_receiveChunk_bound.
  - now rewrite recentBytes_readTimeout.
Qed.

Lemma Reachable_feed (bs : list Z) (p : GameBoyPrinter) :
  Reachable p -> Reachable (feed p bs).
Proof.
  revert p. induction bs as [|b bs IH]; intros p Hp; [exact Hp|].
  rewrite feed_cons. apply IH. now constructor.
Qed.

(** ** C3: abort in the middle of a payload *)

(** C3.  In any state that is reading the payload of a Data packet
    (parser in READ_DATA, some payload bytes still missing), whatever the
    print buffer holds, feeding the ten bytes of ABORTPRINT empties the
    print buffer and the pending packet data, returns the parser to
    WAIT_COMMAND and empties the sliding window; the window then refills
    from empty, so that fewer than ten further bytes, whatever they are,
    cannot fire the abort again.  The window of the starting state holds
    at most ten bytes, as it does in every reachable state
    ([Reachable_window]). *)
Theorem abort_mid_payload (p : GameBoyPrinter) :
  parserState p = READ_DATA ->
  currentCommand p = DATA ->
  currentDataIndex p < currentLength p ->
  (length (recentBytes p) <= 10)%nat ->
  let q := feed p abortMarker in
  printData q = [] /\
  currentPacketData q = [] /\
  parserState q = WAIT_COMMAND /\
  recentBytes q = [] /\
  forall more, (length more < 10)%nat -> recentBytes (feed q more) = more.
Proof.
  intros _ _ _ Hw q.
  destruct (feed_abortMarker p Hw) as (Hd & Hc & Hr & Hs).
  fold q in Hd, Hc, Hr, Hs.
  repeat split; try assumption.
  intros more Hmore.
  rewrite feed_short_window; rewrite Hr; [reflexivity|simpl; lia].
Qed.

Lemma abort_mid_payload_witness :
  let p := feed newPrinter [0x04; 0x00; 0x03; 0x00; 0x11] in
  (parserState p = READ_DATA /\ currentCommand p = DATA /\
   currentDataIndex p < currentLength p /\
   (length (recentBytes p) <= 10)%nat) /\
  let q := feed p abortMarker in
  printData q = [] /\
  currentPacketData q = [] /\
  parserState q = WAIT_COMMAND /\
  recentBytes q = [] /\
  forall more, (length more < 10)%nat -> recentBytes (feed q more) = more.
Proof.
  intros p. split.
  - vm_compute. repeat split; try reflexivity. lia.
  - apply (abort_mid_payload p); vm_compute; try reflexivity. lia.
Defined.

(** ** C5: packet assembly *)

(** C5.  From any state waiting for a command with an empty print
    buffer, the seven bytes 04 00 03 00 11 22 33 (Data, raw, length 3 low
    byte first, three payload bytes) leave the print buffer equal to
    11 22 33 and the parser waiting for a command again. *)
Theorem packet_assembly (p : GameBoyPrinter) :
  parserState p = WAIT_COMMAND ->
  printData p = [] ->
  let q := feed p [0x04; 0x00; 0x03; 0x00; 0x11; 0x22; 0x33] in
  printData q = [0x11; 0x22; 0x33] /\ parserState q = WAIT_COMMAND.
Proof.
  intros Hs Hd q. subst q.
  rewrite !feed_cons, feed_nil.
  rewrite !processFirmwareByte_not_T by discriminate.
  destruct p. cbn in Hs, Hd. subst.
  split; vm_compute; reflexivity.
Qed.

Lemma packet_assembly_witness :
  (parserState newPrinter = WAIT_COMMAND /\ printData newPrinter = []) /\
  let q := feed newPrinter [0x04; 0x00; 0x03; 0x00; 0x11; 0x22; 0x33] in
  printData q = [0x11; 0x22; 0x33] /\ parserState q = WAIT_COMMAND.
Proof.
  split.
  - split; reflexivity.
  - apply (packet_assembly newPrinter); reflexivity.
Defined.

(** ** The transitions of the switch, state by state *)

Lemma parseByte_command_init (p : GameBoyPrinter) :
  parserState p = WAIT_COMMAND ->
  parseByte p INIT =
  Returns
    (updateStatus "Init - buffer cleared" "status-receiving"
       (set_printData []
          (set_parserState WAIT_COMPRESSION (set_currentCommand INIT p)))).
Proof. intros H. unfold parseByte. rewrite H. reflexivity. Qed.

Lemma parseByte_start_marker (p : GameBoyPrinter) :
  parserState p = WAIT_COMMAND ->
  parseByte p 0xFF =
  Returns
    (updateStatus "Ready for print" "status-idle"
       (set_currentPacketData [] (set_printData [] p))).
Proof. intros H. unfold parseByte. rewrite H. reflexivity. Qed.

Lemma parseByte_compression_bad (p : GameBoyPrinter) (b : Z) :
  parserState p = WAIT_COMPRESSION -> b <> 0 -> b <> 1 ->
  parseByte p b = Returns (set_parserState WAIT_COMMAND p).
Proof.
  intros H H0 H1. unfold parseByte. rewrite H.
  apply Z.eqb_neq in H0, H1. rewrite H0, H1. reflexivity.
Qed.

Lemma parseByte_compression_ok (p : GameBoyPrinter) (b : Z) :
  parserState p = WAIT_COMPRESSION -> b = 0 \/ b = 1 ->
  parseByte p b =
  Returns (set_parserState WAIT_LEN_LOW (set_currentCompression b p)).
Proof.
  intros H [-> | ->]; unfold parseByte; rewrite H; reflexivity.
Qed.

Lemma parseByte_len_low (p : GameBoyPrinter) (b : Z) :
  parserState p = WAIT_LEN_LOW ->
  parseByte p b =
  Returns (set_parserState WAIT_LEN_HIGH (set_currentLength b p)).
Proof. intros H. unfold parseByte. rewrite H. reflexivity. Qed.

Lemma parseByte_len_high (p : GameBoyPrinter) (b : Z) :
  parserState p = WAIT_LEN_HIGH ->
  parseByte p b =
  Returns
    (let n := JS.or (currentLength p) (JS.shl b 8) in
     if n >? 1000 then set_parserState WAIT_COMMAND (withLength p n)
     else if n >? 0 then set_parserState READ_DATA (withLength p n)
     else set_parserState WAIT_COMMAND (processPacket (withLength p n))).
Proof.
  intros H. unfold parseByte. rewrite H. cbv zeta.
  change (currentLength (set_currentPacketData [] (set_currentDataIndex 0
            (set_currentLength (JS.or (currentLength p) (JS.shl b 8)) p))))
    with (JS.or (currentLength p) (JS.shl b 8)).
  destruct (_ >? 1000); [reflexivity|].
  destruct (_ >? 0); reflexivity.
Qed.

Lemma parseByte_read_data (p : GameBoyPrinter) (b : Z) :
  parserState p = READ_DATA ->
  parseByte p b =
  Returns
    (let p' := set_currentDataIndex (currentDataIndex p + 1)
                 (set_currentPacketData (currentPacketData p ++ [b]) p) in
     if currentDataIndex p + 1 >=? currentLength p
     then set_parserState WAIT_COMMAND (processPacket p')
     else p').
Proof.
  intros H. unfold parseByte. rewrite H. cbv zeta.
  change (currentDataIndex (set_currentDataIndex (currentDataIndex
            (set_currentPacketData (currentPacketData p ++ [b]) p) + 1)
            (set_currentPacketData (currentPacketData p ++ [b]) p)))
    with (currentDataIndex p + 1).
  change (currentLength (set_currentDataIndex (currentDataIndex
            (set_currentPacketData (currentPacketData p ++ [b]) p) + 1)
            (set_currentPacketData (currentPacketData p ++ [b]) p)))
    with (currentLength p).
  destruct (_ >=? _); reflexivity.
Qed.

Lemma processPacket_init (p : GameBoyPrinter) :
  currentCommand p = INIT ->
  processPacket p =
  updateStatus "Ready for print data" "status-idle"
    (set_currentPacketData [] (set_printData [] p)).
Proof. intros H. unfold processPacket. rewrite H. reflexivity. Qed.

(** ** C9: Init clears the print buffer at its command byte *)

(** C9.  In a state waiting for a command, whatever the print buffer
    holds, the Init command byte 0x01 empties the print buffer at once and
    moves to WAIT_COMPRESSION, before any other byte of the packet has
    arrived.  If the packet then desynchronizes, by a compression byte
    other than 0 or 1, or by a valid compression byte followed by a length
    above 1000, the parser is back in WAIT_COMMAND with the print buffer
    still empty; and when the bad compression byte does not complete the
    abort marker, nothing but the window and the parser state has changed:
    the packet was not dispatched.  None of these calls throws. *)
Theorem init_clears_at_command_byte (p : GameBoyPrinter) :
  parserState p = WAIT_COMMAND ->
  let p1 := stateAfter (processFirmwareByte p INIT) in
  processFirmwareByte p INIT = Returns p1 /\
  (printData p1 = [] /\ parserState p1 = WAIT_COMPRESSION) /\
  (forall b, b <> 0 -> b <> 1 ->
     let p2 := stateAfter (processFirmwareByte p1 b) in
     processFirmwareByte p1 b = Returns p2 /\
     printData p2 = [] /\ parserState p2 = WAIT_COMMAND /\
     (isAbortMarker (pushRecent (recentBytes p1) b) = false ->
      p2 = set_parserState WAIT_COMMAND
             (set_recentBytes (pushRecent (recentBytes p1) b) p1))) /\
  (forall c lo hi, c = 0 \/ c = 1 -> isByte lo -> isByte hi ->
     lo + 256 * hi > 1000 ->
     let p4 := feed p1 [c; lo; hi] in
     printData p4 = [] /\ parserState p4 = WAIT_COMMAND).
Proof.
  intros Hs p1.
  assert (Hr1 : processFirmwareByte p INIT =
                Returns (updateStatus "Init - buffer cleared" "status-receiving"
                  (set_printData []
                     (set_parserState WAIT_COMPRESSION
                        (set_currentCommand INIT (withByte p INIT)))))).
  { rewrite processFirmwareByte_not_T by discriminate.
    rewrite parseByte_command_init by exact Hs. reflexivity. }
  assert (Hp1 : printData p1 = [] /\ parserState p1 = WAIT_COMPRESSION).
  { subst p1. rewrite Hr1. split; reflexivity. }
  destruct Hp1 as [Hd1 Hs1].
  split; [subst p1; rewrite Hr1; reflexivity|].
  clearbody p1. clear Hr1.
  split; [split; assumption|]. split.
  - intros b Hb0 Hb1 p2. subst p2.
    destruct (isAbortMarker (pushRecent (recentBytes p1) b)) eqn:Hab.
    + rewrite processFirmwareByte_abort by assumption.
      repeat split; try reflexivity. discriminate.
    + rewrite processFirmwareByte_quiet by assumption.
      rewrite parseByte_compression_bad by assumption.
      repeat split; assumption || reflexivity.
  - intros c lo hi Hc Hlo Hhi Hbig p4. subst p4.
    rewrite !feed_cons, feed_nil.
    set (p2 := stateAfter (processFirmwareByte p1 c)).
    assert (Hp2 : p2 = set_parserState WAIT_LEN_LOW
                         (set_currentCompression c
                            (set_recentBytes (pushRecent (recentBytes p1) c) p1))).
    { subst p2. rewrite processFirmwareByte_not_T by (destruct Hc; subst; discriminate).
      rewrite parseByte_compression_ok by assumption. reflexivity. }
    set (p3 := stateAfter (processFirmwareByte p2 lo)).
    assert (Hq3 : isAbortMarker (pushRecent (recentBytes p2) lo) = false).
    { destruct (isAbortMarker _) eqn:Hab; [|reflexivity].
      rewrite Hp2 in Hab. cbn [recentBytes set_parserState set_currentCompression
                                 set_recentBytes] in Hab.
      apply abort_last_two in Hab. destruct Hc; subst; discriminate. }
    assert (Hp3 : p3 = set_parserState WAIT_LEN_HIGH
                         (set_currentLength lo
                            (set_recentBytes (pushRecent (recentBytes p2) lo) p2))).
    { subst p3. rewrite processFirmwareByte_quiet by assumption.
      rewrite parseByte_len_low by (rewrite Hp2; reflexivity). reflexivity. }
    destruct (isAbortMarker (pushRecent (recentBytes p3) hi)) eqn:Hab.
    + rewrite processFirmwareByte_abort by assumption. split; reflexivity.
    + rewrite processFirmwareByte_quiet by assumption.
      rewrite parseByte_len_high by (rewrite Hp3; reflexivity).
      cbn zeta.
      replace (currentLength (set_recentBytes (pushRecent (recentBytes p3) hi) p3))
        with lo by (rewrite Hp3; reflexivity).
      rewrite js_length_le by assumption.
      replace (lo + 256 * hi >? 1000) with true by (symmetry; apply Z.gtb_lt; lia).
      split; cbn; [|reflexivity].
      rewrite Hp3. cbn. rewrite Hp2. cbn. exact Hd1.
Qed.

(** The witness starts with three bytes in the print buffer, which the
    Init command byte clears. *)
Lemma init_clears_at_command_byte_witness :
  let p := feed newPrinter [0x04; 0x00; 0x03; 0x00; 0x11; 0x22; 0x33] in
  (printData p = [0x11; 0x22; 0x33] /\ parserState p = WAIT_COMMAND) /\
  let p1 := stateAfter (processFirmwareByte p INIT) in
  processFirmwareByte p INIT = Returns p1 /\
  (printData p1 = [] /\ parserState p1 = WAIT_COMPRESSION) /\
  (forall b, b <> 0 -> b <> 1 ->
     let p2 := stateAfter (processFirmwareByte p1 b) in
     processFirmwareByte p1 b = Returns p2 /\
     printData p2 = [] /\ parserState p2 = WAIT_COMMAND /\
     (isAbortMarker (pushRecent (recentBytes p1) b) = false ->
      p2 = set_parserState WAIT_COMMAND
             (set_recentBytes (pushRecent (recentBytes p1) b) p1))) /\
  (forall c lo hi, c = 0 \/ c = 1 -> isByte lo -> isByte hi ->
     lo + 256 * hi > 1000 ->
     let p4 := feed p1 [c; lo; hi] in
     printData p4 = [] /\ parserState p4 = WAIT_COMMAND).
Proof.
  intros p. split; [split; reflexivity|].
  apply (init_clears_at_command_byte p). reflexivity.
Defined.

(** ** C4: desynchronization is recovered locally *)

Lemma processFirmwareByte_cases (p : GameBoyPrinter) (b : Z) :
  processFirmwareByte p b =
  if isAbortMarker (recentBytes (withByte p b))
  then Returns (abortPrint (withByte p b))
  else parseByte (withByte p b) b.
Proof. reflexivity. Qed.

(** C4.  A byte other than 0 and 1 received in WAIT_COMPRESSION, and a
    length high byte received in WAIT_LEN_HIGH that makes the
    little-endian length exceed 1000, both leave the parser in
    WAIT_COMMAND, in a state that is given in full: apart from the window,
    the first changes nothing but the parser state, the second records the
    length, zeroes the payload index and empties the pending payload (or,
    when the byte completes the abort marker, the abort branch is taken,
    which ends in WAIT_COMMAND as well).  The call returns: nothing is
    thrown.  The packet is not dispatched and READ_DATA is not entered.
    For instance the bytes 04 00 D0 07, a Data header with length 2000,
    take the parser through WAIT_COMPRESSION, WAIT_LEN_LOW, WAIT_LEN_HIGH
    and back to WAIT_COMMAND, with the print buffer as it was. *)
Theorem desync_recovery :
  (forall p b,
     parserState p = WAIT_COMPRESSION -> b <> 0 -> b <> 1 ->
     let q := if isAbortMarker (recentBytes (withByte p b))
              then abortPrint (withByte p b)
              else set_parserState WAIT_COMMAND (withByte p b) in
     processFirmwareByte p b = Returns q /\
     parserState q = WAIT_COMMAND) /\
  (forall p hi,
     parserState p = WAIT_LEN_HIGH ->
     isByte (currentLength p) -> isByte hi ->
     currentLength p + 256 * hi > 1000 ->
     let q := if isAbortMarker (recentBytes (withByte p hi))
              then abortPrint (withByte p hi)
              else set_parserState WAIT_COMMAND
                     (withLength (withByte p hi)
                        (currentLength p + 256 * hi)) in
     processFirmwareByte p hi = Returns q /\
     parserState q = WAIT_COMMAND) /\
  (forall p,
     parserState p = WAIT_COMMAND ->
     map (fun k => parserState (feed p (take k [0x04; 0x00; 0xD0; 0x07])))
         [1; 2; 3; 4]%nat
     = [WAIT_COMPRESSION; WAIT_LEN_LOW; WAIT_LEN_HIGH; WAIT_COMMAND] /\
     currentLength (feed p [0x04; 0x00; 0xD0; 0x07]) = 2000 /\
     printData (feed p [0x04; 0x00; 0xD0; 0x07]) = printData p).
Proof.
  split; [|split].
  - intros p b Hs Hb0 Hb1 q. subst q.
    rewrite processFirmwareByte_cases.
    destruct (isAbortMarker _); [split; reflexivity|].
    rewrite parseByte_compression_bad by assumption. split; reflexivity.
  - intros p hi Hs Hlo Hhi Hbig q. subst q.
    rewrite processFirmwareByte_cases.
    destruct (isAbortMarker _); [split; reflexivity|].
    rewrite parseByte_len_high by exact Hs. cbn zeta.
    change (currentLength (withByte p hi)) with (currentLength p).
    rewrite js_length_le by assumption.
    replace (currentLength p + 256 * hi >? 1000) with true
      by (symmetry; apply Z.gtb_lt; lia).
    split; reflexivity.
  - intros p Hs. cbn [map take].
    rewrite !feed_cons, !feed_nil.
    rewrite !processFirmwareByte_not_T by discriminate.
    destruct p. cbn in Hs. subst.
    repeat split; vm_compute; reflexivity.
Qed.

Lemma desync_recovery_witness :
  let p2 := feed newPrinter [0x04] in
  let p4 := feed newPrinter [0x04; 0x00; 0xD0] in
  (parserState (stateAfter (processFirmwareByte p2 0x07)) = WAIT_COMMAND) /\
  (parserState (stateAfter (processFirmwareByte p4 0x07)) = WAIT_COMMAND) /\
  (printData (feed newPrinter [0x04; 0x00; 0xD0; 0x07]) = printData newPrinter).
Proof.
  intros p2 p4.
  destruct desync_recovery as (Hcomp & Hlen & Hex).
  split; [|split].
  - rewrite (proj1 (Hcomp p2 0x07 eq_refl ltac:(discriminate)
                      ltac:(discriminate))).
    reflexivity.
  - assert (Hb : isByte (currentLength p4))
      by (vm_compute; split; [discriminate|reflexivity]).
    assert (Hh : isByte 0x07)
      by (vm_compute; split; [discriminate|reflexivity]).
    rewrite (proj1 (Hlen p4 0x07 eq_refl Hb Hh eq_refl)).
    reflexivity.
  - apply (Hex newPrinter). reflexivity.
Defined.

(** ** C10: WAIT_START is never entered *)

Lemma parserState_processPacket (p : GameBoyPrinter) :
  parserState (processPacket p) = parserState p.
Proof.
  unfold processPacket.
  repeat match goal with |- context [if ?c then _ else _] => destruct c end;
    reflexivity.
Qed.

(** The switch never assigns WAIT_START: a state that is WAIT_START after
    a byte was WAIT_START before it. *)
Lemma parseByte_WAIT_START (p : GameBoyPrinter) (b : Z) :
  parserState (stateAfter (parseByte p b)) = WAIT_START ->
  parserState p = WAIT_START.
Proof.
  unfold parseByte.
  destruct (parserState p) eqn:E; [reflexivity| | | | |];
    repeat match goal with |- context [if ?c then _ else _] => destruct c end;
    try (destruct (renderImage (printData p) p) as [q|] eqn:Er;
         [apply renderImage_Some in Er as (t & c & _ & ->)|]);
    fields; rewrite ?E; discriminate.
Qed.

Lemma processFirmwareByte_WAIT_START (p : GameBoyPrinter) (b : Z) :
  parserState (stateAfter (processFirmwareByte p b)) = WAIT_START ->
  parserState p = WAIT_START.
Proof.
  rewrite processFirmwareByte_cases.
  destruct (isAbortMarker _); [discriminate|].
  intros H. apply parseByte_WAIT_START in H. exact H.
Qed.

Lemma liveState_iff (st : ParserState) : liveState st <-> st <> WAIT_START.
Proof.
  unfold liveState. destruct st; split; intros H;
    try congruence; try tauto;
    repeat (destruct H as [H|H]; try discriminate H).
Qed.

Lemma liveState_step (p : GameBoyPrinter) (b : Z) :
  liveState (parserState p) ->
  liveState (parserState (stateAfter (processFirmwareByte p b))).
Proof.
  intros Hp. apply liveState_iff. intros H.
  apply processFirmwareByte_WAIT_START in H.
  apply liveState_iff in Hp. contradiction.
Qed.

Lemma liveState_chunkLoop (bytes : list Z) (p : GameBoyPrinter) :
  liveState (parserState p) ->
  liveState (parserState (stateAfter (chunkLoop bytes p))).
Proof.
  revert p. induction bytes as [|b bs IH]; intros p Hp; [exact Hp|].
  cbn [chunkLoop].
  pose proof (liveState_step p b Hp) as Hs.
  destruct (processFirmwareByte p b) as [q|q]; [|exact Hs].
  apply IH. exact Hs.
Qed.

Lemma liveState_readTimeout (now : Z) (p : GameBoyPrinter) :
  liveState (parserState p) ->
  liveState (parserState (readTimeout now p)).
Proof.
  intros Hp. unfold readTimeout.
  repeat match goal with |- context [if ?c then _ else _] => destruct c end;
    try exact Hp.
  left. reflexivity.
Qed.

Lemma liveState_receiveChunk (bytes : list Z) (now later : Z)
    (p : GameBoyPrinter) :
  liveState (parserState p) ->
  liveState (parserState (receiveChunk now later bytes p)).
Proof.
  intros Hp. unfold receiveChunk, tryChunk.
  destruct (0 <? length bytes)%nat; [|exact Hp].
  pose proof (liveState_chunkLoop bytes (set_lastDataTime now p) Hp) as Hs.
  destruct (chunkLoop bytes (set_lastDataTime now p)) as [q|q]; [exact Hs|].
  apply liveState_readTimeout. exact Hs.
Qed.

(** C10.  The parser starts in WAIT_COMMAND; no call of
    [processFirmwareByte], whether it returns or throws, takes a state
    other than WAIT_START to WAIT_START; hence after any sequence of bytes
    fed to the initial state, and in every reachable state (bytes, chunks
    and read timeouts in any order), the parser state is one of
    WAIT_COMMAND, WAIT_COMPRESSION, WAIT_LEN_LOW, WAIT_LEN_HIGH and
    READ_DATA. *)
Theorem wait_start_unreachable :
  parserState newPrinter = WAIT_COMMAND /\
  (forall p b, parserState p <> WAIT_START ->
               parserState (stateAfter (processFirmwareByte p b))
               <> WAIT_START) /\
  (forall bytes, liveState (parserState (feed newPrinter bytes))) /\
  (forall p, Reachable p -> liveState (parserState p)).
Proof.
  assert (Hreach : forall p, Reachable p -> liveState (parserState p)).
  { induction 1.
    - left. reflexivity.
    - now apply liveState_step.
    - now apply liveState_receiveChunk.
    - now apply liveState_readTimeout. }
  split; [reflexivity|]. split; [|split].
  - intros p b Hp H. apply processFirmwareByte_WAIT_START in H. contradiction.
  - intros bytes. apply Hreach. apply Reachable_feed. constructor.
  - exact Hreach.
Qed.

Lemma wait_start_unreachable_witness :
  parserState newPrinter <> WAIT_START /\
  parserState (stateAfter (processFirmwareByte newPrinter 0x04))
  <> WAIT_START /\
  Reachable
    (readTimeout 5000 (receiveChunk 1000 1001 [0x04; 0x00] newPrinter)) /\
  liveState
    (parserState
       (readTimeout 5000 (receiveChunk 1000 1001 [0x04; 0x00] newPrinter))).
Proof.
  destruct wait_start_unreachable as (_ & Hstep & _ & Hreach).
  assert (Hr : Reachable
                 (readTimeout 5000
                    (receiveChunk 1000 1001 [0x04; 0x00] newPrinter)))
    by (apply reach_timeout, reach_chunk, reach_new).
  split; [discriminate|]. split; [|split].
  - apply (Hstep newPrinter 0x04). discriminate.
  - exact Hr.
  - apply (Hreach _ Hr).
Defined.

(** ** decompressRLE: the loop seen on the remaining input *)

(** The literal loop in closed form: it copies the next [count] bytes,
    or as many as are left. *)
Lemma literalRun_spec (data : list Z) (count i : nat) (result : list Z) :
  literalRun data count i result =
  ((i + min count (length data - i))%nat, result ++ take count (drop i data)).
Proof.
  revert i result. induction count as [|n IH]; intros i result.
  - simpl. rewrite Nat.add_0_r, app_nil_r. reflexivity.
  - cbn [literalRun]. destruct (data !! i) as [b|] eqn:Hb.
    + rewrite IH. rewrite (drop_S _ _ _ Hb). cbn [take].
      apply lookup_lt_Some in Hb.
      rewrite <- app_assoc. cbn [app]. f_equal. lia.
    + apply lookup_ge_None in Hb.
      rewrite drop_ge by exact Hb.
      rewrite app_nil_r. f_equal. lia.
Qed.

Lemma lookup_shift (done rest : list Z) (i : nat) :
  (done ++ rest) !! (length done + i)%nat = rest !! i.
Proof.
  rewrite lookup_app_r by lia. f_equal. lia.
Qed.

(** The result accumulates: what was pushed so far stays in front. *)
Lemma rleLoop_acc (fuel : nat) (data : list Z) (i : nat) (result : list Z) :
  rleLoop fuel data i result = result ++ rleLoop fuel data i [].
Proof.
  revert i result. induction fuel as [|fuel IH]; intros i result.
  - simpl. rewrite app_nil_r. reflexivity.
  - cbn [rleLoop]. destruct (data !! i) as [control|].
    + destruct (JS.truthy (JS.and control 128)).
      * cbn zeta. rewrite (IH _ (result ++ _)), (IH _ ([] ++ _)).
        rewrite app_nil_l, app_assoc. reflexivity.
      * cbn zeta. rewrite !literalRun_spec.
        rewrite (IH _ (result ++ _)), (IH _ ([] ++ _)).
        rewrite app_nil_l, app_assoc. reflexivity.
    + rewrite app_nil_r. reflexivity.
Qed.

(** The loop only looks at the input from the cursor on. *)
Lemma rleLoop_shift (fuel : nat) (done rest : list Z) (i : nat)
    (result : list Z) :
  rleLoop fuel (done ++ rest) (length done + i) result =
  result ++ rleLoop fuel rest i [].
Proof.
  revert i result. induction fuel as [|fuel IH]; intros i result.
  - simpl. rewrite app_nil_r. reflexivity.
  - cbn [rleLoop]. rewrite lookup_shift.
    destruct (rest !! i) as [control|]; [|rewrite app_nil_r; reflexivity].
    destruct (JS.truthy (JS.and control 128)); cbn zeta.
    + replace (S (length done + i)) with (length done + S i)%nat by lia.
      rewrite lookup_shift.
      replace (S (length done + S i)) with (length done + S (S i))%nat by lia.
      rewrite IH. rewrite (rleLoop_acc _ _ _ ([] ++ _)).
      rewrite app_nil_l, app_assoc. reflexivity.
    + rewrite !literalRun_spec.
      replace (S (length done + i)) with (length done + S i)%nat by lia.
      rewrite drop_app_add.
      replace (length done + S i + min (Z.to_nat (control + 1))
                 (length (done ++ rest) - (length done + S i)))%nat
        with (length done + (S i + min (Z.to_nat (control + 1))
                               (length rest - S i)))%nat
        by (rewrite length_app; lia).
      rewrite IH. rewrite (rleLoop_acc _ _ _ ([] ++ _)).
      rewrite app_nil_l, app_assoc. reflexivity.
Qed.

(** Termination: the cursor advances in every round, so any fuel that
    covers the bytes left gives the same result; with it the loop has run
    to the end of the input. *)
Lemma rleLoop_fuel (fuel1 fuel2 : nat) (data : list Z) (i : nat)
    (result : list Z) :
  (length data - i <= fuel1)%nat -> (length data - i <= fuel2)%nat ->
  rleLoop fuel1 data i result = rleLoop fuel2 data i result.
Proof.
  revert fuel2 i result.
  induction fuel1 as [|fuel1 IH]; intros fuel2 i result H1 H2.
  - assert (Hn : data !! i = None) by (apply lookup_ge_None; lia).
    destruct fuel2; cbn [rleLoop]; [reflexivity|]. rewrite Hn. reflexivity.
  - destruct fuel2 as [|fuel2].
    + assert (Hn : data !! i = None) by (apply lookup_ge_None; lia).
      cbn [rleLoop]. rewrite Hn. reflexivity.
    + cbn [rleLoop]. destruct (data !! i) as [control|] eqn:Hc; [|reflexivity].
      apply lookup_lt_Some in Hc.
      destruct (JS.truthy (JS.and control 128)); cbn zeta.
      * apply IH; lia.
      * rewrite literalRun_spec. apply IH; lia.
Qed.

(** One round of the loop, on the input as a list: the control byte and
    what follows it. *)
Lemma decompressRLE_cons (control : Z) (rest : list Z) :
  decompressRLE (control :: rest) =
  if JS.truthy (JS.and control 0x80) then
    replicate (Z.to_nat (JS.and control 0x7F + 2)) (JS.orZero (rest !! 0%nat))
      ++ decompressRLE (drop 1 rest)
  else
    take (Z.to_nat (control + 1)) rest
      ++ decompressRLE (drop (Z.to_nat (control + 1)) rest).
Proof.
  unfold decompressRLE. cbn [length rleLoop lookup list_lookup].
  destruct (JS.truthy (JS.and control 128)); cbn zeta.
  - destruct rest as [|v rest'].
    + cbn. rewrite app_nil_r. reflexivity.
    + change (control :: v :: rest') with ([control; v] ++ rest').
      change 2%nat with (length [control; v] + 0)%nat.
      rewrite rleLoop_shift. f_equal.
      apply rleLoop_fuel; simpl; rewrite ?drop_0; lia.
  - rewrite literalRun_spec.
    change (drop 1 (control :: rest)) with rest. rewrite app_nil_l.
    replace (length (control :: rest) - 1)%nat with (length rest)
      by (cbn [length]; lia).
    set (n := Z.to_nat (control + 1)).
    pose proof (rleLoop_shift (length rest) (control :: take n rest)
                  (drop n rest) 0 (take n rest)) as H.
    rewrite <- app_comm_cons, take_drop in H.
    cbn [length] in H. rewrite length_take, Nat.add_0_r in H.
    change (1 + n `min` length rest)%nat with (S (n `min` length rest)).
    rewrite H. f_equal.
    apply rleLoop_fuel; rewrite ?length_drop; lia.
Qed.

Lemma decompressRLE_nil : decompressRLE [] = [].
Proof. reflexivity. Qed.

(** Well-formed input in front of any input: the output of the first
    followed by the output of the second. *)
Lemma decompressRLE_app (pre out rest : list Z) :
  RleScheme pre out ->
  decompressRLE (pre ++ rest) = out ++ decompressRLE rest.
Proof.
  induction 1 as [|c v pre' out' Hc Hv Hhigh _ IH
                  |c lits pre' out' Hc Hlow Hlen _ IH].
  - reflexivity.
  - cbn [app]. rewrite decompressRLE_cons.
    rewrite js_highbit, Hhigh by assumption.
    rewrite js_and_byte by (assumption || lia).
    change ((v :: pre' ++ rest) !! 0%nat) with (Some v).
    change (drop 1 (v :: pre' ++ rest)) with (pre' ++ rest).
    rewrite js_orZero_some, IH.
    rewrite <- app_assoc. reflexivity.
  - cbn [app]. rewrite <- app_assoc. rewrite decompressRLE_cons.
    rewrite js_highbit, Hlow by assumption.
    rewrite take_app_length', drop_app_length' by (symmetry; exact Hlen).
    rewrite IH, <- app_assoc. reflexivity.
Qed.

(** ** C6: the run-length scheme *)

(** C6.  [decompressRLE] computes the run-length scheme of the
    specification: on every input that the scheme reads to its end
    (control byte with the high bit set, then one value byte, repeated
    [(c & 0x7F) + 2] times; any other control byte [c], then [c + 1] bytes
    copied as they are) the function returns the output of the scheme.
    In particular 02 AA BB CC gives AA BB CC and 83 7F gives 7F five
    times. *)
Theorem decompressRLE_scheme :
  (forall data out, RleScheme data out -> decompressRLE data = out) /\
  decompressRLE [0x02; 0xAA; 0xBB; 0xCC] = [0xAA; 0xBB; 0xCC] /\
  decompressRLE [0x83; 0x7F] = replicate 5 0x7F.
Proof.
  split; [|split; reflexivity].
  intros data out H.
  pose proof (decompressRLE_app data out [] H) as Happ.
  rewrite decompressRLE_nil, !app_nil_r in Happ. exact Happ.
Qed.

Lemma decompressRLE_scheme_witness :
  RleScheme [0x83; 0x7F; 0x02; 0xAA; 0xBB; 0xCC]
            (replicate 5 0x7F ++ [0xAA; 0xBB; 0xCC] ++ []) /\
  decompressRLE [0x83; 0x7F; 0x02; 0xAA; 0xBB; 0xCC] =
  replicate 5 0x7F ++ [0xAA; 0xBB; 0xCC] ++ [].
Proof.
  assert (H : RleScheme [0x83; 0x7F; 0x02; 0xAA; 0xBB; 0xCC]
                (replicate 5 0x7F ++ [0xAA; 0xBB; 0xCC] ++ [])).
  { apply (RleRepeat 0x83 0x7F [0x02; 0xAA; 0xBB; 0xCC]
             ([0xAA; 0xBB; 0xCC] ++ []));
      [unfold isByte; lia | unfold isByte; lia | reflexivity |].
    apply (RleLiteral 0x02 [0xAA; 0xBB; 0xCC] [] []);
      [unfold isByte; lia | reflexivity | reflexivity | apply RleEnd]. }
  split; [exact H|].
  apply (proj1 decompressRLE_scheme _ _ H).
Defined.

(** ** C2: input that ends inside a run *)

(** C2, as stated, fails: a repeat control byte at the very end of the
    input does not emit nothing.  The value byte that is missing reads as
    [undefined], [|| 0] turns it into 0, and the run is emitted in full:
    the input 83 alone gives five zero bytes. *)
Lemma truncated_repeat_counterexample :
  decompressRLE [0x83] = [0; 0; 0; 0; 0] /\ decompressRLE [0x83] <> [].
Proof. split; [reflexivity|discriminate]. Qed.

(** C2, amended.  After any well-formed input [pre] with output [out]:
    a repeat control byte [c] that is the last byte of the input emits
    [(c & 0x7F) + 2] zero bytes (the missing value byte counts as 0); a
    literal control byte [c] followed by fewer than [c + 1] bytes copies
    the bytes that are there and stops.  [decompressRLE] is a total
    function: it returns in both cases. *)
Theorem decompressRLE_truncated (pre out : list Z) :
  RleScheme pre out ->
  (forall c, isByte c -> Z.testbit c 7 = true ->
     decompressRLE (pre ++ [c]) =
     out ++ replicate (Z.to_nat (Z.land c 0x7F + 2)) 0) /\
  (forall c lits, isByte c -> Z.testbit c 7 = false ->
     (length lits < Z.to_nat (c + 1))%nat ->
     decompressRLE (pre ++ c :: lits) = out ++ lits).
Proof.
  intros Hpre. split.
  - intros c Hc Hhigh.
    rewrite (decompressRLE_app pre out _ Hpre). f_equal.
    rewrite decompressRLE_cons.
    rewrite js_highbit, Hhigh by assumption.
    rewrite js_and_byte by (assumption || lia).
    cbn. rewrite app_nil_r. reflexivity.
  - intros c lits Hc Hlow Hlen.
    rewrite (decompressRLE_app pre out _ Hpre). f_equal.
    rewrite decompressRLE_cons.
    rewrite js_highbit, Hlow by assumption.
    rewrite take_ge, drop_ge by lia.
    rewrite decompressRLE_nil, app_nil_r. reflexivity.
Qed.

Lemma decompressRLE_truncated_witness :
  RleScheme [0x83; 0x7F] (replicate 5 0x7F ++ []) /\
  decompressRLE ([0x83; 0x7F] ++ [0x81]) =
    (replicate 5 0x7F ++ []) ++ replicate 3 0 /\
  decompressRLE ([0x83; 0x7F] ++ [0x05; 0xAA; 0xBB]) =
    (replicate 5 0x7F ++ []) ++ [0xAA; 0xBB].
Proof.
  assert (H : RleScheme [0x83; 0x7F] (replicate 5 0x7F ++ [])).
  { apply (RleRepeat 0x83 0x7F [] []);
      [unfold isByte; lia | unfold isByte; lia | reflexivity | apply RleEnd]. }
  destruct (decompressRLE_truncated _ _ H) as [Hrep Hlit].
  split; [exact H|]. split.
  - apply (Hrep 0x81); [unfold isByte; lia | reflexivity].
  - apply (Hlit 0x05 [0xAA; 0xBB]); [unfold isByte; lia | reflexivity | simpl; lia].
Defined.

(** ** The window while a payload goes by *)

Lemma pushRecent_suffix (w : list Z) (b : Z) :
  exists u, u ++ pushRecent w b = w ++ [b].
Proof.
  unfold pushRecent. destruct (10 <? length (w ++ [b]))%nat.
  - destruct (w ++ [b]) as [|x t].
    + exists []. reflexivity.
    + exists [x]. reflexivity.
  - exists []. reflexivity.
Qed.

(** If the marker [m] ends a history made of anything, then a byte [h],
    then the bytes [c], either it lies within [c] or it contains [h]. *)
Lemma marker_suffix_split (m : list Z) :
  forall (u j c : list Z) (h : Z),
    u ++ m = j ++ h :: c -> (exists x, c = x ++ m) \/ In h m.
Proof.
  induction m as [|z m' IH] using rev_ind; intros u j c h H.
  - left. exists c. rewrite app_nil_r. reflexivity.
  - destruct c as [|y c' _] using rev_ind.
    + right. rewrite app_assoc in H.
      change (j ++ [h]) with (j ++ [h]) in H.
      apply app_inj_tail in H as [_ ->].
      apply in_or_app. right. left. reflexivity.
    + rewrite app_assoc in H.
      change (j ++ h :: c' ++ [y]) with (j ++ (h :: c') ++ [y]) in H.
      rewrite (app_assoc j) in H.
      apply app_inj_tail in H as [H ->].
      destruct (IH _ _ _ _ H) as [[x ->]|Hin].
      * left. exists x. rewrite app_assoc. reflexivity.
      * right. apply in_or_app. left. exact Hin.
Qed.

Lemma prefixb_app (m r : list Z) : prefixb m (m ++ r) = true.
Proof.
  induction m as [|a m IH]; [reflexivity|].
  cbn. rewrite Z.eqb_refl. exact IH.
Qed.

Lemma occursIn_app (x m r : list Z) : occursIn m (x ++ m ++ r) = true.
Proof.
  induction x as [|a x IH].
  - cbn [app]. destruct (m ++ r) eqn:E; cbn [occursIn]; rewrite <- ?E;
      rewrite prefixb_app; reflexivity.
  - cbn [app occursIn]. rewrite IH. apply orb_true_r.
Qed.

(** A payload in which the marker does not occur keeps the window quiet,
    when the byte in front of the payload is not a byte of the marker. *)
Lemma quiet_clean (rest : list Z) :
  forall (consumed w junk : list Z) (h : Z),
    (exists u, u ++ w = junk ++ h :: consumed) ->
    ~ In h abortMarker ->
    occursIn abortMarker (consumed ++ rest) = false ->
    quiet w rest = true.
Proof.
  induction rest as [|b rest IH]; intros consumed w junk h [u Hu] Hh Hocc.
  - reflexivity.
  - cbn [quiet].
    destruct (pushRecent_suffix w b) as [u' Hu'].
    assert (Hhist : (u ++ u') ++ pushRecent w b
                    = junk ++ h :: (consumed ++ [b])).
    { rewrite <- app_assoc, Hu', app_assoc, Hu.
      rewrite <- app_assoc. reflexivity. }
    assert (Hocc' : occursIn abortMarker ((consumed ++ [b]) ++ rest) = false).
    { rewrite <- app_assoc. exact Hocc. }
    apply andb_true_intro. split.
    + destruct (isAbortMarker (pushRecent w b)) eqn:Hab; [|reflexivity].
      apply isAbortMarker_eq in Hab. rewrite Hab in Hhist.
      destruct (marker_suffix_split _ _ _ _ _ Hhist) as [[x Hx]|Hin].
      * rewrite Hx, <- app_assoc, occursIn_app in Hocc'. discriminate.
      * contradiction.
    + apply (IH (consumed ++ [b]) _ junk h); eauto.
Qed.

(** ** An Init packet from WAIT_COMMAND *)

(** The payload of an Init packet is read to its end and the packet is
    dispatched, if the abort does not fire on the way. *)
Lemma read_payload_init (payload : list Z) :
  forall p,
    parserState p = READ_DATA ->
    currentCommand p = INIT ->
    printData p = [] ->
    currentLength p - currentDataIndex p = Z.of_nat (length payload) ->
    payload <> [] ->
    quiet (recentBytes p) payload = true ->
    resetState (feed p payload).
Proof.
  induction payload as [|b rest IH]; intros p Hs Hc Hd Hlen Hne Hq;
    [congruence|].
  cbn [quiet] in Hq. apply andb_prop in Hq as [Hq1 Hq2].
  apply negb_true_iff in Hq1.
  rewrite feed_cons, processFirmwareByte_quiet by assumption.
  rewrite parseByte_read_data by exact Hs. cbn zeta. fields.
  cbn [length] in Hlen.
  destruct rest as [|b' rest'].
  - replace (currentDataIndex p + 1 >=? currentLength p) with true
      by (symmetry; apply Z.geb_le; cbn [length] in Hlen; lia).
    rewrite feed_nil, processPacket_init by exact Hc.
    split; reflexivity.
  - replace (currentDataIndex p + 1 >=? currentLength p) with false
      by (symmetry; rewrite Z.geb_leb; apply Z.leb_gt;
          cbn [length] in Hlen; lia).
    apply IH; fields; try assumption; try discriminate.
    cbn [length] in *. lia.
Qed.

(** The state after the command byte, the compression byte and the low
    length byte of an Init packet. *)
Lemma feed_init_header (p : GameBoyPrinter) (c lo : Z) :
  parserState p = WAIT_COMMAND -> c = 0 \/ c = 1 ->
  let p3 := feed p [INIT; c; lo] in
  parserState p3 = WAIT_LEN_HIGH /\ currentCommand p3 = INIT /\
  printData p3 = [] /\ currentLength p3 = lo.
Proof.
  intros Hs Hc p3. subst p3. rewrite !feed_cons, feed_nil.
  set (p1 := stateAfter (processFirmwareByte p INIT)).
  assert (Hp1 : p1 = stateAfter (parseByte (withByte p INIT) INIT))
    by (subst p1; rewrite processFirmwareByte_not_T by discriminate;
        reflexivity).
  rewrite parseByte_command_init in Hp1 by exact Hs.
  cbn [stateAfter] in Hp1.
  set (p2 := stateAfter (processFirmwareByte p1 c)).
  assert (Hp2 : p2 = stateAfter (parseByte (withByte p1 c) c))
    by (subst p2; rewrite processFirmwareByte_not_T
          by (destruct Hc; subst; discriminate); reflexivity).
  rewrite parseByte_compression_ok in Hp2
    by (try assumption; rewrite Hp1; reflexivity).
  cbn [stateAfter] in Hp2.
  assert (Hq3 : isAbortMarker (pushRecent (recentBytes p2) lo) = false).
  { destruct (isAbortMarker _) eqn:Hab; [|reflexivity].
    rewrite Hp2 in Hab. fields.
    apply abort_last_two in Hab. destruct Hc; subst; discriminate. }
  rewrite processFirmwareByte_quiet by exact Hq3.
  rewrite parseByte_len_low by (rewrite Hp2; reflexivity).
  fields. rewrite Hp2. fields. rewrite Hp1. fields.
  repeat split; reflexivity.
Qed.

Lemma init_packet_resets (p : GameBoyPrinter) (c lo hi : Z) (payload : list Z) :
  parserState p = WAIT_COMMAND ->
  c = 0 \/ c = 1 -> isByte lo -> isByte hi ->
  lo + 256 * hi <= 1000 ->
  Z.of_nat (length payload) = lo + 256 * hi ->
  occursIn abortMarker payload = false ->
  resetState (feed p (packetBytes INIT c lo hi payload)).
Proof.
  intros Hs Hc Hlo Hhi Hmax Hlen Hocc. unfold packetBytes.
  change (INIT :: c :: lo :: hi :: payload)
    with ([INIT; c; lo] ++ hi :: payload).
  rewrite feed_app.
  destruct (feed_init_header p c lo Hs Hc) as (Hs3 & Hc3 & Hd3 & Hl3).
  set (p3 := feed p [INIT; c; lo]) in *.
  assert (Hhi3 : hi <= 3) by (unfold isByte in *; lia).
  assert (Hq4 : isAbortMarker (pushRecent (recentBytes p3) hi) = false).
  { destruct (isAbortMarker _) eqn:Hab; [|reflexivity].
    apply abort_last_byte in Hab. lia. }
  rewrite feed_cons, processFirmwareByte_quiet by exact Hq4.
  rewrite parseByte_len_high by exact Hs3. cbn zeta. fold (withByte p3 hi).
  change (currentLength (withByte p3 hi)) with (currentLength p3).
  rewrite Hl3, js_length_le by assumption.
  replace (lo + 256 * hi >? 1000) with false
    by (symmetry; rewrite Z.gtb_ltb; apply Z.ltb_ge; lia).
  destruct (lo + 256 * hi >? 0) eqn:Hpos.
  - apply Z.gtb_lt in Hpos.
    apply read_payload_init; fields; try assumption; try reflexivity.
    + lia.
    + intros ->. cbn [length] in Hlen. lia.
    + destruct (pushRecent_snoc (recentBytes p3) hi) as [u Hu].
      apply (quiet_clean payload [] _ u hi).
      * exists []. rewrite Hu. reflexivity.
      * cbn. unfold isByte in Hhi. lia.
      * exact Hocc.
  - rewrite Z.gtb_ltb in Hpos. apply Z.ltb_ge in Hpos.
    assert (Hnil : payload = []) by (destruct payload; [reflexivity|cbn [length] in Hlen; lia]).
    subst payload. rewrite feed_nil.
    rewrite processPacket_init by exact Hc3.
    split; reflexivity.
Qed.

(** ** C1: the triggers of a reset *)

(** C1, as stated, fails: outside WAIT_COMMAND the byte FF and the bytes
    of an Init packet are bytes of the packet being read, and a read
    timeout does nothing while the print buffer is empty.  With one Data
    packet received (print buffer 11) and a second one announced with nine
    payload bytes, the parser is in READ_DATA; the byte FF, or the four
    bytes of an empty Init packet, leave it in READ_DATA with the print
    buffer still 11.  In READ_DATA with an empty print buffer, a read
    timeout long after the last data leaves the parser in READ_DATA.  And
    even from WAIT_COMMAND, an Init packet whose payload spells ABORTPRINT
    is cut short by the abort: the rest of its payload is parsed as
    packets, here a Data packet that leaves 11 in the print buffer. *)
Lemma reset_from_any_state_counterexample :
  let p := feed newPrinter
             [0x04; 0x00; 0x01; 0x00; 0x11; 0x04; 0x00; 0x09; 0x00] in
  let p' := receiveChunk 1000 1001 [0x04; 0x00; 0x03; 0x00] newPrinter in
  (parserState p = READ_DATA /\ printData p = [0x11]) /\
  ~ resetState (stateAfter (processFirmwareByte p 0xFF)) /\
  ~ resetState (feed p (packetBytes INIT 0 0 0 [])) /\
  (parserState p' = READ_DATA /\ printData p' = [] /\ lastDataTime p' = 1000) /\
  ~ resetState (readTimeout 100000 p') /\
  ~ resetState
      (feed newPrinter
         (packetBytes INIT 0 0x0F 0x00
            (abortMarker ++ [0x04; 0x00; 0x01; 0x00; 0x11]))).
Proof.
  cbv zeta. unfold resetState.
  split; [split; vm_compute; reflexivity|].
  split; [intros [H _]; vm_compute in H; discriminate H|].
  split; [intros [H _]; vm_compute in H; discriminate H|].
  split; [repeat split; vm_compute; reflexivity|].
  split; [intros [H _]; vm_compute in H; discriminate H|].
  intros [_ H]; vm_compute in H; discriminate H.
Qed.

(** C1, amended.  Each trigger ends in WAIT_COMMAND with an empty print
    buffer where the code acts on it:
    - the ten bytes of ABORTPRINT, from every state (the window holding at
      most ten bytes, as in every reachable state);
    - the stream-start byte FF, from WAIT_COMMAND;
    - a complete Init packet (command 01, compression 0 or 1, a length of
      at most 1000 low byte first, and as many payload bytes, among which
      ABORTPRINT does not occur), from WAIT_COMMAND;
    - a read timeout more than 2000 ms after the last data, when the print
      buffer is not empty and data was received at a positive time. *)
Theorem reset_triggers (p : GameBoyPrinter) :
  ((length (recentBytes p) <= 10)%nat -> resetState (feed p abortMarker)) /\
  (parserState p = WAIT_COMMAND ->
   resetState (stateAfter (processFirmwareByte p 0xFF))) /\
  (parserState p = WAIT_COMMAND ->
   forall c lo hi payload,
     c = 0 \/ c = 1 -> isByte lo -> isByte hi ->
     lo + 256 * hi <= 1000 ->
     Z.of_nat (length payload) = lo + 256 * hi ->
     occursIn abortMarker payload = false ->
     resetState (feed p (packetBytes INIT c lo hi payload))) /\
  (forall now,
     (0 < length (printData p))%nat -> lastDataTime p > 0 ->
     now - lastDataTime p > PRINT_TIMEOUT_MS ->
     resetState (readTimeout now p)).
Proof.
  split; [|split; [|split]].
  - intros Hw. destruct (feed_abortMarker p Hw) as (Hd & _ & _ & Hs).
    split; assumption.
  - intros Hs. rewrite processFirmwareByte_not_T by discriminate.
    rewrite parseByte_start_marker by exact Hs.
    split; [exact Hs|reflexivity].
  - intros Hs c lo hi payload Hc Hlo Hhi Hmax Hlen Hocc.
    now apply init_packet_resets.
  - intros now Hd Ht Hnow. unfold readTimeout.
    replace (0 <? length (printData p))%nat with true
      by (symmetry; apply Nat.ltb_lt; exact Hd).
    replace (lastDataTime p >? 0) with true
      by (symmetry; apply Z.gtb_lt; lia).
    cbn [andb].
    replace (now - lastDataTime p >? PRINT_TIMEOUT_MS) with true
      by (symmetry; apply Z.gtb_lt; lia).
    split; reflexivity.
Qed.

Lemma reset_triggers_witness :
  let p := feed newPrinter [0x04; 0x00; 0x01; 0x00; 0x11] in
  let q := receiveChunk 1000 1001 [0x04; 0x00; 0x01; 0x00; 0x11; 0x04; 0x00]
             newPrinter in
  ((length (recentBytes p) <= 10)%nat /\ parserState p = WAIT_COMMAND /\
   printData p = [0x11]) /\
  ((0 < length (printData q))%nat /\ lastDataTime q > 0 /\
   3001 - lastDataTime q > PRINT_TIMEOUT_MS /\ parserState q = WAIT_LEN_LOW) /\
  resetState (feed p abortMarker) /\
  resetState (stateAfter (processFirmwareByte p 0xFF)) /\
  resetState (feed p (packetBytes INIT 0 0x02 0x00 [0xAA; 0xBB])) /\
  resetState (readTimeout 3001 q).
Proof.
  intros p q.
  assert (Hp : (length (recentBytes p) <= 10)%nat /\
               parserState p = WAIT_COMMAND /\ printData p = [0x11]).
  { vm_compute. repeat split; try reflexivity. lia. }
  assert (Hq : (0 < length (printData q))%nat /\ lastDataTime q > 0 /\
               3001 - lastDataTime q > PRINT_TIMEOUT_MS /\
               parserState q = WAIT_LEN_LOW).
  { vm_compute. repeat split; try reflexivity; lia. }
  destruct Hp as (Hw & Hs & Hd). destruct Hq as (Hq1 & Hq2 & Hq3 & Hq4).
  destruct (reset_triggers p) as (Habort & Hstart & Hinit & _).
  destruct (reset_triggers q) as (_ & _ & _ & Htimeout).
  split; [repeat split; assumption|].
  split; [repeat split; assumption|].
  split; [exact (Habort Hw)|].
  split; [exact (Hstart Hs)|].
  split.
  - apply (Hinit Hs 0 0x02 0x00 [0xAA; 0xBB]);
      [left; reflexivity | unfold isByte; lia | unfold isByte; lia
      | lia | reflexivity | reflexivity].
  - exact (Htimeout 3001 Hq1 Hq2 Hq3).
Defined.

(** ** Bits of a tile byte *)

Lemma js_bit (b bit : Z) :
  isByte b -> 0 <= bit < 8 ->
  JS.and (JS.shr b bit) 1 = Z.b2z (Z.testbit b bit).
Proof.
  intros Hb Hbit. unfold isByte in Hb. unfold JS.shr.
  assert (H31 : Z.land bit 31 = bit).
  { change 31 with (Z.ones 5). rewrite Z.land_ones by lia.
    apply Z.mod_small. change (2 ^ 5) with 32. lia. }
  rewrite H31, (toInt32_small b) by lia.
  assert (Hsh : 0 <= Z.shiftr b bit < 256).
  { rewrite Z.shiftr_div_pow2 by lia. split.
    - apply Z.div_pos; [lia|]. apply Z.pow_pos_nonneg; lia.
    - apply Z.div_lt_upper_bound; [apply Z.pow_pos_nonneg; lia|].
      pose proof (Z.pow_pos_nonneg 2 bit ltac:(lia) ltac:(lia)). nia. }
  rewrite (toInt32_small (Z.shiftr b bit)) by lia.
  rewrite js_and_byte by (unfold isByte; lia).
  change 1 with (Z.ones 1) at 1. rewrite Z.land_ones by lia.
  change (2 ^ 1) with 2. rewrite <- Z.bit0_mod.
  rewrite Z.shiftr_spec by lia. reflexivity.
Qed.

(** The colour index is the bit of the first byte, plus twice the bit of
    the second, at position [7 - col]. *)
Lemma colorIndex_bits (byte1 byte2 : Z) (col : nat) :
  isByte byte1 -> isByte byte2 -> (col < 8)%nat ->
  colorIndex byte1 byte2 col =
  Z.lor (Z.b2z (Z.testbit byte1 (7 - Z.of_nat col)))
        (Z.shiftl (Z.b2z (Z.testbit byte2 (7 - Z.of_nat col))) 1).
Proof.
  intros H1 H2 Hcol. unfold colorIndex. cbn zeta.
  rewrite !js_bit by (assumption || lia).
  destruct (Z.testbit byte1 _), (Z.testbit byte2 _); reflexivity.
Qed.

(** ** Writes of decodeTile *)

Lemma putPixel_length (pixels : list Z) (o : nat) (color : list Z) :
  length (putPixel pixels o color) = length pixels.
Proof. unfold putPixel. rewrite !length_insert. reflexivity. Qed.

Lemma putPixel_other (pixels : list Z) (o q : nat) (color : list Z) :
  (q < o \/ o + 4 <= q)%nat -> putPixel pixels o color !! q = pixels !! q.
Proof.
  intros Hq. unfold putPixel.
  rewrite !list_lookup_insert_ne by lia. reflexivity.
Qed.

Lemma putPixel_rgba (pixels : list Z) (o : nat) (color : list Z) :
  (o + 4 <= length pixels)%nat ->
  rgbaAt (putPixel pixels o color) o =
  [Some (default 0 (color !! 0%nat)); Some (default 0 (color !! 1%nat));
   Some (default 0 (color !! 2%nat)); Some 255].
Proof.
  intros Hlen. unfold rgbaAt, putPixel.
  repeat f_equal.
  - rewrite !list_lookup_insert_ne by lia.
    apply list_lookup_insert_eq. lia.
  - rewrite !list_lookup_insert_ne by lia.
    apply list_lookup_insert_eq. rewrite !length_insert. lia.
  - rewrite !list_lookup_insert_ne by lia.
    apply list_lookup_insert_eq. rewrite !length_insert. lia.
  - apply list_lookup_insert_eq. rewrite !length_insert. lia.
Qed.

(** Loops that write into the pixel buffer: what a round does not touch
    is not touched by the loop, and the buffer keeps its length. *)
Section WriteLoop.

Context {A : Type}.
Variable f : list Z -> A -> list Z.
Variable touched : A -> nat -> Prop.
Hypothesis f_other :
  forall px a q, ~ touched a q -> f px a !! q = px !! q.
Hypothesis f_length : forall px a, length (f px a) = length px.

Lemma foldl_other (l : list A) (px : list Z) (q : nat) :
  (forall a, In a l -> ~ touched a q) -> foldl f px l !! q = px !! q.
Proof using f_other.
  revert px. induction l as [|a l IH]; intros px Hl; [reflexivity|].
  cbn [foldl]. rewrite IH.
  - apply f_other. apply Hl. left. reflexivity.
  - intros a' Ha'. apply Hl. right. exact Ha'.
Qed.

Lemma foldl_length (l : list A) (px : list Z) :
  length (foldl f px l) = length px.
Proof using f_length.
  revert px. induction l as [|a l IH]; intros px; [reflexivity|].
  cbn [foldl]. rewrite IH. apply f_length.
Qed.

End WriteLoop.

Lemma rgbaAt_frame (a b : list Z) (o : nat) :
  (forall q, (o <= q < o + 4)%nat -> a !! q = b !! q) ->
  rgbaAt a o = rgbaAt b o.
Proof.
  intros H. unfold rgbaAt. rewrite !H by lia. reflexivity.
Qed.

Lemma seq_split_at (n i : nat) :
  (i < n)%nat -> seq 0 n = seq 0 i ++ i :: seq (S i) (n - S i).
Proof.
  intros Hi. replace n with (i + S (n - S i))%nat at 1 by lia.
  rewrite seq_app. reflexivity.
Qed.

Lemma decodePixel_other (b1 b2 : Z) (W sx sy row : nat) (px : list Z)
    (col q : nat) :
  ~ colTouched W sx sy row col q ->
  decodePixel b1 b2 W sx sy row px col !! q = px !! q.
Proof.
  unfold colTouched, pixelOffset, decodePixel. intros H.
  apply putPixel_other. lia.
Qed.

Lemma decodePixel_length (b1 b2 : Z) (W sx sy row : nat) (px : list Z)
    (col : nat) :
  length (decodePixel b1 b2 W sx sy row px col) = length px.
Proof. apply putPixel_length. Qed.

Lemma decodeTileRow_length (data : list Z) (off W sx sy : nat) (px : list Z)
    (row : nat) :
  length (decodeTileRow data off W sx sy px row) = length px.
Proof.
  unfold decodeTileRow. apply foldl_length. intros. apply decodePixel_length.
Qed.

Lemma decodeTileRow_other (data : list Z) (off W sx sy : nat) (px : list Z)
    (row q : nat) :
  ~ rowTouched W sx sy row q ->
  decodeTileRow data off W sx sy px row !! q = px !! q.
Proof.
  intros H. unfold decodeTileRow.
  apply (foldl_other _ (colTouched W sx sy row)).
  - intros. now apply decodePixel_other.
  - intros col Hcol. apply in_seq in Hcol.
    unfold rowTouched, colTouched, pixelOffset in *. lia.
Qed.

(** One row of the tile: the pixel of each column holds the palette
    colour of its colour index, with full opacity. *)
Lemma decodeTileRow_rgba (data : list Z) (off W sx sy : nat) (px : list Z)
    (row col : nat) :
  (col < 8)%nat ->
  (pixelOffset W sx sy row 8 <= length px)%nat ->
  let byte1 := JS.orZero (data !! (off + row * 2)%nat) in
  let byte2 := JS.orZero (data !! (off + row * 2 + 1)%nat) in
  let color := paletteColor (colorIndex byte1 byte2 col) in
  rgbaAt (decodeTileRow data off W sx sy px row) (pixelOffset W sx sy row col) =
  [Some (default 0 (color !! 0%nat)); Some (default 0 (color !! 1%nat));
   Some (default 0 (color !! 2%nat)); Some 255].
Proof.
  intros Hcol Hlen byte1 byte2 color. unfold decodeTileRow.
  fold byte1 byte2.
  rewrite (seq_split_at 8 col Hcol).
  rewrite foldl_app. cbn [foldl].
  set (pre := foldl _ px (seq 0 col)).
  assert (Hpre : length pre = length px).
  { apply foldl_length. intros. apply decodePixel_length. }
  rewrite (rgbaAt_frame _ (decodePixel byte1 byte2 W sx sy row pre col)).
  - unfold decodePixel. fold (pixelOffset W sx sy row col). fold color.
    apply putPixel_rgba. rewrite Hpre.
    unfold pixelOffset in *. lia.
  - intros q Hq.
    apply (foldl_other _ (colTouched W sx sy row)).
    + intros. now apply decodePixel_other.
    + intros col' Hcol'. apply in_seq in Hcol'.
      unfold colTouched, pixelOffset in *. lia.
Qed.

Lemma decodeTile_length (data : list Z) (off : nat) (px : list Z)
    (W sx sy : nat) :
  length (decodeTile data off px W sx sy) = length px.
Proof.
  unfold decodeTile. apply foldl_length. intros. apply decodeTileRow_length.
Qed.

Lemma pixelOffset_rows (W sx sy row row' : nat) :
  (sx + 8 <= W)%nat -> (row < row')%nat ->
  (pixelOffset W sx sy row 8 <= pixelOffset W sx sy row' 0)%nat.
Proof.
  intros HW Hrow. unfold pixelOffset.
  assert ((sy + row) * W + W <= (sy + row') * W)%nat by nia.
  lia.
Qed.

(** The whole tile. *)
Lemma decodeTile_rgba (data : list Z) (off : nat) (px : list Z)
    (W sx sy row col : nat) :
  (row < 8)%nat -> (col < 8)%nat -> (sx + 8 <= W)%nat ->
  ((sy + 8) * W * 4 <= length px)%nat ->
  let byte1 := JS.orZero (data !! (off + row * 2)%nat) in
  let byte2 := JS.orZero (data !! (off + row * 2 + 1)%nat) in
  let color := paletteColor (colorIndex byte1 byte2 col) in
  rgbaAt (decodeTile data off px W sx sy) (pixelOffset W sx sy row col) =
  [Some (default 0 (color !! 0%nat)); Some (default 0 (color !! 1%nat));
   Some (default 0 (color !! 2%nat)); Some 255].
Proof.
  intros Hrow Hcol HW Hlen byte1 byte2 color. unfold decodeTile.
  rewrite (seq_split_at 8 row Hrow).
  rewrite foldl_app. cbn [foldl].
  set (pre := foldl _ px (seq 0 row)).
  assert (Hpre : length pre = length px).
  { apply foldl_length. intros. apply decodeTileRow_length. }
  rewrite (rgbaAt_frame _ (decodeTileRow data off W sx sy pre row)).
  - apply decodeTileRow_rgba; [exact Hcol|]. rewrite Hpre.
    pose proof (pixelOffset_rows W sx sy row 8 HW Hrow) as H8.
    unfold pixelOffset in *. nia.
  - intros q Hq.
    apply (foldl_other _ (rowTouched W sx sy)).
    + intros. now apply decodeTileRow_other.
    + intros row' Hrow'. apply in_seq in Hrow'.
      pose proof (pixelOffset_rows W sx sy row row' HW ltac:(lia)) as Hrr.
      unfold rowTouched. unfold pixelOffset in *. lia.
Qed.

(** ** C8: decoding a tile *)

(** C8.  For a tile read at [off] and placed at [(sx, sy)] in a buffer
    that holds it: row [row] of the tile is read from the two bytes
    [lo = data[off + 2*row]] and [hi = data[off + 2*row + 1]]; the pixel
    in column [col] gets the colour index made of bit [7 - col] of [lo]
    and, one position up, bit [7 - col] of [hi]; the three colour
    channels get the grey level 255, 170, 85 or 0 of that index and the
    fourth channel 255.  So a tile of sixteen zero bytes is all
    (255,255,255) and a tile of sixteen FF bytes all (0,0,0), wherever the
    tile is placed; rendered as an image of one tile, which does not
    throw, they give eight lines of eight such pixels followed by the 152
    untouched pixels of the line. *)
Theorem tile_decode :
  (forall data off px W sx sy row col lo hi,
     (row < 8)%nat -> (col < 8)%nat -> (sx + 8 <= W)%nat ->
     ((sy + 8) * W * 4 <= length px)%nat ->
     data !! (off + row * 2)%nat = Some lo ->
     data !! (off + row * 2 + 1)%nat = Some hi ->
     isByte lo -> isByte hi ->
     let ci := Z.lor (Z.b2z (Z.testbit lo (7 - Z.of_nat col)))
                     (Z.shiftl (Z.b2z (Z.testbit hi (7 - Z.of_nat col))) 1) in
     colorIndex lo hi col = ci /\
     paletteColor ci = [grayOf ci; grayOf ci; grayOf ci] /\
     rgbaAt (decodeTile data off px W sx sy) (pixelOffset W sx sy row col) =
     [Some (grayOf ci); Some (grayOf ci); Some (grayOf ci); Some 255]) /\
  (forall px W sx sy row col,
     (row < 8)%nat -> (col < 8)%nat -> (sx + 8 <= W)%nat ->
     ((sy + 8) * W * 4 <= length px)%nat ->
     rgbaAt (decodeTile (replicate 16 0x00) 0 px W sx sy)
            (pixelOffset W sx sy row col) =
     [Some 255; Some 255; Some 255; Some 255] /\
     rgbaAt (decodeTile (replicate 16 0xFF) 0 px W sx sy)
            (pixelOffset W sx sy row col) =
     [Some 0; Some 0; Some 0; Some 255]) /\
  option_map (fun r => canvasPixels (snd r))
    (renderCanvas (replicate 16 0x00) 0) =
    Some (concat (replicate 8 (concat (replicate 8 [255; 255; 255; 255])
                               ++ replicate (152 * 4) 0))) /\
  option_map (fun r => canvasPixels (snd r))
    (renderCanvas (replicate 16 0xFF) 0) =
    Some (concat (replicate 8 (concat (replicate 8 [0; 0; 0; 255])
                               ++ replicate (152 * 4) 0))).
Proof.
  assert (Hgen : forall data off px W sx sy row col lo hi,
     (row < 8)%nat -> (col < 8)%nat -> (sx + 8 <= W)%nat ->
     ((sy + 8) * W * 4 <= length px)%nat ->
     data !! (off + row * 2)%nat = Some lo ->
     data !! (off + row * 2 + 1)%nat = Some hi ->
     isByte lo -> isByte hi ->
     let ci := Z.lor (Z.b2z (Z.testbit lo (7 - Z.of_nat col)))
                     (Z.shiftl (Z.b2z (Z.testbit hi (7 - Z.of_nat col))) 1) in
     colorIndex lo hi col = ci /\
     paletteColor ci = [grayOf ci; grayOf ci; grayOf ci] /\
     rgbaAt (decodeTile data off px W sx sy) (pixelOffset W sx sy row col) =
     [Some (grayOf ci); Some (grayOf ci); Some (grayOf ci); Some 255]).
  { intros data off px W sx sy row col lo hi
           Hrow Hcol HW Hlen Hlo Hhi Blo Bhi ci.
    assert (Hci : colorIndex lo hi col = ci)
      by (apply colorIndex_bits; assumption).
    assert (Hpal : paletteColor ci = [grayOf ci; grayOf ci; grayOf ci]).
    { subst ci. destruct (Z.testbit lo _), (Z.testbit hi _); reflexivity. }
    split; [exact Hci|]. split; [exact Hpal|].
    rewrite decodeTile_rgba by assumption.
    rewrite Hlo, Hhi, !js_orZero_some, Hci, Hpal. reflexivity. }
  split; [exact Hgen|]. split; [|split; vm_compute; reflexivity].
  intros px W sx sy row col Hrow Hcol HW Hlen.
  assert (Hz : forall (v : Z) k,
             (k < 16)%nat -> replicate 16 v !! k = Some v)
    by (intros v k Hk; apply lookup_replicate_2; lia).
  assert (B0 : isByte 0x00) by (unfold isByte; lia).
  assert (BF : isByte 0xFF) by (unfold isByte; lia).
  split.
  - pose proof (Hgen (replicate 16 0x00) 0%nat px W sx sy row col 0 0
                  Hrow Hcol HW Hlen
                  (Hz 0 (0 + row * 2)%nat ltac:(lia))
                  (Hz 0 (0 + row * 2 + 1)%nat ltac:(lia)) B0 B0) as (_ & _ & H).
    rewrite H, Z.bits_0. reflexivity.
  - pose proof (Hgen (replicate 16 0xFF) 0%nat px W sx sy row col 0xFF 0xFF
                  Hrow Hcol HW Hlen
                  (Hz 0xFF (0 + row * 2)%nat ltac:(lia))
                  (Hz 0xFF (0 + row * 2 + 1)%nat ltac:(lia)) BF BF) as (_ & _ & H).
    rewrite H.
    assert (Hbit : Z.testbit 0xFF (7 - Z.of_nat col) = true).
    { do 8 (destruct col as [|col]; [reflexivity|]). lia. }
    rewrite Hbit. reflexivity.
Qed.

Lemma tile_decode_witness :
  let data := [0x3C; 0x7E; 0; 0; 0; 0; 0; 0; 0; 0; 0; 0; 0; 0; 0; 0] in
  let px := replicate (160 * 8 * 4) 0 in
  ((0 + 8) * 160 * 4 <= length px)%nat /\
  colorIndex 0x3C 0x7E 1 = 2 /\
  rgbaAt (decodeTile data 0 px 160 8 0) (pixelOffset 160 8 0 0 1) =
  [Some 85; Some 85; Some 85; Some 255].
Proof.
  intros data px.
  assert (Hlen : ((0 + 8) * 160 * 4 <= length px)%nat).
  { unfold px. rewrite length_replicate. lia. }
  assert (B1 : isByte 0x3C) by (unfold isByte; lia).
  assert (B2 : isByte 0x7E) by (unfold isByte; lia).
  pose proof (proj1 tile_decode data 0%nat px 160%nat 8%nat 0%nat 0%nat 1%nat
                0x3C 0x7E ltac:(lia) ltac:(lia) ltac:(lia) Hlen
                eq_refl eq_refl B1 B2) as (Hci & _ & Hpx).
  split; [exact Hlen|]. split; [exact Hci|exact Hpx].
Defined.

(** ** The tile loops of renderImage *)

Lemma ceilDiv_bounds (a b : nat) :
  (0 < b)%nat -> (a <= b * ceilDiv a b < a + b)%nat.
Proof.
  intros Hb. unfold ceilDiv.
  pose proof (Nat.div_mod a b ltac:(lia)) as Hdm.
  pose proof (Nat.mod_upper_bound a b ltac:(lia)) as Hm.
  destruct (Nat.eqb_spec (a `mod` b) 0); nia.
Qed.

Lemma tileRowLoop_count (data : list Z) (T W y : nat) (xs : list nat) :
  forall idx px,
    (idx <= T)%nat ->
    fst (tileRowLoop data T W y xs idx px) = min (idx + length xs) T.
Proof.
  induction xs as [|x xs IH]; intros idx px Hidx; cbn [tileRowLoop length].
  - cbn [fst]. lia.
  - destruct (Nat.leb_spec T idx).
    + cbn [fst]. lia.
    + rewrite IH by lia. lia.
Qed.

Lemma tileRowLoop_length (data : list Z) (T W y : nat) (xs : list nat) :
  forall idx px, length (snd (tileRowLoop data T W y xs idx px)) = length px.
Proof.
  induction xs as [|x xs IH]; intros idx px; cbn [tileRowLoop]; [reflexivity|].
  destruct (T <=? idx)%nat; [reflexivity|].
  rewrite IH. apply decodeTile_length.
Qed.

Lemma tileLoop_count_from (data : list Z) (T W : nat) (ys : list nat) :
  forall st : nat * list Z,
    (fst st <= T)%nat ->
    fst (foldl (fun st tileY =>
                  tileRowLoop data T W tileY (seq 0 tilesPerRow)
                    (fst st) (snd st)) st ys)
    = min (fst st + tilesPerRow * length ys) T.
Proof.
  induction ys as [|y ys IH]; intros st Hst; cbn [foldl length].
  - lia.
  - rewrite IH; rewrite tileRowLoop_count by exact Hst;
      rewrite length_seq; unfold tilesPerRow; lia.
Qed.

Lemma tileLoop_length_from (data : list Z) (T W : nat) (ys : list nat) :
  forall st : nat * list Z,
    length (snd (foldl (fun st tileY =>
                          tileRowLoop data T W tileY (seq 0 tilesPerRow)
                            (fst st) (snd st)) st ys))
    = length (snd st).
Proof.
  induction ys as [|y ys IH]; intros st; cbn [foldl]; [reflexivity|].
  rewrite IH. apply tileRowLoop_length.
Qed.

(** A tile is decoded from its own sixteen bytes. *)
Lemma decodeTile_ext (data data' : list Z) (off : nat) (px : list Z)
    (W sx sy : nat) :
  (forall k, (k < 16)%nat -> data !! (off + k)%nat = data' !! (off + k)%nat) ->
  decodeTile data off px W sx sy = decodeTile data' off px W sx sy.
Proof.
  intros H. unfold decodeTile.
  assert (Hin : forall r, In r (seq 0 8) -> (r < 8)%nat)
    by (intros r Hr; apply in_seq in Hr; lia).
  revert px Hin. generalize (seq 0 8).
  induction l as [|r l IH]; intros px Hin; [reflexivity|].
  cbn [foldl].
  assert (Hr : (r < 8)%nat) by (apply Hin; left; reflexivity).
  replace (decodeTileRow data' off W sx sy px r)
    with (decodeTileRow data off W sx sy px r).
  - apply IH. intros r' Hr'. apply Hin. right. exact Hr'.
  - unfold decodeTileRow.
    rewrite (H (r * 2)%nat) by lia.
    replace (off + r * 2 + 1)%nat with (off + (r * 2 + 1))%nat by lia.
    rewrite (H (r * 2 + 1)%nat) by lia. reflexivity.
Qed.

Lemma tileRowLoop_ext (data data' : list Z) (T W y : nat) (xs : list nat) :
  (forall i, (i < bytesPerTile * T)%nat -> data !! i = data' !! i) ->
  forall idx px,
    tileRowLoop data T W y xs idx px = tileRowLoop data' T W y xs idx px.
Proof.
  intros H. induction xs as [|x xs IH]; intros idx px; cbn [tileRowLoop];
    [reflexivity|].
  destruct (Nat.leb_spec T idx); [reflexivity|].
  rewrite IH. f_equal.
  apply decodeTile_ext. intros k Hk. apply H. unfold bytesPerTile. lia.
Qed.

Lemma tileLoop_ext (data data' : list Z) (T rows W : nat) (px : list Z) :
  (forall i, (i < bytesPerTile * T)%nat -> data !! i = data' !! i) ->
  tileLoop data T rows W px = tileLoop data' T rows W px.
Proof.
  intros H. unfold tileLoop.
  generalize (0%nat, px). generalize (seq 0 rows).
  induction l as [|y ys IH]; intros st; cbn [foldl]; [reflexivity|].
  rewrite (tileRowLoop_ext data data' T W y _ H). apply IH.
Qed.

(** ** C7: the dimensions of the image *)

Lemma renderCanvas_dimensions (data : list Z) (n t : nat) (canvas : Canvas) :
  renderCanvas data n = Some (t, canvas) ->
  let totalTiles := (length data `div` 16)%nat in
  let rows := ceilDiv totalTiles 20 in
  t = totalTiles /\
  canvasWidth canvas = (20 * 8)%nat /\
  canvasHeight canvas = (rows * 8)%nat /\
  length (canvasPixels canvas) = (160 * (rows * 8) * 4)%nat /\
  renderCanvas (take (16 * totalTiles) data) n = Some (t, canvas).
Proof.
  intros Hr totalTiles rows.
  assert (Hfloor : (16 * totalTiles <= length data < 16 * totalTiles + 16)%nat).
  { pose proof (Nat.div_mod (length data) 16 ltac:(lia)).
    pose proof (Nat.mod_upper_bound (length data) 16 ltac:(lia)).
    subst totalTiles. lia. }
  assert (Htake : (length (take (16 * totalTiles) data) `div` 16)%nat
                  = totalTiles).
  { rewrite length_take, Nat.min_l by lia.
    rewrite Nat.mul_comm. apply Nat.div_mul. lia. }
  revert Hr. unfold renderCanvas. cbn zeta.
  change bytesPerTile with 16%nat. change tilesPerRow with 20%nat.
  rewrite Htake. fold totalTiles. fold rows.
  destruct (createImageData (20 * 8) (rows * 8)) as [pixels|] eqn:Ec;
    [|discriminate].
  apply createImageData_Some in Ec as (_ & _ & ->).
  rewrite (tileLoop_ext (take (16 * totalTiles) data) data)
    by (intros i Hi; apply lookup_take_lt; exact Hi).
  destruct (tileLoop data totalTiles rows (20 * 8)
              (replicate (20 * 8 * (rows * 8) * 4) 0)) as [tiles px] eqn:E.
  intros H. injection H as <- <-.
  cbn [canvasWidth canvasHeight canvasPixels].
  assert (Ht : tiles = totalTiles).
  { change tiles with (fst (tiles, px)). rewrite <- E. unfold tileLoop.
    rewrite tileLoop_count_from by (cbn [fst]; lia).
    cbn [fst]. rewrite length_seq. unfold tilesPerRow.
    pose proof (ceilDiv_bounds totalTiles 20 ltac:(lia)). fold rows in H.
    lia. }
  assert (Hpx : length px = (160 * (rows * 8) * 4)%nat).
  { change px with (snd (tiles, px)). rewrite <- E. unfold tileLoop.
    rewrite tileLoop_length_from. cbn [snd].
    rewrite length_replicate. reflexivity. }
  repeat split; try assumption; try reflexivity.
Qed.

(** C7.  For every buffer [data] and image number [n], with
    [totalTiles] the quotient of the length of [data] by 16 (the largest
    number of whole tiles: [16 * totalTiles <= length data < 16 *
    totalTiles + 16]) and [rows] the least number of rows of 20 tiles that
    hold them ([totalTiles <= 20 * rows < totalTiles + 20]).  When [data]
    holds a whole tile, [renderImage] decodes exactly [totalTiles] tiles,
    onto a canvas 160 pixels wide and [rows * 8] pixels high, whose buffer
    has four channels per pixel; the bytes after the last whole tile play
    no part: the image of [data] is the image of its first
    [16 * totalTiles] bytes; and the canvas is the one [renderImage]
    appends to the page.  When [data] holds no whole tile, the image that
    these formulas give, 160 pixels wide, of height 0 and without a tile,
    does not come: [createImageData] throws on the height 0,
    [renderImage] throws, no canvas is appended and the image count
    stays.  So the
    packet 04 00 03 00 11 22 33 followed by the print trigger FE makes
    [processFirmwareByte] throw, with the three bytes still in the print
    buffer. *)
Theorem image_dimensions (data : list Z) (n : nat) :
  let totalTiles := (length data `div` 16)%nat in
  let rows := ceilDiv totalTiles 20 in
  (16 * totalTiles <= length data < 16 * totalTiles + 16)%nat /\
  (totalTiles <= 20 * rows < totalTiles + 20)%nat /\
  ((16 <= length data)%nat ->
   exists canvas,
     renderCanvas data n = Some (totalTiles, canvas) /\
     canvasWidth canvas = (20 * 8)%nat /\
     canvasHeight canvas = (rows * 8)%nat /\
     length (canvasPixels canvas) = (160 * (rows * 8) * 4)%nat /\
     renderCanvas (take (16 * totalTiles) data) n
     = Some (totalTiles, canvas) /\
     forall p, imageCount p = n ->
       exists q, renderImage data p = Some q /\
                 canvasContainer q = canvasContainer p ++ [canvas] /\
                 imageCount q = S n) /\
  ((length data < 16)%nat ->
   totalTiles = 0%nat /\ rows = 0%nat /\
   renderCanvas data n = None /\
   forall p, renderImage data p = None) /\
  (let p := feed newPrinter [0x04; 0x00; 0x03; 0x00; 0x11; 0x22; 0x33] in
   printData p = [0x11; 0x22; 0x33] /\
   processFirmwareByte p 0xFE = Throws (withByte p 0xFE) /\
   printData (withByte p 0xFE) = [0x11; 0x22; 0x33] /\
   canvasContainer (withByte p 0xFE) = [] /\
   imageCount (withByte p 0xFE) = 0%nat).
Proof.
  intros totalTiles rows.
  assert (Hfloor : (16 * totalTiles <= length data < 16 * totalTiles + 16)%nat).
  { pose proof (Nat.div_mod (length data) 16 ltac:(lia)).
    pose proof (Nat.mod_upper_bound (length data) 16 ltac:(lia)).
    subst totalTiles. lia. }
  assert (Hceil : (totalTiles <= 20 * rows < totalTiles + 20)%nat)
    by (apply ceilDiv_bounds; lia).
  split; [exact Hfloor|]. split; [exact Hceil|]. split; [|split].
  - intros Hlen.
    destruct (renderCanvas_Some data n Hlen) as (t & canvas & Hr).
    destruct (renderCanvas_dimensions data n t canvas Hr)
      as (Ht & Hw & Hh & Hpx & Htake).
    fold totalTiles in Ht, Htake. fold rows in Hh, Hpx. subst t.
    exists canvas. repeat split; try assumption.
    intros p <-. unfold renderImage. rewrite Hr.
    eexists. split; [reflexivity|]. split; reflexivity.
  - intros Hlen.
    assert (HT : totalTiles = 0%nat) by lia.
    repeat split.
    + exact HT.
    + subst rows. rewrite HT. reflexivity.
    + apply renderCanvas_None. exact Hlen.
    + intros p. apply renderImage_None. exact Hlen.
  - vm_compute. repeat split; reflexivity.
Qed.

Lemma image_dimensions_witness :
  let data := replicate 16 0xFF ++ [0x11; 0x22; 0x33] in
  let short := [0x11; 0x22; 0x33] in
  ((16 <= length data)%nat /\ (length short < 16)%nat) /\
  (exists canvas,
     renderCanvas data 0 = Some (1%nat, canvas) /\
     canvasWidth canvas = 160%nat /\ canvasHeight canvas = 8%nat /\
     renderCanvas (replicate 16 0xFF) 0 = Some (1%nat, canvas)) /\
  renderCanvas short 0 = None.
Proof.
  intros data short.
  assert (Hd : (16 <= length data)%nat) by (cbn; lia).
  assert (Hs : (length short < 16)%nat) by (cbn; lia).
  split; [split; assumption|]. split.
  - destruct (image_dimensions data 0) as (_ & _ & Hbig & _).
    destruct (Hbig Hd) as (canvas & Hr & Hw & Hh & _ & Htake & _).
    exists canvas. repeat split; assumption.
  - destruct (image_dimensions short 0) as (_ & _ & _ & Hsmall & _).
    exact (proj1 (proj2 (proj2 (Hsmall Hs)))).
Defined.

(** * Further properties of the parser *)

(** ** A whole packet from WAIT_COMMAND *)

Lemma parseByte_command (p : GameBoyPrinter) (cmd : Z) :
  parserState p = WAIT_COMMAND -> In cmd validCommands ->
  let q := stateAfter (parseByte p cmd) in
  parseByte p cmd = Returns q /\
  parserState q = WAIT_COMPRESSION /\ currentCommand q = cmd /\
  printData q = (if cmd =? INIT then [] else printData p) /\
  recentBytes q = recentBytes p /\
  canvasContainer q = canvasContainer p /\ imageCount q = imageCount p.
Proof.
  intros Hs Hin q. subst q. unfold validCommands in Hin. cbn [In] in Hin.
  destruct Hin as [<-|[<-|[<-|[<-|[<-|[]]]]]];
    unfold parseByte; rewrite Hs; repeat split; reflexivity.
Qed.

Lemma validCommand_not_T (cmd : Z) : In cmd validCommands -> cmd <> 0x54.
Proof.
  unfold validCommands. cbn [In].
  intros [<-|[<-|[<-|[<-|[<-|[]]]]]]; discriminate.
Qed.

Lemma processPacket_effect (p : GameBoyPrinter) :
  printData (processPacket p) =
    packetEffect (currentCommand p) (currentCompression p)
      (currentPacketData p) (printData p) /\
  parserState (processPacket p) = parserState p /\
  recentBytes (processPacket p) = recentBytes p /\
  canvasContainer (processPacket p) = canvasContainer p /\
  imageCount (processPacket p) = imageCount p.
Proof.
  unfold processPacket, packetEffect.
  destruct (currentCommand p =? INIT); [repeat split; reflexivity|].
  destruct (currentCommand p =? DATA).
  - destruct (currentCompression p =? 0); repeat split; reflexivity.
  - destruct (currentCommand p =? PRINT); [repeat split; reflexivity|].
    destruct (currentCommand p =? INQUIRY); repeat split; reflexivity.
Qed.

(** The state after the command byte, the compression byte and the low
    length byte of a packet. *)
Lemma feed_header (p : GameBoyPrinter) (cmd c lo : Z) :
  parserState p = WAIT_COMMAND -> In cmd validCommands -> c = 0 \/ c = 1 ->
  let p3 := feed p [cmd; c; lo] in
  parserState p3 = WAIT_LEN_HIGH /\ currentCommand p3 = cmd /\
  currentCompression p3 = c /\ currentLength p3 = lo /\
  printData p3 = (if cmd =? INIT then [] else printData p) /\
  canvasContainer p3 = canvasContainer p /\ imageCount p3 = imageCount p.
Proof.
  intros Hs Hcmd Hc p3. subst p3. rewrite !feed_cons, feed_nil.
  remember (stateAfter (processFirmwareByte p cmd)) as p1 eqn:E1.
  assert (Hp1 : p1 = stateAfter (parseByte (withByte p cmd) cmd)).
  { rewrite E1.
    rewrite processFirmwareByte_not_T by (apply validCommand_not_T, Hcmd).
    reflexivity. }
  destruct (parseByte_command (withByte p cmd) cmd Hs Hcmd)
    as (_ & Hs1 & Hc1 & Hd1 & _ & Hcc1 & Hi1).
  rewrite <- Hp1 in Hs1, Hc1, Hd1, Hcc1, Hi1. clear E1 Hp1. fields.
  set (p2 := stateAfter (processFirmwareByte p1 c)).
  assert (Hp2 : p2 = set_parserState WAIT_LEN_LOW
                       (set_currentCompression c (withByte p1 c))).
  { subst p2.
    rewrite processFirmwareByte_not_T by (destruct Hc; subst; discriminate).
    rewrite parseByte_compression_ok by assumption. reflexivity. }
  assert (Hq3 : isAbortMarker (pushRecent (recentBytes p2) lo) = false).
  { destruct (isAbortMarker _) eqn:Hab; [|reflexivity].
    rewrite Hp2 in Hab. fields.
    apply abort_last_two in Hab. destruct Hc; subst; discriminate. }
  rewrite processFirmwareByte_quiet by exact Hq3.
  rewrite parseByte_len_low by (rewrite Hp2; reflexivity).
  fields. rewrite Hp2. fields.
  repeat split; assumption || reflexivity.
Qed.

(** The payload is read to its end and the packet dispatched, if the
    abort does not fire on the way: the state dispatched has the payload
    appended to the pending packet data. *)
Lemma read_payload (payload : list Z) :
  forall p,
    parserState p = READ_DATA ->
    currentLength p - currentDataIndex p = Z.of_nat (length payload) ->
    payload <> [] ->
    quiet (recentBytes p) payload = true ->
    exists p',
      feed p payload = set_parserState WAIT_COMMAND (processPacket p') /\
      currentCommand p' = currentCommand p /\
      currentCompression p' = currentCompression p /\
      printData p' = printData p /\
      currentPacketData p' = currentPacketData p ++ payload /\
      canvasContainer p' = canvasContainer p /\
      imageCount p' = imageCount p.
Proof.
  induction payload as [|b rest IH]; intros p Hs Hlen Hne Hq; [congruence|].
  cbn [quiet] in Hq. apply andb_prop in Hq as [Hq1 Hq2].
  apply negb_true_iff in Hq1.
  rewrite feed_cons, processFirmwareByte_quiet by assumption.
  rewrite parseByte_read_data by exact Hs. cbn zeta. cbn [stateAfter].
  fold (withByte p b).
  change (currentDataIndex (withByte p b)) with (currentDataIndex p).
  change (currentLength (withByte p b)) with (currentLength p).
  change (currentPacketData (withByte p b)) with (currentPacketData p).
  set (p2 := set_currentDataIndex _ _).
  cbn [length] in Hlen.
  destruct rest as [|b' rest'].
  - replace (currentDataIndex p + 1 >=? currentLength p) with true
      by (symmetry; apply Z.geb_le; cbn [length] in Hlen; lia).
    rewrite feed_nil. exists p2. split; [reflexivity|].
    repeat split; reflexivity.
  - replace (currentDataIndex p + 1 >=? currentLength p) with false
      by (symmetry; rewrite Z.geb_leb; apply Z.leb_gt;
          cbn [length] in Hlen; lia).
    destruct (IH p2) as (p' & Hfeed & H1 & H2 & H3 & H4 & H5 & H6).
    + exact Hs.
    + subst p2. fields. cbn [length] in *. lia.
    + discriminate.
    + exact Hq2.
    + exists p'. subst p2. fields. rewrite <- app_assoc in H4.
      repeat split; assumption.
Qed.

Lemma packetEffect_after_header (cmd c : Z) (payload pd : list Z) :
  packetEffect cmd c payload (if cmd =? INIT then [] else pd) =
  packetEffect cmd c payload pd.
Proof. unfold packetEffect. destruct (cmd =? INIT); reflexivity. Qed.

(** A complete packet fed in WAIT_COMMAND is dispatched, and the parser
    is back in WAIT_COMMAND. *)
(** The fields that matter after a dispatch. *)
Lemma dispatch_fields (p' : GameBoyPrinter) (cmd c : Z) (payload pd : list Z)
    (cv : list Canvas) (ic : nat) :
  currentCommand p' = cmd -> currentCompression p' = c ->
  currentPacketData p' = payload -> printData p' = pd ->
  canvasContainer p' = cv -> imageCount p' = ic ->
  let q := set_parserState WAIT_COMMAND (processPacket p') in
  parserState q = WAIT_COMMAND /\
  printData q = packetEffect cmd c payload pd /\
  canvasContainer q = cv /\ imageCount q = ic.
Proof.
  intros <- <- <- <- <- <- q. subst q.
  destruct (processPacket_effect p') as (Hpd & _ & _ & Hcv & Hic).
  cbn [parserState printData canvasContainer imageCount set_parserState].
  repeat split; assumption.
Qed.

Lemma feed_packet (p : GameBoyPrinter) (k : Packet) :
  parserState p = WAIT_COMMAND -> wellFormedPacket k ->
  let q := feed p (packetWire k) in
  parserState q = WAIT_COMMAND /\
  printData q = packetEffectOf (printData p) k /\
  canvasContainer q = canvasContainer p /\ imageCount q = imageCount p.
Proof.
  intros Hs (Hcmd & Hc & Hlo & Hhi & Hmax & Hlen & Hocc) q. subst q.
  destruct k as [cmd c lo hi payload]. unfold packetWire, packetEffectOf.
  cbn [pCommand pCompression pLenLow pLenHigh pPayload] in *.
  unfold packetBytes.
  change (cmd :: c :: lo :: hi :: payload) with ([cmd; c; lo] ++ hi :: payload).
  rewrite feed_app.
  destruct (feed_header p cmd c lo Hs Hcmd Hc)
    as (Hs3 & Hc3 & Hcc3 & Hl3 & Hd3 & Hcv3 & Hi3).
  remember (feed p [cmd; c; lo]) as p3 eqn:E3. clear E3.
  assert (Hhi3 : hi <= 3) by (unfold isByte in *; lia).
  assert (Hq4 : isAbortMarker (pushRecent (recentBytes p3) hi) = false).
  { destruct (isAbortMarker _) eqn:Hab; [|reflexivity].
    apply abort_last_byte in Hab. lia. }
  rewrite feed_cons, processFirmwareByte_quiet by exact Hq4.
  rewrite parseByte_len_high by exact Hs3. cbn zeta. cbn [stateAfter].
  fold (withByte p3 hi).
  change (currentLength (withByte p3 hi)) with (currentLength p3).
  rewrite Hl3, js_length_le by assumption.
  replace (lo + 256 * hi >? 1000) with false
    by (symmetry; rewrite Z.gtb_ltb; apply Z.ltb_ge; lia).
  rewrite <- (packetEffect_after_header cmd c payload (printData p)), <- Hd3.
  destruct (lo + 256 * hi >? 0) eqn:Hpos.
  - apply Z.gtb_lt in Hpos.
    edestruct (read_payload payload
                 (set_parserState READ_DATA
                    (withLength (withByte p3 hi) (lo + 256 * hi))))
      as (p' & Hfeed & H1 & H2 & H3 & H4 & H5 & H6).
    + reflexivity.
    + fields. lia.
    + intros ->. cbn [length] in Hlen. lia.
    + fields. destruct (pushRecent_snoc (recentBytes p3) hi) as [u Hu].
      apply (quiet_clean payload [] _ u hi).
      * exists []. rewrite Hu. reflexivity.
      * cbn. unfold isByte in Hhi. lia.
      * exact Hocc.
    + rewrite Hfeed.
      apply dispatch_fields;
        [ rewrite H1; exact Hc3 | rewrite H2; exact Hcc3
        | rewrite H4; reflexivity | rewrite H3; reflexivity
        | rewrite H5; exact Hcv3 | rewrite H6; exact Hi3 ].
  - rewrite Z.gtb_ltb in Hpos. apply Z.ltb_ge in Hpos.
    assert (Hnil : payload = [])
      by (destruct payload; [reflexivity|cbn [length] in Hlen; lia]).
    subst payload. rewrite feed_nil.
    apply dispatch_fields; assumption || reflexivity.
Qed.

(** Well-formedness of a packet given by its bytes. *)
Ltac wf_packet :=
  unfold wellFormedPacket, isByte;
  cbn [pCommand pCompression pLenLow pLenHigh pPayload];
  repeat split;
  first [ reflexivity | lia
        | unfold validCommands; cbn [In]; auto 10 ].

(** X1.  A complete Data packet fed in WAIT_COMMAND (compression flag 0
    or 1, length at most 1000 low byte first, the payload free of the
    abort marker) appends its payload to the print buffer, as it is when
    the flag is 0 and decompressed when it is 1, whatever the payload
    bytes are (FF, FE and command codes included); the parser is back in
    WAIT_COMMAND and no image is rendered: the canvases and the image
    count are as they were. *)
Theorem data_packet_appends (p : GameBoyPrinter) (c lo hi : Z)
    (payload : list Z) :
  parserState p = WAIT_COMMAND ->
  c = 0 \/ c = 1 -> isByte lo -> isByte hi ->
  lo + 256 * hi <= 1000 ->
  Z.of_nat (length payload) = lo + 256 * hi ->
  occursIn abortMarker payload = false ->
  let q := feed p (packetBytes DATA c lo hi payload) in
  parserState q = WAIT_COMMAND /\
  printData q =
    printData p ++ (if c =? 0 then payload else decompressRLE payload) /\
  canvasContainer q = canvasContainer p /\
  imageCount q = imageCount p.
Proof.
  intros Hs Hc Hlo Hhi Hmax Hlen Hocc q.
  assert (Hwf : wellFormedPacket (mkPacket DATA c lo hi payload)).
  { unfold wellFormedPacket.
    cbn [pCommand pCompression pLenLow pLenHigh pPayload].
    repeat split; try assumption; try apply Hlo; try apply Hhi.
    right. right. left. reflexivity. }
  destruct (feed_packet p (mkPacket DATA c lo hi payload) Hs Hwf)
    as (Hq1 & Hq2 & Hq3 & Hq4).
  subst q.
  change (packetBytes DATA c lo hi payload)
    with (packetWire (mkPacket DATA c lo hi payload)).
  repeat split; try assumption.
  rewrite Hq2. unfold packetEffectOf, packetEffect.
  cbn [pCommand pCompression pPayload].
  change (DATA =? INIT) with false. change (DATA =? DATA) with true.
  destruct (c =? 0); reflexivity.
Qed.

Lemma data_packet_appends_witness :
  let p := feed newPrinter [0x04; 0x00; 0x01; 0x00; 0x11] in
  let q := feed p (packetBytes DATA 1 0x04 0x00 [0x81; 0xFF; 0x00; 0xFE]) in
  (parserState p = WAIT_COMMAND /\ printData p = [0x11]) /\
  printData q = [0x11] ++ [0xFF; 0xFF; 0xFF; 0xFE] /\
  canvasContainer q = [] /\ imageCount q = 0%nat.
Proof.
  intros p q.
  assert (Hp : parserState p = WAIT_COMMAND /\ printData p = [0x11])
    by (split; vm_compute; reflexivity).
  split; [exact Hp|]. destruct Hp as [Hs Hd].
  pose proof (data_packet_appends p 1 0x04 0x00 [0x81; 0xFF; 0x00; 0xFE] Hs
                (or_intror eq_refl)
                ltac:(unfold isByte; lia) ltac:(unfold isByte; lia)
                ltac:(lia) eq_refl eq_refl) as (_ & H & Hc & Hi).
  fold q in H, Hc, Hi.
  rewrite H, Hd, Hc, Hi. repeat split; reflexivity.
Defined.

Lemma feed_packets (ks : list Packet) :
  forall p,
    parserState p = WAIT_COMMAND ->
    Forall wellFormedPacket ks ->
    let q := feed p (concat (map packetWire ks)) in
    parserState q = WAIT_COMMAND /\
    printData q = foldl packetEffectOf (printData p) ks /\
    canvasContainer q = canvasContainer p /\ imageCount q = imageCount p.
Proof.
  induction ks as [|k ks IH]; intros p Hs Hwf q; subst q.
  - repeat split; assumption || reflexivity.
  - apply Forall_cons in Hwf as [Hk Hks].
    cbn [map concat foldl]. rewrite feed_app.
    destruct (feed_packet p k Hs Hk) as (H1 & H2 & H3 & H4).
    destruct (IH (feed p (packetWire k)) H1 Hks) as (I1 & I2 & I3 & I4).
    rewrite I2, I3, I4, H2, H3, H4. repeat split; assumption || reflexivity.
Qed.

(** X2.  Packets compose: any sequence of complete packets fed in
    WAIT_COMMAND leaves the parser in WAIT_COMMAND with the print buffer
    obtained by applying the packets in order (Init empties it, Data
    appends to it, Print, Break and Inquiry leave it alone); no image is
    rendered on the way. *)
Theorem packet_stream_accumulates (ks : list Packet) (p : GameBoyPrinter) :
  parserState p = WAIT_COMMAND ->
  Forall wellFormedPacket ks ->
  let q := feed p (concat (map packetWire ks)) in
  parserState q = WAIT_COMMAND /\
  printData q = foldl packetEffectOf (printData p) ks /\
  canvasContainer q = canvasContainer p /\ imageCount q = imageCount p.
Proof. intros Hs Hwf. exact (feed_packets ks p Hs Hwf). Qed.

Lemma packet_stream_accumulates_witness :
  let ks := [mkPacket INIT 0 0 0 [];
             mkPacket DATA 0 0x02 0x00 [0xAA; 0xBB];
             mkPacket INQUIRY 0 0 0 [];
             mkPacket DATA 1 0x02 0x00 [0x80; 0x07]] in
  Forall wellFormedPacket ks /\
  printData (feed newPrinter (concat (map packetWire ks)))
  = [0xAA; 0xBB; 0x07; 0x07].
Proof.
  intros ks.
  assert (Hwf : Forall wellFormedPacket ks).
  { unfold ks. do 4 (constructor; [wf_packet|]). constructor. }
  split; [exact Hwf|].
  destruct (packet_stream_accumulates ks newPrinter eq_refl Hwf)
    as (_ & H & _).
  rewrite H. reflexivity.
Defined.

(** ** The bytes of WAIT_COMMAND that are not commands *)

(** The print-trigger byte in WAIT_COMMAND, by the length of the print
    buffer: the completion and the whole state. *)
Lemma feed_print_trigger (p : GameBoyPrinter) :
  parserState p = WAIT_COMMAND ->
  (printData p = [] ->
   processFirmwareByte p 0xFE = Returns (withByte p 0xFE)) /\
  ((0 < length (printData p) < 16)%nat ->
   processFirmwareByte p 0xFE = Throws (withByte p 0xFE)) /\
  ((16 <= length (printData p))%nat ->
   exists t canvas,
     renderCanvas (printData p) (imageCount p) = Some (t, canvas) /\
     processFirmwareByte p 0xFE =
     Returns
       (set_printData []
          (updateStatus "Image received! Waiting for more..." "status-idle"
             (set_imageCount (S (imageCount p))
                (set_canvasContainer (canvasContainer p ++ [canvas])
                   (withByte p 0xFE)))))).
Proof.
  intros Hs.
  rewrite processFirmwareByte_not_T by discriminate. fold (withByte p 0xFE).
  unfold parseByte.
  change (parserState (withByte p 0xFE)) with (parserState p). rewrite Hs.
  change (0xFE =? 0xFF) with false. change (0xFE =? 0xFE) with true. cbv iota.
  change (printData (withByte p 0xFE)) with (printData p).
  split; [|split].
  - intros ->. reflexivity.
  - intros [Hl Hu]. rewrite (proj2 (Nat.ltb_lt _ _) Hl).
    rewrite (proj2 (renderImage_None _ _) Hu). reflexivity.
  - intros Hl. rewrite (proj2 (Nat.ltb_lt 0 _)) by lia.
    destruct (renderCanvas_Some (printData p) (imageCount p) Hl)
      as (t & canvas & Hr).
    exists t, canvas. split; [exact Hr|].
    unfold renderImage.
    change (imageCount (withByte p 0xFE)) with (imageCount p).
    rewrite Hr. reflexivity.
Qed.

(** X3.  In WAIT_COMMAND the print-trigger byte FE acts by the length of
    the print buffer.  With at least sixteen bytes, a whole tile, it
    appends exactly one canvas to the page, the rendering of the print
    buffer numbered with the image count, adds one to the image count,
    empties the print buffer and reports.  With an empty print buffer it
    does nothing but slide the window.  With one to fifteen bytes the call
    throws out of [renderImage]: the window has slid, and nothing else has
    changed; no canvas is appended and the print buffer is not emptied.
    The parser stays in WAIT_COMMAND in the three cases. *)
Theorem print_trigger (p : GameBoyPrinter) :
  parserState p = WAIT_COMMAND ->
  parserState (stateAfter (processFirmwareByte p 0xFE)) = WAIT_COMMAND /\
  (printData p = [] ->
   processFirmwareByte p 0xFE = Returns (withByte p 0xFE)) /\
  ((0 < length (printData p) < 16)%nat ->
   processFirmwareByte p 0xFE = Throws (withByte p 0xFE)) /\
  ((16 <= length (printData p))%nat ->
   exists t canvas,
     renderCanvas (printData p) (imageCount p) = Some (t, canvas) /\
     processFirmwareByte p 0xFE =
     Returns
       (set_printData []
          (updateStatus "Image received! Waiting for more..." "status-idle"
             (set_imageCount (S (imageCount p))
                (set_canvasContainer (canvasContainer p ++ [canvas])
                   (withByte p 0xFE)))))).
Proof.
  intros Hs. split; [|exact (feed_print_trigger p Hs)].
  destruct (feed_print_trigger p Hs) as (H0 & H1 & H2).
  destruct (printData p) as [|x xs] eqn:Hd.
  - rewrite H0 by reflexivity. exact Hs.
  - destruct (Nat.lt_ge_cases (length (x :: xs)) 16) as [Hl|Hl].
    + rewrite H1 by (cbn [length] in *; lia). exact Hs.
    + destruct (H2 Hl) as (t & canvas & _ & ->). exact Hs.
Qed.

Lemma print_trigger_witness :
  let p := feed newPrinter
             (packetBytes DATA 1 0x02 0x00 [0x8E; 0xFF] ++ [0x33; 0x88]) in
  let short := feed newPrinter [0x04; 0x00; 0x01; 0x00; 0x11] in
  (parserState p = WAIT_COMMAND /\ (16 <= length (printData p))%nat) /\
  (parserState short = WAIT_COMMAND /\
   (0 < length (printData short) < 16)%nat) /\
  (exists t canvas,
     renderCanvas (replicate 16 0xFF) 0 = Some (t, canvas) /\
     canvasContainer (stateAfter (processFirmwareByte p 0xFE)) = [canvas] /\
     imageCount (stateAfter (processFirmwareByte p 0xFE)) = 1%nat /\
     printData (stateAfter (processFirmwareByte p 0xFE)) = []) /\
  processFirmwareByte short 0xFE = Throws (withByte short 0xFE).
Proof.
  intros p short.
  assert (Hs : parserState p = WAIT_COMMAND) by (vm_compute; reflexivity).
  assert (Hd : printData p = replicate 16 0xFF) by (vm_compute; reflexivity).
  assert (Hl : (16 <= length (printData p))%nat)
    by (rewrite Hd, length_replicate; lia).
  assert (Hs' : parserState short = WAIT_COMMAND) by (vm_compute; reflexivity).
  assert (Hl' : (0 < length (printData short) < 16)%nat)
    by (vm_compute; split; lia).
  split; [split; assumption|]. split; [split; assumption|].
  destruct (print_trigger p Hs) as (_ & _ & _ & Hbig).
  destruct (print_trigger short Hs') as (_ & _ & Hthrow & _).
  split; [|exact (Hthrow Hl')].
  destruct (Hbig Hl) as (t & canvas & Hr & Hq).
  exists t, canvas. rewrite Hq.
  split; [rewrite <- Hr, Hd; reflexivity|].
  repeat split; reflexivity.
Defined.

(** X4.  In WAIT_COMMAND a byte that is neither FF nor FE nor one of the
    five command codes is skipped: it enters the window and nothing else
    changes (unless it completes the abort marker), and the call returns.
    Stray image bytes are never taken for commands. *)
Theorem stray_byte_skipped (p : GameBoyPrinter) (b : Z) :
  parserState p = WAIT_COMMAND ->
  b <> 0xFF -> b <> 0xFE -> ~ In b validCommands ->
  isAbortMarker (recentBytes (withByte p b)) = false ->
  processFirmwareByte p b = Returns (withByte p b).
Proof.
  intros Hs Hff Hfe Hcmd Hq.
  rewrite processFirmwareByte_cases, Hq. unfold parseByte.
  change (parserState (withByte p b)) with (parserState p). rewrite Hs.
  apply Z.eqb_neq in Hff, Hfe. rewrite Hff, Hfe.
  destruct ((b =? 0x88) || (b =? 0x33)); [reflexivity|].
  replace (existsb (Z.eqb b) validCommands) with false; [reflexivity|].
  symmetry. apply not_true_is_false. intros Hex.
  apply existsb_exists in Hex as (x & Hx & Heq).
  apply Z.eqb_eq in Heq. subst x. contradiction.
Qed.

Lemma stray_byte_skipped_witness :
  let p := feed newPrinter [0x04; 0x00; 0x01; 0x00; 0x11] in
  parserState p = WAIT_COMMAND /\
  processFirmwareByte p 0x88 = Returns (withByte p 0x88) /\
  processFirmwareByte p 0x54 = Returns (withByte p 0x54).
Proof.
  intros p.
  assert (Hs : parserState p = WAIT_COMMAND) by (vm_compute; reflexivity).
  split; [exact Hs|]. split.
  - assert (Hn : ~ In 0x88 validCommands).
    { cbn. intros H. repeat (destruct H as [H|H]; [discriminate H|]). exact H. }
    assert (Hq : isAbortMarker (recentBytes (withByte p 0x88)) = false)
      by (vm_compute; reflexivity).
    exact (stray_byte_skipped p 0x88 Hs ltac:(discriminate)
             ltac:(discriminate) Hn Hq).
  - assert (Hn : ~ In 0x54 validCommands).
    { cbn. intros H. repeat (destruct H as [H|H]; [discriminate H|]). exact H. }
    assert (Hq : isAbortMarker (recentBytes (withByte p 0x54)) = false)
      by (vm_compute; reflexivity).
    exact (stray_byte_skipped p 0x54 Hs ltac:(discriminate)
             ltac:(discriminate) Hn Hq).
Defined.

(** ** A print session *)

(** X5.  A whole session fed in WAIT_COMMAND: the stream-start byte FF,
    any sequence of complete packets, then the print-trigger byte FE.
    What was in the print buffer before is discarded, and the parser ends
    in WAIT_COMMAND.  If the packets leave a buffer [img] of at least
    sixteen bytes, exactly one canvas is appended to the page, the
    rendering of [img], the image count grows by one and the print buffer
    is empty, ready for the next session.  If they leave one to fifteen
    bytes, the call for the byte FE throws: no canvas is appended, the
    image count stays and [img] is still in the print buffer.  If they
    leave nothing, nothing is rendered. *)
Theorem print_session (p : GameBoyPrinter) (ks : list Packet) :
  parserState p = WAIT_COMMAND ->
  Forall wellFormedPacket ks ->
  let img := foldl packetEffectOf [] ks in
  let p' := feed p (0xFF :: concat (map packetWire ks)) in
  let q := feed p (0xFF :: concat (map packetWire ks) ++ [0xFE]) in
  parserState q = WAIT_COMMAND /\
  ((16 <= length img)%nat ->
   exists t canvas,
     renderCanvas img (imageCount p) = Some (t, canvas) /\
     printData q = [] /\
     canvasContainer q = canvasContainer p ++ [canvas] /\
     imageCount q = S (imageCount p)) /\
  ((0 < length img < 16)%nat ->
   processFirmwareByte p' 0xFE = Throws q /\
   printData q = img /\
   canvasContainer q = canvasContainer p /\
   imageCount q = imageCount p) /\
  (img = [] ->
   printData q = [] /\
   canvasContainer q = canvasContainer p /\
   imageCount q = imageCount p).
Proof.
  intros Hs Hwf img p' q.
  assert (Hq : q = stateAfter (processFirmwareByte p' 0xFE)).
  { subst q p'. rewrite app_comm_cons, feed_app, feed_cons, feed_nil.
    reflexivity. }
  assert (Hp' : parserState p' = WAIT_COMMAND /\ printData p' = img /\
                canvasContainer p' = canvasContainer p /\
                imageCount p' = imageCount p).
  { subst p'. rewrite feed_cons.
    rewrite (processFirmwareByte_not_T p 0xFF) by discriminate.
    rewrite parseByte_start_marker by exact Hs. cbn [stateAfter].
    set (p0 := updateStatus _ _ _).
    destruct (feed_packets ks p0 Hs Hwf) as (H1 & H2 & H3 & H4).
    repeat split; assumption. }
  destruct Hp' as (H1 & H2 & H3 & H4).
  clearbody p' q. subst q.
  destruct (feed_print_trigger p' H1) as (T0 & T1 & T2).
  rewrite H2 in T0, T1, T2. rewrite H4 in T2.
  split; [|split; [|split]].
  - destruct img as [|x xs] eqn:Hd.
    + rewrite T0 by reflexivity. exact H1.
    + destruct (Nat.lt_ge_cases (length (x :: xs)) 16) as [Hl|Hl].
      * rewrite T1 by (cbn [length] in *; lia). exact H1.
      * destruct (T2 Hl) as (t & canvas & _ & ->). exact H1.
  - intros Hl. destruct (T2 Hl) as (t & canvas & Hr & ->).
    exists t, canvas. fields. rewrite ?H3, ?H4.
    repeat split; assumption || reflexivity.
  - intros Hl. rewrite (T1 Hl). fields.
    repeat split; assumption || reflexivity.
  - intros Hl. rewrite (T0 Hl). fields. rewrite Hl in H2.
    repeat split; assumption.
Qed.

Lemma print_session_witness :
  let ks := [mkPacket INIT 0 0 0 [];
             mkPacket DATA 1 0x02 0x00 [0x8E; 0xFF]] in
  let short := [mkPacket DATA 0 0x03 0x00 [0x11; 0x22; 0x33]] in
  (Forall wellFormedPacket ks /\
   (16 <= length (foldl packetEffectOf [] ks))%nat) /\
  (Forall wellFormedPacket short /\
   (0 < length (foldl packetEffectOf [] short) < 16)%nat) /\
  (let q := feed newPrinter (0xFF :: concat (map packetWire ks) ++ [0xFE]) in
   exists t canvas,
     renderCanvas (replicate 16 0xFF) 0 = Some (t, canvas) /\
     canvasContainer q = [canvas] /\ printData q = [] /\
     imageCount q = 1%nat) /\
  (let q := feed newPrinter
              (0xFF :: concat (map packetWire short) ++ [0xFE]) in
   printData q = [0x11; 0x22; 0x33] /\ canvasContainer q = [] /\
   imageCount q = 0%nat).
Proof.
  intros ks short.
  assert (Hwf : Forall wellFormedPacket ks)
    by (unfold ks; do 2 (constructor; [wf_packet|]); constructor).
  assert (Himg : (16 <= length (foldl packetEffectOf [] ks))%nat)
    by (vm_compute; lia).
  assert (Hwf' : Forall wellFormedPacket short)
    by (unfold short; do 1 (constructor; [wf_packet|]); constructor).
  assert (Himg' : (0 < length (foldl packetEffectOf [] short) < 16)%nat)
    by (vm_compute; split; lia).
  split; [split; assumption|]. split; [split; assumption|].
  destruct (print_session newPrinter ks eq_refl Hwf) as (_ & Hbig & _).
  destruct (print_session newPrinter short eq_refl Hwf')
    as (_ & _ & Hthrow & _).
  split.
  - destruct (Hbig Himg) as (t & canvas & Hr & Hd & Hc & Hi).
    exists t, canvas. repeat split; assumption.
  - destruct (Hthrow Himg') as (_ & Hd & Hc & Hi).
    repeat split; assumption.
Defined.

(** ** The abort detector has no false positives *)

Lemma window_is_suffix (bs : list Z) :
  forall p hist,
    (exists u, u ++ recentBytes p = hist) ->
    exists u, u ++ recentBytes (feed p bs) = hist ++ bs.
Proof.
  induction bs as [|b bs IH]; intros p hist [u Hu].
  - exists u. rewrite feed_nil, app_nil_r. exact Hu.
  - rewrite feed_cons.
    replace (hist ++ b :: bs) with ((hist ++ [b]) ++ bs)
      by (rewrite <- app_assoc; reflexivity).
    apply IH.
    destruct (isAbortMarker (pushRecent (recentBytes p) b)) eqn:Hab.
    + rewrite processFirmwareByte_abort by assumption.
      exists (hist ++ [b]). cbn. apply app_nil_r.
    + rewrite recentBytes_step_quiet by assumption.
      destruct (pushRecent_suffix (recentBytes p) b) as [u' Hu'].
      exists (u ++ u'). rewrite <- app_assoc, Hu', app_assoc, Hu. reflexivity.
Qed.

(** X6.  The window is always a suffix of the bytes received; so when
    the abort branch is taken at a byte, the last ten bytes received, that
    byte included, spell ABORTPRINT: print data is never discarded by the
    abort branch unless the stream really holds the marker. *)
Theorem abort_only_on_marker (bs : list Z) (b : Z) :
  isAbortMarker (recentBytes (withByte (feed newPrinter bs) b)) = true ->
  exists u, bs ++ [b] = u ++ abortMarker.
Proof.
  intros Hab. apply isAbortMarker_eq in Hab.
  destruct (window_is_suffix bs newPrinter []) as [u Hu].
  { exists []. reflexivity. }
  cbn [app] in Hu.
  destruct (pushRecent_suffix (recentBytes (feed newPrinter bs)) b)
    as [u' Hu'].
  exists (u ++ u').
  change (recentBytes (withByte (feed newPrinter bs) b))
    with (pushRecent (recentBytes (feed newPrinter bs)) b) in Hab.
  rewrite <- Hab, <- app_assoc, Hu', app_assoc, Hu. reflexivity.
Qed.

Lemma abort_only_on_marker_witness :
  let bs := [0x04; 0x00; 0x0C; 0x00; 0x41; 0x42; 0x4F; 0x52; 0x54; 0x50;
             0x52; 0x49; 0x4E] in
  isAbortMarker (recentBytes (withByte (feed newPrinter bs) 0x54)) = true /\
  exists u, bs ++ [0x54] = u ++ abortMarker.
Proof.
  intros bs.
  assert (H : isAbortMarker (recentBytes (withByte (feed newPrinter bs) 0x54))
              = true) by (vm_compute; reflexivity).
  split; [exact H|]. exact (abort_only_on_marker bs 0x54 H).
Defined.

(** ** The read loop *)

(** [processFirmwareByte] neither reads nor writes the byte counter and
    the time of the last data. *)
Lemma processPacket_bookkeeping (p : GameBoyPrinter) (n : nat) (t : Z) :
  processPacket (set_totalBytesReceived n (set_lastDataTime t p)) =
  set_totalBytesReceived n (set_lastDataTime t (processPacket p)).
Proof.
  unfold processPacket. fields.
  repeat match goal with |- context [if ?c then _ else _] => destruct c end;
    reflexivity.
Qed.

Lemma renderImage_bookkeeping (data : list Z) (p : GameBoyPrinter) (n : nat)
    (t : Z) :
  renderImage data (set_totalBytesReceived n (set_lastDataTime t p)) =
  option_map (fun q => set_totalBytesReceived n (set_lastDataTime t q))
    (renderImage data p).
Proof.
  unfold renderImage.
  change (imageCount (set_totalBytesReceived n (set_lastDataTime t p)))
    with (imageCount p).
  destruct (renderCanvas data (imageCount p)) as [[k c]|]; reflexivity.
Qed.

Lemma parseByte_bookkeeping (p : GameBoyPrinter) (b : Z) (n : nat) (t : Z) :
  parseByte (set_totalBytesReceived n (set_lastDataTime t p)) b =
  mapCompletion (fun q => set_totalBytesReceived n (set_lastDataTime t q))
    (parseByte p b).
Proof.
  unfold parseByte.
  change (parserState (set_totalBytesReceived n (set_lastDataTime t p)))
    with (parserState p).
  destruct (parserState p); try reflexivity.
  - destruct (b =? 0xFF); [reflexivity|].
    destruct (b =? 0xFE).
    + change (printData (set_totalBytesReceived n (set_lastDataTime t p)))
        with (printData p).
      destruct (0 <? length (printData p))%nat; [|reflexivity].
      rewrite renderImage_bookkeeping.
      destruct (renderImage (printData p) p); reflexivity.
    + fields.
      repeat match goal with |- context [if ?c then _ else _] => destruct c end;
        reflexivity.
  - destruct (negb (b =? 0) && negb (b =? 1)); reflexivity.
  - fields.
    destruct (JS.or (currentLength p) (JS.shl b 8) >? 1000); [reflexivity|].
    destruct (JS.or (currentLength p) (JS.shl b 8) >? 0); [reflexivity|].
    cbn [mapCompletion]. f_equal.
    match goal with
    | |- set_parserState _ (processPacket ?x) =
         set_totalBytesReceived _ (set_lastDataTime _
           (set_parserState _ (processPacket ?y))) =>
        change y with (withLength p (JS.or (currentLength p) (JS.shl b 8)));
        change x with (set_totalBytesReceived n (set_lastDataTime t
          (withLength p (JS.or (currentLength p) (JS.shl b 8)))))
    end.
    rewrite processPacket_bookkeeping.
    generalize (processPacket
                  (withLength p (JS.or (currentLength p) (JS.shl b 8)))).
    intros r. reflexivity.
  - fields.
    destruct (currentDataIndex p + 1 >=? currentLength p); [|reflexivity].
    cbn [mapCompletion]. f_equal.
    match goal with
    | |- set_parserState _ (processPacket ?x) =
         set_totalBytesReceived _ (set_lastDataTime _
           (set_parserState _ (processPacket ?y))) =>
        change y with (set_currentDataIndex (currentDataIndex p + 1)
             (set_currentPacketData (currentPacketData p ++ [b]) p));
        change x with (set_totalBytesReceived n (set_lastDataTime t
          (set_currentDataIndex (currentDataIndex p + 1)
             (set_currentPacketData (currentPacketData p ++ [b]) p))))
    end.
    rewrite processPacket_bookkeeping.
    generalize (processPacket
                  (set_currentDataIndex (currentDataIndex p + 1)
                     (set_currentPacketData (currentPacketData p ++ [b]) p))).
    intros r. reflexivity.
Qed.

Lemma processFirmwareByte_bookkeeping (p : GameBoyPrinter) (b : Z) (n : nat)
    (t : Z) :
  processFirmwareByte (set_totalBytesReceived n (set_lastDataTime t p)) b =
  mapCompletion (fun q => set_totalBytesReceived n (set_lastDataTime t q))
    (processFirmwareByte p b).
Proof.
  rewrite !processFirmwareByte_cases.
  change (recentBytes (withByte (set_totalBytesReceived n (set_lastDataTime t p)) b))
    with (recentBytes (withByte p b)).
  destruct (isAbortMarker (recentBytes (withByte p b))); [reflexivity|].
  change (withByte (set_totalBytesReceived n (set_lastDataTime t p)) b)
    with (set_totalBytesReceived n (set_lastDataTime t (withByte p b))).
  apply parseByte_bookkeeping.
Qed.

Lemma stateAfter_mapCompletion (f : GameBoyPrinter -> GameBoyPrinter)
    (c : Completion) :
  stateAfter (mapCompletion f c) = f (stateAfter c).
Proof. destruct c; reflexivity. Qed.

Lemma feed_bookkeeping (bs : list Z) :
  forall p n t,
    feed (set_totalBytesReceived n (set_lastDataTime t p)) bs =
    set_totalBytesReceived n (set_lastDataTime t (feed p bs)).
Proof.
  induction bs as [|b bs IH]; intros p n t; [reflexivity|].
  rewrite !feed_cons, processFirmwareByte_bookkeeping.
  rewrite stateAfter_mapCompletion. apply IH.
Qed.

Lemma firstThrow_bookkeeping (bs : list Z) :
  forall p n t,
    firstThrow (set_totalBytesReceived n (set_lastDataTime t p)) bs =
    firstThrow p bs.
Proof.
  induction bs as [|b bs IH]; intros p n t; [reflexivity|].
  cbn [firstThrow]. rewrite processFirmwareByte_bookkeeping.
  destruct (processFirmwareByte p b) as [q|q]; cbn [mapCompletion];
    [|reflexivity].
  rewrite IH. reflexivity.
Qed.

Lemma set_bookkeeping_id (p : GameBoyPrinter) :
  set_totalBytesReceived (totalBytesReceived p)
    (set_lastDataTime (lastDataTime p) p) = p.
Proof. destruct p. reflexivity. Qed.

(** A call leaves the byte counter and the time stamp as they were. *)
Lemma step_bookkeeping (p : GameBoyPrinter) (b : Z) :
  totalBytesReceived (stateAfter (processFirmwareByte p b))
  = totalBytesReceived p /\
  lastDataTime (stateAfter (processFirmwareByte p b)) = lastDataTime p.
Proof.
  pose proof (processFirmwareByte_bookkeeping p b
                (totalBytesReceived p) (lastDataTime p)) as Hstep.
  rewrite set_bookkeeping_id in Hstep. rewrite Hstep.
  rewrite stateAfter_mapCompletion. split; reflexivity.
Qed.

(** The [for] loop in terms of [feed]: the calls are those of [feed], up
    to and including the first that throws; the calls that returned are
    counted. *)
Lemma chunkLoop_feed (bs : list Z) :
  forall p,
    chunkLoop bs p =
    match firstThrow p bs with
    | None =>
        Returns
          (set_totalBytesReceived (totalBytesReceived p + length bs)%nat
             (set_lastDataTime (lastDataTime p) (feed p bs)))
    | Some i =>
        Throws
          (set_totalBytesReceived (totalBytesReceived p + i)%nat
             (set_lastDataTime (lastDataTime p) (feed p (take (S i) bs))))
    end.
Proof.
  induction bs as [|b bs IH]; intros p.
  - cbn [chunkLoop firstThrow length]. rewrite Nat.add_0_r, feed_nil.
    rewrite set_bookkeeping_id. reflexivity.
  - cbn [chunkLoop firstThrow length].
    destruct (step_bookkeeping p b) as [Ht Hl].
    destruct (processFirmwareByte p b) as [q|q] eqn:E;
      cbn [stateAfter] in Ht, Hl.
    + rewrite IH.
      assert (Hq : set_totalBytesReceived (S (totalBytesReceived q)) q =
                   set_totalBytesReceived (S (totalBytesReceived p))
                     (set_lastDataTime (lastDataTime p) q)).
      { rewrite <- (set_bookkeeping_id q) at 2. rewrite Ht, Hl.
        reflexivity. }
      rewrite Hq, firstThrow_bookkeeping, feed_bookkeeping.
      change (totalBytesReceived
                (set_totalBytesReceived (S (totalBytesReceived p))
                   (set_lastDataTime (lastDataTime p) q)))
        with (S (totalBytesReceived p)).
      change (lastDataTime
                (set_totalBytesReceived (S (totalBytesReceived p))
                   (set_lastDataTime (lastDataTime p) q)))
        with (lastDataTime p).
      destruct (firstThrow q bs) as [i|]; cbn [option_map].
      * rewrite feed_bookkeeping.
        change (take (S (S i)) (b :: bs)) with (b :: take (S i) bs).
        rewrite (feed_cons p b), E. cbn [stateAfter].
        replace (S (totalBytesReceived p) + i)%nat
          with (totalBytesReceived p + S i)%nat by lia.
        reflexivity.
      * rewrite (feed_cons p b), E. cbn [stateAfter].
        replace (S (totalBytesReceived p) + length bs)%nat
          with (totalBytesReceived p + S (length bs))%nat by lia.
        reflexivity.
    + change (take 1 (b :: bs)) with [b].
      rewrite feed_cons, feed_nil, E. cbn [stateAfter].
      rewrite Nat.add_0_r, <- Ht, <- Hl, set_bookkeeping_id. reflexivity.
Qed.

Lemma tryChunk_feed (now : Z) (bytes : list Z) (p : GameBoyPrinter) :
  tryChunk now bytes p =
  match bytes with
  | [] => Returns p
  | _ :: _ =>
      match firstThrow p bytes with
      | None =>
          Returns
            (set_totalBytesReceived (totalBytesReceived p + length bytes)%nat
               (set_lastDataTime now (feed p bytes)))
      | Some i =>
          Throws
            (set_totalBytesReceived (totalBytesReceived p + i)%nat
               (set_lastDataTime now (feed p (take (S i) bytes))))
      end
  end.
Proof.
  unfold tryChunk. destruct bytes as [|b bs]; [reflexivity|].
  cbn [length Nat.ltb Nat.leb]. cbn zeta. rewrite chunkLoop_feed.
  change (totalBytesReceived (set_lastDataTime now p))
    with (totalBytesReceived p).
  change (lastDataTime (set_lastDataTime now p)) with now.
  assert (Hp : set_lastDataTime now p =
               set_totalBytesReceived (totalBytesReceived p)
                 (set_lastDataTime now p)) by (destruct p; reflexivity).
  rewrite Hp, firstThrow_bookkeeping.
  destruct (firstThrow p (b :: bs)); rewrite feed_bookkeeping; reflexivity.
Qed.

(** A call throws exactly for the print trigger in WAIT_COMMAND on a
    print buffer that holds bytes but no whole tile; the window has slid
    and nothing else has changed. *)
Lemma processFirmwareByte_Throws (p q : GameBoyPrinter) (b : Z) :
  processFirmwareByte p b = Throws q <->
  b = 0xFE /\ parserState p = WAIT_COMMAND /\
  (0 < length (printData p) < 16)%nat /\ q = withByte p b.
Proof.
  split.
  - rewrite processFirmwareByte_cases.
    destruct (isAbortMarker _); [discriminate|].
    intros H. apply parseByte_Throws in H as (Hs & Hb & Hl & Hq).
    repeat split; assumption || apply Hl.
  - intros (-> & Hs & Hl & ->).
    rewrite processFirmwareByte_not_T by discriminate.
    apply parseByte_Throws. repeat split; assumption || apply Hl.
Qed.

Lemma firstThrow_Some (bs : list Z) :
  forall p i,
    firstThrow p bs = Some i ->
    bs !! i = Some 0xFE /\
    parserState (feed p (take i bs)) = WAIT_COMMAND /\
    (0 < length (printData (feed p (take i bs))) < 16)%nat.
Proof.
  induction bs as [|b bs IH]; intros p i H; [discriminate H|].
  cbn [firstThrow] in H.
  destruct (processFirmwareByte p b) as [q|q] eqn:E.
  - destruct (firstThrow q bs) as [j|] eqn:Ej; [|discriminate H].
    injection H as <-.
    destruct (IH q j Ej) as (H1 & H2 & H3).
    change (take (S j) (b :: bs)) with (b :: take j bs).
    rewrite feed_cons, E. cbn [stateAfter].
    repeat split; assumption || apply H3.
  - injection H as <-.
    apply processFirmwareByte_Throws in E as (-> & Hs & Hl & _).
    repeat split; assumption || apply Hl.
Qed.

Lemma firstThrow_None (bs : list Z) :
  forall p, (forall b, In b bs -> b <> 0xFE) -> firstThrow p bs = None.
Proof.
  induction bs as [|b bs IH]; intros p H; [reflexivity|].
  cbn [firstThrow].
  destruct (processFirmwareByte p b) as [q|q] eqn:E.
  - rewrite IH; [reflexivity|]. intros x Hx. apply H. right. exact Hx.
  - apply processFirmwareByte_Throws in E as (Hb & _).
    exfalso. apply (H b); [left; reflexivity|exact Hb].
Qed.

(** X7.  A chunk of bytes read by the loop is parsed as the bytes fed
    one by one, up to the first call that throws.  When no call throws,
    the chunk is parsed whole, the time of the last data is stamped and
    the number of its bytes is added to the byte counter, every byte
    counted, also those the parser skips or that reset it.  When the call
    for the byte in position [i] throws, which it does only for the byte
    FE met in WAIT_COMMAND with one to fifteen bytes in the print buffer,
    the loop is left: that byte is parsed (the window has slid) but not
    counted, the bytes after it are neither parsed nor counted, and the
    [catch] branch runs on the state so reached.  A chunk without the
    byte FE never throws.  An empty chunk changes nothing, not even the
    time stamp. *)
Theorem receiveChunk_is_feed (now later : Z) (bytes : list Z)
    (p : GameBoyPrinter) :
  let counted n q :=
    set_totalBytesReceived (totalBytesReceived p + n)%nat
      (set_lastDataTime now q) in
  (bytes = [] -> receiveChunk now later bytes p = p) /\
  (bytes <> [] -> firstThrow p bytes = None ->
   tryChunk now bytes p = Returns (counted (length bytes) (feed p bytes)) /\
   receiveChunk now later bytes p = counted (length bytes) (feed p bytes)) /\
  (forall i, firstThrow p bytes = Some i ->
   bytes !! i = Some 0xFE /\
   parserState (feed p (take i bytes)) = WAIT_COMMAND /\
   (0 < length (printData (feed p (take i bytes))) < 16)%nat /\
   tryChunk now bytes p = Throws (counted i (feed p (take (S i) bytes))) /\
   receiveChunk now later bytes p
   = readTimeout later (counted i (feed p (take (S i) bytes)))) /\
  ((forall b, In b bytes -> b <> 0xFE) -> firstThrow p bytes = None).
Proof.
  intros counted. split; [|split; [|split]].
  - intros ->. reflexivity.
  - intros Hne Hft. unfold receiveChunk. rewrite tryChunk_feed.
    destruct bytes as [|b bs]; [congruence|]. rewrite Hft.
    split; reflexivity.
  - intros i Hft. destruct (firstThrow_Some bytes p i Hft) as (H1 & H2 & H3).
    unfold receiveChunk. rewrite tryChunk_feed.
    destruct bytes as [|b bs]; [discriminate Hft|]. rewrite Hft.
    repeat split; assumption || apply H3 || reflexivity.
  - apply firstThrow_None.
Qed.

Lemma receiveChunk_is_feed_witness :
  let whole := [0x04; 0x00; 0x01; 0x00; 0x11; 0x04; 0x00; 0x01; 0x00; 0x22] in
  let cut := [0x04; 0x00; 0x01; 0x00; 0x11; 0xFE; 0x04; 0x00; 0x01; 0x00;
              0x22] in
  (whole <> [] /\ firstThrow newPrinter whole = None /\
   firstThrow newPrinter cut = Some 5%nat) /\
  (let q := receiveChunk 1000 1001 whole newPrinter in
   printData q = [0x11; 0x22] /\ totalBytesReceived q = 10%nat) /\
  (let q := receiveChunk 1000 1001 cut newPrinter in
   printData q = [0x11] /\ totalBytesReceived q = 5%nat /\
   canvasContainer q = [] /\ recentBytes q = [0x04; 0x00; 0x01; 0x00; 0x11; 0xFE]).
Proof.
  intros whole cut.
  assert (Hne : whole <> []) by discriminate.
  assert (Hw : firstThrow newPrinter whole = None) by (vm_compute; reflexivity).
  assert (Hc : firstThrow newPrinter cut = Some 5%nat)
    by (vm_compute; reflexivity).
  split; [repeat split; assumption|].
  destruct (receiveChunk_is_feed 1000 1001 whole newPrinter)
    as (_ & Hwhole & _).
  destruct (receiveChunk_is_feed 1000 1001 cut newPrinter)
    as (_ & _ & Hcut & _).
  split.
  - destruct (Hwhole Hne Hw) as [_ ->]. split; vm_compute; reflexivity.
  - destruct (Hcut 5%nat Hc) as (_ & _ & _ & _ & ->).
    repeat split; vm_compute; reflexivity.
Defined.

(** X8.  A read timeout discards nothing while the print buffer is
    empty, while no data was stamped, or within 2000 ms of the last data:
    the state is left as it is.  When it does fire it touches only the
    print buffer, the parser state, the pending packet data and the status
    line; and delivering the same timeout again changes nothing more. *)
Theorem readTimeout_quiet (now : Z) (p : GameBoyPrinter) :
  (printData p = [] \/ lastDataTime p <= 0 \/
   now - lastDataTime p <= PRINT_TIMEOUT_MS ->
   readTimeout now p = p) /\
  readTimeout now (readTimeout now p) = readTimeout now p /\
  canvasContainer (readTimeout now p) = canvasContainer p /\
  imageCount (readTimeout now p) = imageCount p /\
  recentBytes (readTimeout now p) = recentBytes p /\
  totalBytesReceived (readTimeout now p) = totalBytesReceived p /\
  lastDataTime (readTimeout now p) = lastDataTime p.
Proof.
  assert (Hfired : forall q, printData q = [] -> readTimeout now q = q).
  { intros q Hq. unfold readTimeout. rewrite Hq. reflexivity. }
  split; [|split].
  - intros [Hd|[Ht|Hn]].
    + apply Hfired, Hd.
    + unfold readTimeout.
      replace (lastDataTime p >? 0) with false
        by (symmetry; rewrite Z.gtb_ltb; apply Z.ltb_ge; lia).
      rewrite andb_false_r. reflexivity.
    + unfold readTimeout.
      replace (now - lastDataTime p >? PRINT_TIMEOUT_MS) with false
        by (symmetry; rewrite Z.gtb_ltb; apply Z.ltb_ge; lia).
      destruct (_ && _); reflexivity.
  - assert (Hcases : readTimeout now p = p \/ printData (readTimeout now p) = []).
    { unfold readTimeout. destruct (_ && _); [|left; reflexivity].
      cbn zeta. destruct (_ >? _); [right|left]; reflexivity. }
    destruct Hcases as [H|H]; [rewrite !H; reflexivity|apply Hfired, H].
  - unfold readTimeout.
    destruct (_ && _); [|repeat split; reflexivity].
    cbn zeta. destruct (_ >? _); repeat split; reflexivity.
Qed.

Lemma readTimeout_quiet_witness :
  let p := receiveChunk 1000 1001 [0x04; 0x00; 0x01; 0x00; 0x11; 0x04]
             newPrinter in
  (printData p = [0x11] /\ 2500 - lastDataTime p <= PRINT_TIMEOUT_MS) /\
  readTimeout 2500 p = p.
Proof.
  intros p.
  assert (H : printData p = [0x11] /\ 2500 - lastDataTime p <= PRINT_TIMEOUT_MS)
    by (split; vm_compute; [reflexivity|discriminate]).
  split; [exact H|].
  apply (proj1 (readTimeout_quiet 2500 p)). right. right. exact (proj2 H).
Defined.

(** ** The images on the page *)

Lemma canvasId_renderCanvas (data : list Z) (n t : nat) (c : Canvas) :
  renderCanvas data n = Some (t, c) -> canvasId c = "print-" +:+ pretty n.
Proof.
  unfold renderCanvas. cbn zeta.
  destruct (createImageData _ _); [|discriminate].
  destruct (tileLoop _ _ _ _ _). intros H. injection H as _ <-. reflexivity.
Qed.

(** One call leaves the page as it is, or appends one canvas: the
    rendering of the print buffer, at the print-trigger byte. *)
Lemma step_canvases (p : GameBoyPrinter) (b : Z) :
  let q := stateAfter (processFirmwareByte p b) in
  (canvasContainer q = canvasContainer p /\ imageCount q = imageCount p) \/
  (b = 0xFE /\ parserState p = WAIT_COMMAND /\
   exists t canvas,
     renderCanvas (printData p) (imageCount p) = Some (t, canvas) /\
     canvasContainer q = canvasContainer p ++ [canvas] /\
     imageCount q = S (imageCount p)).
Proof.
  intros q. subst q.
  destruct (parserState p) eqn:Hs.
  2: destruct (Z.eq_dec b 0xFE) as [->|Hfe].
  2: { destruct (feed_print_trigger p Hs) as (H0 & H1 & H2).
       destruct (printData p) as [|x xs] eqn:Hd.
       - left. rewrite H0 by reflexivity. split; reflexivity.
       - destruct (Nat.lt_ge_cases (length (x :: xs)) 16) as [Hl|Hl].
         + left. rewrite H1 by (cbn [length] in *; lia). split; reflexivity.
         + right. destruct (H2 Hl) as (t & canvas & Hr & ->).
           repeat split. exists t, canvas. repeat split. exact Hr. }
  all: left; rewrite processFirmwareByte_cases;
    (destruct (isAbortMarker _); [split; reflexivity|]).
  - unfold parseByte.
    change (parserState (withByte p b)) with (parserState p). rewrite Hs.
    split; reflexivity.
  - unfold parseByte.
    change (parserState (withByte p b)) with (parserState p). rewrite Hs.
    apply Z.eqb_neq in Hfe. rewrite Hfe.
    repeat match goal with |- context [if ?c then _ else _] => destruct c end;
      split; reflexivity.
  - unfold parseByte.
    change (parserState (withByte p b)) with (parserState p). rewrite Hs.
    destruct (_ && _); split; reflexivity.
  - unfold parseByte.
    change (parserState (withByte p b)) with (parserState p). rewrite Hs.
    split; reflexivity.
  - rewrite parseByte_len_high by exact Hs. cbn zeta. cbn [stateAfter].
    destruct (_ >? 1000); [split; reflexivity|].
    destruct (_ >? 0); [split; reflexivity|].
    cbn [canvasContainer imageCount set_parserState].
    destruct (processPacket_effect
                (withLength (withByte p b)
                   (JS.or (currentLength (withByte p b)) (JS.shl b 8))))
      as (_ & _ & _ & Hcv & Hic).
    rewrite Hcv, Hic. split; reflexivity.
  - rewrite parseByte_read_data by exact Hs. cbn zeta. cbn [stateAfter].
    destruct (_ >=? _); [|split; reflexivity].
    cbn [canvasContainer imageCount set_parserState].
    match goal with
    | |- context [processPacket ?x] =>
        destruct (processPacket_effect x) as (_ & _ & _ & Hcv & Hic)
    end.
    rewrite Hcv, Hic. split; reflexivity.
Qed.

Lemma canvasLog_step (p : GameBoyPrinter) (b : Z) :
  canvasLog p -> canvasLog (stateAfter (processFirmwareByte p b)).
Proof.
  intros [Hn Hid].
  destruct (step_canvases p b)
    as [[Hc Hi]|(_ & _ & t & canvas & Hr & Hc & Hi)];
    unfold canvasLog; rewrite Hc, Hi.
  - split; assumption.
  - split.
    + rewrite length_app, Hn. cbn [length]. lia.
    + intros i c Hlook.
      apply lookup_app_Some in Hlook as [Hlook|[Hge Hlook]].
      * apply Hid, Hlook.
      * rewrite <- Hn in Hlook, Hge.
        destruct (i - imageCount p)%nat as [|k] eqn:Hk; [|discriminate Hlook].
        cbn in Hlook. injection Hlook as <-.
        rewrite (canvasId_renderCanvas _ _ _ _ Hr). f_equal. f_equal. lia.
Qed.

Lemma canvasLog_feed (bs : list Z) :
  forall p, canvasLog p -> canvasLog (feed p bs).
Proof.
  induction bs as [|b bs IH]; intros p Hp; [exact Hp|].
  rewrite feed_cons. apply IH, canvasLog_step, Hp.
Qed.

Lemma canvasLog_readTimeout (now : Z) (p : GameBoyPrinter) :
  canvasLog p -> canvasLog (readTimeout now p).
Proof.
  intros IH. unfold readTimeout.
  destruct (_ && _); [|exact IH]. cbn zeta.
  destruct (_ >? _); exact IH.
Qed.

Lemma canvasLog_receiveChunk (now later : Z) (bytes : list Z)
    (p : GameBoyPrinter) :
  canvasLog p -> canvasLog (receiveChunk now later bytes p).
Proof.
  intros Hp. unfold receiveChunk. rewrite tryChunk_feed.
  destruct bytes as [|b bs]; [exact Hp|].
  destruct (firstThrow p (b :: bs)) as [i|].
  - apply canvasLog_readTimeout.
    apply (canvasLog_feed (take (S i) (b :: bs))) in Hp. exact Hp.
  - apply (canvasLog_feed (b :: bs)) in Hp. exact Hp.
Qed.

Lemma canvases_grow (bs : list Z) :
  forall p, exists more,
    canvasContainer (feed p bs) = canvasContainer p ++ more.
Proof.
  induction bs as [|b bs IH]; intros p.
  - exists []. rewrite feed_nil, app_nil_r. reflexivity.
  - rewrite feed_cons.
    destruct (IH (stateAfter (processFirmwareByte p b))) as [more Hmore].
    destruct (step_canvases p b)
      as [[Hc _]|(_ & _ & t & canvas & _ & Hc & _)];
      rewrite Hmore, Hc.
    + exists more. reflexivity.
    + eexists. rewrite <- app_assoc. reflexivity.
Qed.

(** X9.  The page is an append-only log of the images printed.  In
    every reachable state, also after calls that threw, the image count
    equals the number of canvases on the page and the canvas at position
    [i] has the id print-[i]; and whatever bytes arrive, the canvases
    already on the page stay there, unchanged and in order. *)
Theorem canvas_log :
  (forall p, Reachable p -> canvasLog p) /\
  (forall p bs, exists more,
     canvasContainer (feed p bs) = canvasContainer p ++ more).
Proof.
  split; [|intros p bs; apply canvases_grow].
  induction 1 as [|p b _ IH|p now later bytes _ IH|p now _ IH].
  - split; [reflexivity|]. intros i c H. discriminate H.
  - apply canvasLog_step, IH.
  - apply canvasLog_receiveChunk, IH.
  - apply canvasLog_readTimeout, IH.
Qed.

(** The witness prints one image of one tile, then meets a print trigger
    with a single byte in the print buffer, which throws and leaves the
    page as it is. *)
Lemma canvas_log_witness :
  let p := receiveChunk 1000 1001
             (packetBytes DATA 1 0x02 0x00 [0x8E; 0xFF] ++ [0xFE]) newPrinter in
  let q := receiveChunk 2000 2001 [0x04; 0x00; 0x01; 0x00; 0x11; 0xFE] p in
  (Reachable p /\ Reachable q) /\
  (imageCount p = 1%nat /\ length (canvasContainer p) = 1%nat /\
   option_map canvasId (canvasContainer p !! 0%nat) = Some "print-0") /\
  (imageCount q = 1%nat /\ canvasContainer q = canvasContainer p /\
   printData q = [0x11]).
Proof.
  intros p q.
  assert (Hp : Reachable p) by (apply reach_chunk, reach_new).
  assert (Hq : Reachable q) by (apply reach_chunk, Hp).
  destruct (proj1 canvas_log p Hp) as [Hn Hid].
  destruct (proj1 canvas_log q Hq) as [Hn' _].
  assert (Hi : imageCount p = 1%nat) by (vm_compute; reflexivity).
  assert (Hc : canvasContainer q = canvasContainer p)
    by (vm_compute; reflexivity).
  split; [split; assumption|]. split; [|split; [|split]].
  - split; [exact Hi|]. split; [rewrite <- Hn; exact Hi|].
    destruct (canvasContainer p !! 0%nat) as [c|] eqn:E.
    + cbn [option_map]. rewrite (Hid 0%nat c E). reflexivity.
    + apply lookup_ge_None in E. rewrite <- Hn, Hi in E. lia.
  - rewrite Hn', Hc, <- Hn. exact Hi.
  - exact Hc.
  - vm_compute. reflexivity.
Defined.

(** ** Every pixel of the image *)

(** The colour index is one of 0..3 whatever numbers it is computed
    from, so the palette lookup is always defined. *)
Lemma js_and_1 (a : Z) : JS.and a 1 = 0 \/ JS.and a 1 = 1.
Proof.
  unfold JS.and. rewrite (toInt32_small 1) by lia.
  assert (Hl : Z.land (JS.toInt32 a) 1 = JS.toInt32 a mod 2).
  { change 1 with (Z.ones 1). rewrite Z.land_ones by lia. reflexivity. }
  rewrite Hl.
  pose proof (Z.mod_pos_bound (JS.toInt32 a) 2 ltac:(lia)) as Hm.
  assert (Hc : JS.toInt32 a mod 2 = 0 \/ JS.toInt32 a mod 2 = 1) by lia.
  destruct Hc as [Hc|Hc]; rewrite Hc; [left|right]; reflexivity.
Qed.

Lemma colorIndex_range (byte1 byte2 : Z) (col : nat) :
  0 <= colorIndex byte1 byte2 col <= 3.
Proof.
  unfold colorIndex. cbn zeta.
  destruct (js_and_1 (JS.shr byte1 (7 - Z.of_nat col))) as [-> | ->],
           (js_and_1 (JS.shr byte2 (7 - Z.of_nat col))) as [-> | ->];
    vm_compute; split; discriminate.
Qed.

Lemma paletteColor_gray (ci : Z) :
  0 <= ci <= 3 -> paletteColor ci = [grayOf ci; grayOf ci; grayOf ci].
Proof.
  intros H.
  assert (Hc : ci = 0 \/ ci = 1 \/ ci = 2 \/ ci = 3) by lia.
  destruct Hc as [-> | [-> | [-> | ->]]]; reflexivity.
Qed.

Lemma decodeTile_other (data : list Z) (off : nat) (px : list Z)
    (W sx sy q : nat) :
  (forall row, (row < 8)%nat -> ~ rowTouched W sx sy row q) ->
  decodeTile data off px W sx sy !! q = px !! q.
Proof.
  intros H. unfold decodeTile.
  apply (foldl_other _ (rowTouched W sx sy)).
  - intros. now apply decodeTileRow_other.
  - intros row Hrow. apply in_seq in Hrow. apply H. lia.
Qed.

Lemma tileStep_other (data : list Z) (W : nat) (px : list Z) (t q : nat) :
  ~ tileTouched W t q -> tileStep data W px t !! q = px !! q.
Proof.
  intros H. unfold tileStep. apply decodeTile_other.
  intros row Hrow Ht. apply H. exists row. split; assumption.
Qed.

Lemma tileStep_length (data : list Z) (W : nat) (px : list Z) (t : nat) :
  length (tileStep data W px t) = length px.
Proof. apply decodeTile_length. Qed.

(** The tile loops decode the tiles 0, 1, ... in order, each at its
    place. *)
Lemma tileRowLoop_fold (data : list Z) (T W y : nat) (n : nat) :
  forall x0 idx px,
    idx = (tilesPerRow * y + x0)%nat -> (x0 + n <= tilesPerRow)%nat ->
    (idx <= T)%nat ->
    tileRowLoop data T W y (seq x0 n) idx px =
    ((idx + min n (T - idx))%nat,
     foldl (tileStep data W) px (seq idx (min n (T - idx)))).
Proof.
  induction n as [|n IH]; intros x0 idx px Hidx Hx Hle.
  - cbn [seq tileRowLoop Nat.min foldl]. rewrite Nat.add_0_r. reflexivity.
  - cbn [seq tileRowLoop]. destruct (Nat.leb_spec T idx) as [Hge|Hlt].
    + replace (T - idx)%nat with 0%nat by lia.
      rewrite Nat.min_0_r, Nat.add_0_r. reflexivity.
    + rewrite (IH (S x0) (S idx)) by lia.
      replace (min (S n) (T - idx)) with (S (min n (T - S idx))) by lia.
      cbn [seq foldl]. f_equal; [lia|]. f_equal.
      unfold tileStep, tilesPerRow in *.
      assert (Hm : (idx `mod` 20 = x0)%nat).
      { subst idx. rewrite Nat.add_comm, Nat.mul_comm, Nat.Div0.mod_add.
        apply Nat.mod_small. lia. }
      assert (Hd : (idx `div` 20 = y)%nat).
      { subst idx. rewrite Nat.add_comm, Nat.mul_comm, Nat.div_add by lia.
        rewrite Nat.div_small by lia. reflexivity. }
      rewrite Hm, Hd. reflexivity.
Qed.

Lemma tileLoop_fold (data : list Z) (T W : nat) (px : list Z) (rows : nat) :
  tileLoop data T rows W px =
  (min (tilesPerRow * rows) T,
   foldl (tileStep data W) px (seq 0 (min (tilesPerRow * rows) T))).
Proof.
  unfold tileLoop. induction rows as [|r IH].
  - rewrite Nat.mul_0_r. reflexivity.
  - rewrite seq_S, foldl_app, IH. cbn [foldl fst snd Nat.add].
    destruct (Nat.le_gt_cases (tilesPerRow * r) T) as [Hle|Hgt].
    + rewrite (Nat.min_l _ _ Hle).
      rewrite (tileRowLoop_fold data T W r tilesPerRow 0) by lia.
      assert (Hmin : (tilesPerRow * r + min tilesPerRow (T - tilesPerRow * r)
                      = min (tilesPerRow * S r) T)%nat) by lia.
      rewrite <- Hmin, <- foldl_app, <- seq_app. reflexivity.
    + rewrite (Nat.min_r (tilesPerRow * r) T) by lia.
      rewrite (Nat.min_r (tilesPerRow * S r) T) by lia.
      unfold tilesPerRow at 1. cbn [seq tileRowLoop].
      rewrite (proj2 (Nat.leb_le T T)) by lia. reflexivity.
Qed.

Lemma renderCanvas_pixels (data : list Z) (n k : nat) (canvas : Canvas) :
  renderCanvas data n = Some (k, canvas) ->
  let T := (length data `div` 16)%nat in
  canvasPixels canvas =
  foldl (tileStep data 160)
        (replicate (160 * (ceilDiv T 20 * 8) * 4) 0) (seq 0 T).
Proof.
  intros Hr T. revert Hr. unfold renderCanvas. cbn zeta.
  change bytesPerTile with 16%nat. fold T.
  destruct (createImageData _ _) as [pixels|] eqn:Ec; [|discriminate].
  apply createImageData_Some in Ec as (_ & _ & ->).
  rewrite tileLoop_fold. intros H. injection H as _ <-.
  cbn [canvasPixels].
  pose proof (ceilDiv_bounds T 20 ltac:(lia)) as Hc.
  change tilesPerRow with 20%nat.
  rewrite Nat.min_r by lia. reflexivity.
Qed.

(** Two different tiles write to different offsets. *)
Lemma tiles_disjoint (t t' q : nat) :
  t <> t' -> tileTouched 160 t q -> tileTouched 160 t' q -> False.
Proof.
  intros Hne (row & Hrow & H) (row' & Hrow' & H').
  unfold rowTouched, pixelOffset, tilesPerRow in *.
  pose proof (Nat.div_mod_eq t 20) as E.
  pose proof (Nat.div_mod_eq t' 20) as E'.
  pose proof (Nat.mod_upper_bound t 20 ltac:(lia)) as B.
  pose proof (Nat.mod_upper_bound t' 20 ltac:(lia)) as B'.
  set (x := (t `mod` 20)%nat) in *. set (y := (t `div` 20)%nat) in *.
  set (x' := (t' `mod` 20)%nat) in *. set (y' := (t' `div` 20)%nat) in *.
  clearbody x y x' y'. lia.
Qed.

(** The pixels of a tile that was decoded. *)
Lemma pixel_of_tile (data : list Z) (n k : nat) (canvas : Canvas)
    (t row col : nat) :
  renderCanvas data n = Some (k, canvas) ->
  let T := (length data `div` 16)%nat in
  (t < T)%nat -> (row < 8)%nat -> (col < 8)%nat ->
  exists lo hi,
    data !! (t * 16 + row * 2)%nat = Some lo /\
    data !! (t * 16 + row * 2 + 1)%nat = Some hi /\
    rgbaAt (canvasPixels canvas)
           (pixelOffset 160 ((t `mod` 20) * 8) ((t `div` 20) * 8) row col) =
    [Some (grayOf (colorIndex lo hi col)); Some (grayOf (colorIndex lo hi col));
     Some (grayOf (colorIndex lo hi col)); Some 255].
Proof.
  intros Hrender T Ht Hrow Hcol.
  assert (HT : (16 * T <= length data)%nat).
  { pose proof (Nat.div_mod_eq (length data) 16). subst T. lia. }
  destruct (lookup_lt_is_Some_2 data (t * 16 + row * 2)%nat ltac:(lia))
    as [lo Hlo].
  destruct (lookup_lt_is_Some_2 data (t * 16 + row * 2 + 1)%nat ltac:(lia))
    as [hi Hhi].
  exists lo, hi. split; [exact Hlo|]. split; [exact Hhi|].
  rewrite (renderCanvas_pixels _ _ _ _ Hrender). fold T.
  pose proof (ceilDiv_bounds T 20 ltac:(lia)) as Hc.
  set (rows := ceilDiv T 20) in *.
  rewrite (seq_split_at T t Ht), foldl_app. cbn [foldl].
  set (pre := foldl _ _ (seq 0 t)).
  assert (Hpre : length pre = (160 * (rows * 8) * 4)%nat).
  { unfold pre. rewrite foldl_length by (intros; apply tileStep_length).
    apply length_replicate. }
  pose proof (Nat.div_mod_eq t 20) as E.
  pose proof (Nat.mod_upper_bound t 20 ltac:(lia)) as B.
  rewrite (rgbaAt_frame _ (tileStep data 160 pre t)).
  - unfold tileStep.
    change bytesPerTile with 16%nat. change tilesPerRow with 20%nat.
    rewrite decodeTile_rgba; [| exact Hrow | exact Hcol | lia | lia].
    rewrite Hlo, Hhi, !js_orZero_some.
    rewrite paletteColor_gray by apply colorIndex_range. reflexivity.
  - intros q Hq.
    apply (foldl_other _ (tileTouched 160)).
    + intros. now apply tileStep_other.
    + intros t' Ht' Htouch. apply in_seq in Ht'.
      apply (tiles_disjoint t t' q); [lia| |exact Htouch].
      exists row. split; [exact Hrow|].
      unfold rowTouched, pixelOffset, tilesPerRow in *. lia.
Qed.

(** The pixels of a tile slot past the last tile keep the zeroes the
    image buffer was created with. *)
Lemma pixel_of_empty_slot (data : list Z) (n k : nat) (canvas : Canvas)
    (t row col : nat) :
  renderCanvas data n = Some (k, canvas) ->
  let T := (length data `div` 16)%nat in
  (T <= t < 20 * ceilDiv T 20)%nat -> (row < 8)%nat -> (col < 8)%nat ->
  rgbaAt (canvasPixels canvas)
         (pixelOffset 160 ((t `mod` 20) * 8) ((t `div` 20) * 8) row col) =
  [Some 0; Some 0; Some 0; Some 0].
Proof.
  intros Hrender T Ht Hrow Hcol.
  rewrite (renderCanvas_pixels _ _ _ _ Hrender). fold T.
  set (rows := ceilDiv T 20) in *.
  pose proof (Nat.div_mod_eq t 20) as E.
  pose proof (Nat.mod_upper_bound t 20 ltac:(lia)) as B.
  rewrite (rgbaAt_frame _ (replicate (160 * (rows * 8) * 4) 0)).
  - unfold rgbaAt, pixelOffset.
    rewrite !lookup_replicate_2 by lia. reflexivity.
  - intros q Hq.
    apply (foldl_other _ (tileTouched 160)).
    + intros. now apply tileStep_other.
    + intros t' Ht' Htouch. apply in_seq in Ht'.
      apply (tiles_disjoint t t' q); [lia| |exact Htouch].
      exists row. split; [exact Hrow|].
      unfold rowTouched, pixelOffset, tilesPerRow in *. lia.
Qed.

(** X10.  Every pixel of the rendered image.  For a buffer [data] of
    [T = length data / 16] whole tiles, the pixel in column [x < 160] and
    line [y < height] lies in the tile slot [t = 20 * (y / 8) + x / 8].
    If that tile was received ([t < T]) its three colour channels hold the
    grey level of the colour index computed from the two bytes
    [data[16 t + 2 (y mod 8)]] and [data[16 t + 2 (y mod 8) + 1]] at column
    [x mod 8], and its fourth channel 255: tiles fill the image left to
    right, top to bottom, and no tile overwrites another.  If the slot is
    past the last tile, in the unfinished last row, the pixel keeps the
    four zeroes of a new image buffer: transparent black.  An image that
    has a line has a tile, so the rendering does not throw. *)
Theorem image_pixels (data : list Z) (n x y : nat) :
  let T := (length data `div` 16)%nat in
  let rows := ceilDiv T 20 in
  let t := (20 * (y `div` 8) + x `div` 8)%nat in
  (x < 160)%nat -> (y < rows * 8)%nat ->
  exists canvas,
    renderCanvas data n = Some (T, canvas) /\
    let pixels := canvasPixels canvas in
    ((t < T)%nat ->
     exists lo hi,
       data !! (16 * t + 2 * (y `mod` 8))%nat = Some lo /\
       data !! (16 * t + 2 * (y `mod` 8) + 1)%nat = Some hi /\
       rgbaAt pixels ((y * 160 + x) * 4) =
       [Some (grayOf (colorIndex lo hi (x `mod` 8)));
        Some (grayOf (colorIndex lo hi (x `mod` 8)));
        Some (grayOf (colorIndex lo hi (x `mod` 8))); Some 255]) /\
    ((T <= t)%nat -> rgbaAt pixels ((y * 160 + x) * 4) =
                     [Some 0; Some 0; Some 0; Some 0]).
Proof.
  intros T rows t Hx Hy.
  assert (Hlen : (16 <= length data)%nat).
  { destruct (Nat.lt_ge_cases (length data) 16) as [Hl|Hl]; [|exact Hl].
    exfalso. assert (HT : T = 0%nat) by (apply Nat.div_small; exact Hl).
    subst rows. rewrite HT in Hy. cbn in Hy. lia. }
  destruct (renderCanvas_Some data n Hlen) as (k & canvas & Hrender).
  assert (Hk : k = T)
    by (apply (renderCanvas_dimensions data n k canvas Hrender)).
  subst k. exists canvas. split; [exact Hrender|]. intros pixels.
  assert (Hoff : pixelOffset 160 ((t `mod` 20) * 8) ((t `div` 20) * 8)
                   (y `mod` 8) (x `mod` 8) = ((y * 160 + x) * 4)%nat).
  { pose proof (Nat.div_mod_eq x 8) as Ex.
    pose proof (Nat.div_mod_eq y 8) as Ey.
    pose proof (Nat.mod_upper_bound x 8 ltac:(lia)) as Bx.
    pose proof (Nat.mod_upper_bound y 8 ltac:(lia)) as By.
    assert (Hm : (t `mod` 20 = x `div` 8)%nat).
    { subst t. rewrite Nat.add_comm, Nat.mul_comm, Nat.Div0.mod_add.
      apply Nat.mod_small. lia. }
    assert (Hd : (t `div` 20 = y `div` 8)%nat).
    { subst t. rewrite Nat.add_comm, Nat.mul_comm, Nat.div_add by lia.
      rewrite Nat.div_small by lia. reflexivity. }
    unfold pixelOffset. rewrite Hm, Hd.
    set (a := (x `div` 8)%nat) in *. set (b := (y `div` 8)%nat) in *.
    set (c := (x `mod` 8)%nat) in *. set (d := (y `mod` 8)%nat) in *.
    clearbody a b c d. lia. }
  assert (Hr : (y `mod` 8 < 8)%nat) by (apply Nat.mod_upper_bound; lia).
  assert (Hc : (x `mod` 8 < 8)%nat) by (apply Nat.mod_upper_bound; lia).
  split.
  - intros Ht.
    destruct (pixel_of_tile data n T canvas t (y `mod` 8) (x `mod` 8)
                Hrender Ht Hr Hc)
      as (lo & hi & Hlo & Hhi & Hpx).
    exists lo, hi. rewrite Hoff in Hpx.
    replace (16 * t + 2 * (y `mod` 8))%nat
      with (t * 16 + (y `mod` 8) * 2)%nat by lia.
    repeat split; assumption.
  - intros Ht. rewrite <- Hoff.
    apply (pixel_of_empty_slot data n T canvas); [exact Hrender| |exact Hr|exact Hc].
    split; [exact Ht|]. fold T. fold rows.
    pose proof (Nat.div_mod_eq x 8) as Ex.
    pose proof (Nat.div_mod_eq y 8) as Ey.
    pose proof (Nat.mod_upper_bound x 8 ltac:(lia)) as Bx.
    subst t.
    set (a := (x `div` 8)%nat) in *. set (b := (y `div` 8)%nat) in *.
    set (c := (x `mod` 8)%nat) in *. set (d := (y `mod` 8)%nat) in *.
    clearbody a b c d. lia.
Qed.

Lemma image_pixels_witness :
  let data := replicate 16 0xFF ++ replicate 16 0x00 ++ [0x07] in
  ((9 < 160)%nat /\ (3 < ceilDiv (length data `div` 16) 20 * 8)%nat) /\
  exists canvas,
    renderCanvas data 0 = Some (2%nat, canvas) /\
    rgbaAt (canvasPixels canvas) ((3 * 160 + 9) * 4)
    = [Some 255; Some 255; Some 255; Some 255] /\
    rgbaAt (canvasPixels canvas) ((3 * 160 + 17) * 4)
    = [Some 0; Some 0; Some 0; Some 0].
Proof.
  intros data.
  assert (H9 : (9 < 160)%nat) by lia.
  assert (H17 : (17 < 160)%nat) by lia.
  assert (H3 : (3 < ceilDiv (length data `div` 16) 20 * 8)%nat)
    by (vm_compute; lia).
  split; [split; assumption|].
  destruct (image_pixels data 0 9 3 H9 H3) as (canvas & Hr & Htile & _).
  destruct (image_pixels data 0 17 3 H17 H3) as (canvas' & Hr' & _ & Hslot).
  assert (Hsame : canvas' = canvas) by congruence. subst canvas'.
  exists canvas. split; [exact Hr|]. split.
  - destruct Htile as (lo & hi & Hlo & Hhi & Hpx); [vm_compute; lia|].
    vm_compute in Hlo, Hhi.
    injection Hlo as <-. injection Hhi as <-. exact Hpx.
  - apply Hslot. vm_compute. lia.
Defined.

(** X11.  The palette lookup of [decodeTile] is always defined: whatever
    two numbers a tile row is made of, and whatever the column, the
    colour index is one of 0, 1, 2, 3 and the palette entry has its three
    channels, equal to one another. *)
Theorem palette_lookup_defined (byte1 byte2 : Z) (col : nat) :
  let ci := colorIndex byte1 byte2 col in
  0 <= ci <= 3 /\
  paletteColor ci = [grayOf ci; grayOf ci; grayOf ci] /\
  In (grayOf ci) [255; 170; 85; 0].
Proof.
  intros ci. pose proof (colorIndex_range byte1 byte2 col) as H. fold ci in H.
  split; [exact H|]. split; [apply paletteColor_gray, H|].
  assert (Hc : ci = 0 \/ ci = 1 \/ ci = 2 \/ ci = 3) by lia.
  destruct Hc as [-> | [-> | [-> | ->]]]; cbn; auto.
Qed.

(** * Further properties of decompressRLE *)

Lemma js_and_0x7F_bounds (c : Z) : 0 <= JS.and c 0x7F <= 127.
Proof.
  unfold JS.and. rewrite (toInt32_small 0x7F) by lia.
  assert (Hl : Z.land (JS.toInt32 c) 0x7F = JS.toInt32 c mod 128).
  { change 0x7F with (Z.ones 7). rewrite Z.land_ones by lia. reflexivity. }
  rewrite Hl.
  pose proof (Z.mod_pos_bound (JS.toInt32 c) 128 ltac:(lia)) as Hm.
  rewrite toInt32_small by lia. lia.
Qed.

Lemma rleLoop_length (fuel : nat) (data : list Z) :
  forall i result,
    (length (rleLoop fuel data i result)
     <= length result + 129 * (length data - i))%nat.
Proof.
  induction fuel as [|fuel IH]; intros i result; cbn [rleLoop]; [lia|].
  destruct (data !! i) as [control|] eqn:Hc; [|lia].
  apply lookup_lt_Some in Hc.
  destruct (JS.truthy (JS.and control 128)); cbn zeta.
  - etransitivity; [apply IH|].
    rewrite length_app, length_replicate.
    pose proof (js_and_0x7F_bounds control). lia.
  - rewrite literalRun_spec.
    etransitivity; [apply IH|].
    rewrite length_app, length_take, length_drop. lia.
Qed.

(** X12.  Decompression cannot blow up: the output is at most 129 times
    as long as the input, whatever the input, well-formed or not; the
    factor is reached by a lone repeat byte FF, which gives 129 bytes. *)
Theorem decompressRLE_length_bound :
  (forall data, (length (decompressRLE data) <= 129 * length data)%nat) /\
  length (decompressRLE [0xFF]) = 129%nat.
Proof.
  split; [|reflexivity].
  intros data. unfold decompressRLE.
  pose proof (rleLoop_length (length data) data 0 []) as H.
  cbn [length] in H. lia.
Qed.

(** X13.  Compressed data may be cut between two runs, and only there:
    if [pre] is a whole number of well-formed runs, decompressing
    [pre ++ rest] gives the decompression of [pre] followed by that of
    [rest], so the two halves can travel in two Data packets.  Cut inside
    a run it differs: 83 then 7F decompress to five zero bytes, 83 7F
    together to five bytes 7F. *)
Theorem decompressRLE_splits_at_runs :
  (forall pre out rest,
     RleScheme pre out ->
     decompressRLE (pre ++ rest) = decompressRLE pre ++ decompressRLE rest) /\
  decompressRLE [0x83] ++ decompressRLE [0x7F] <> decompressRLE ([0x83] ++ [0x7F]).
Proof.
  split; [|vm_compute; discriminate].
  intros pre out rest H.
  rewrite (decompressRLE_app pre out rest H).
  pose proof (decompressRLE_app pre out [] H) as H0.
  rewrite app_nil_r, decompressRLE_nil, app_nil_r in H0.
  rewrite H0. reflexivity.
Qed.

Lemma decompressRLE_splits_at_runs_witness :
  RleScheme [0x01; 0xAA; 0xBB] ([0xAA; 0xBB] ++ []) /\
  decompressRLE ([0x01; 0xAA; 0xBB] ++ [0x80; 0x07]) =
  decompressRLE [0x01; 0xAA; 0xBB] ++ decompressRLE [0x80; 0x07].
Proof.
  assert (H : RleScheme [0x01; 0xAA; 0xBB] ([0xAA; 0xBB] ++ [])).
  { apply (RleLiteral 0x01 [0xAA; 0xBB] [] []);
      [unfold isByte; lia | reflexivity | reflexivity | apply RleEnd]. }
  split; [exact H|].
  exact (proj1 decompressRLE_splits_at_runs _ _ [0x80; 0x07] H).
Defined.

(** Decompression of bytes gives bytes. *)
Lemma js_orZero_lookup_byte (data : list Z) (i : nat) :
  Forall isByte data -> isByte (JS.orZero (data !! i)).
Proof.
  intros H. destruct (data !! i) as [x|] eqn:Hx.
  - rewrite js_orZero_some. apply (Forall_lookup_1 _ _ _ _ H Hx).
  - unfold isByte. cbn. lia.
Qed.

Lemma rleLoop_bytes (fuel : nat) (data : list Z) :
  Forall isByte data ->
  forall i result,
    Forall isByte result -> Forall isByte (rleLoop fuel data i result).
Proof.
  intros Hdata. induction fuel as [|fuel IH]; intros i result Hr;
    cbn [rleLoop]; [exact Hr|].
  destruct (data !! i) as [control|]; [|exact Hr].
  destruct (JS.truthy (JS.and control 128)); cbn zeta.
  - apply IH. apply Forall_app. split; [exact Hr|].
    apply Forall_replicate. now apply js_orZero_lookup_byte.
  - rewrite literalRun_spec. apply IH. apply Forall_app. split; [exact Hr|].
    apply Forall_take, Forall_drop, Hdata.
Qed.

Lemma decompressRLE_bytes (data : list Z) :
  Forall isByte data -> Forall isByte (decompressRLE data).
Proof.
  intros H. unfold decompressRLE. apply rleLoop_bytes; [exact H|constructor].
Qed.

(** ** The print buffer holds bytes *)

Lemma processPacket_bytes (p : GameBoyPrinter) :
  bytesOnly p -> bytesOnly (processPacket p).
Proof.
  intros [Hd Hc]. unfold processPacket, bytesOnly.
  destruct (currentCommand p =? INIT); [split; constructor|].
  destruct (currentCommand p =? DATA).
  - destruct (currentCompression p =? 0);
      cbn [printData currentPacketData set_printData updateStatus];
      (split; [apply Forall_app; split; [exact Hd|]|exact Hc]).
    + exact Hc.
    + apply decompressRLE_bytes, Hc.
  - destruct (currentCommand p =? PRINT); [split; assumption|].
    destruct (currentCommand p =? INQUIRY); split; assumption.
Qed.

Lemma parseByte_bytes (p : GameBoyPrinter) (b : Z) :
  isByte b -> bytesOnly p -> bytesOnly (stateAfter (parseByte p b)).
Proof.
  intros Hb Hp. pose proof Hp as [Hd Hc].
  destruct (parserState p) eqn:Hs.
  - unfold parseByte. rewrite Hs. exact Hp.
  - unfold parseByte. rewrite Hs.
    repeat match goal with |- context [if ?c then _ else _] => destruct c end;
      try (destruct (renderImage (printData p) p) as [q|] eqn:Er;
           [apply renderImage_Some in Er as (t & c & _ & ->)|]);
      try exact Hp; unfold bytesOnly; fields;
      (split; [try exact Hd; constructor|try exact Hc; constructor]).
  - unfold parseByte. rewrite Hs. destruct (_ && _); exact Hp.
  - unfold parseByte. rewrite Hs. exact Hp.
  - rewrite parseByte_len_high by exact Hs. cbn zeta. cbn [stateAfter].
    assert (Hw : forall n, bytesOnly (withLength p n))
      by (intros n; split; [exact Hd|constructor]).
    destruct (_ >? 1000); [apply Hw|].
    destruct (_ >? 0); [apply Hw|].
    apply processPacket_bytes, Hw.
  - rewrite parseByte_read_data by exact Hs. cbn zeta. cbn [stateAfter].
    match goal with
    | |- context [processPacket ?x] => assert (Hx : bytesOnly x)
    end.
    { split; [exact Hd|]. fields. apply Forall_app. split; [exact Hc|].
      constructor; [exact Hb|constructor]. }
    destruct (_ >=? _); [|exact Hx].
    apply processPacket_bytes, Hx.
Qed.

Lemma step_bytes (p : GameBoyPrinter) (b : Z) :
  isByte b -> bytesOnly p ->
  bytesOnly (stateAfter (processFirmwareByte p b)).
Proof.
  intros Hb Hp. rewrite processFirmwareByte_cases.
  destruct (isAbortMarker _); [split; constructor|].
  apply parseByte_bytes; [exact Hb|exact Hp].
Qed.

(** X14.  Fed with bytes, the parser keeps bytes: after any sequence of
    bytes (values 0..255, as a [Uint8Array] delivers them) every element
    of the print buffer and of the pending packet data is a byte, also
    after decompression, where a missing value byte counts as 0, and
    also after a call that threw. *)
Theorem print_buffer_bytes (bs : list Z) (p : GameBoyPrinter) :
  Forall isByte bs -> bytesOnly p -> bytesOnly (feed p bs).
Proof.
  revert p. induction bs as [|b bs IH]; intros p Hbs Hp; [exact Hp|].
  apply Forall_cons in Hbs as [Hb Hbs].
  rewrite feed_cons. apply IH; [exact Hbs|]. apply step_bytes; assumption.
Qed.

Lemma print_buffer_bytes_witness :
  let bs := [0x04; 0x01; 0x01; 0x00; 0xFF] in
  (Forall isByte bs /\ bytesOnly newPrinter) /\
  bytesOnly (feed newPrinter bs).
Proof.
  intros bs.
  assert (Hbs : Forall isByte bs)
    by (unfold bs; repeat (constructor; [unfold isByte; lia|]); constructor).
  assert (Hp : bytesOnly newPrinter) by (split; constructor).
  split; [split; assumption|].
  exact (print_buffer_bytes bs newPrinter Hbs Hp).
Defined.

(** ** Tile bytes past the end of the buffer *)

Lemma decodeTile_ext_orZero (data data' : list Z) (off : nat) (px : list Z)
    (W sx sy : nat) :
  (forall k, (k < 16)%nat ->
     JS.orZero (data !! (off + k)%nat) = JS.orZero (data' !! (off + k)%nat)) ->
  decodeTile data off px W sx sy = decodeTile data' off px W sx sy.
Proof.
  intros H. unfold decodeTile.
  assert (Hin : forall r, In r (seq 0 8) -> (r < 8)%nat)
    by (intros r Hr; apply in_seq in Hr; lia).
  revert px Hin. generalize (seq 0 8).
  induction l as [|r l IH]; intros px Hin; [reflexivity|].
  cbn [foldl].
  assert (Hr : (r < 8)%nat) by (apply Hin; left; reflexivity).
  replace (decodeTileRow data' off W sx sy px r)
    with (decodeTileRow data off W sx sy px r).
  - apply IH. intros r' Hr'. apply Hin. right. exact Hr'.
  - unfold decodeTileRow.
    rewrite (H (r * 2)%nat) by lia.
    replace (off + r * 2 + 1)%nat with (off + (r * 2 + 1))%nat by lia.
    rewrite (H (r * 2 + 1)%nat) by lia. reflexivity.
Qed.

(** X15.  [decodeTile] reads a byte that lies past the end of the
    buffer as 0: decoding a tile from a buffer that is too short gives
    what decoding from the buffer padded with zero bytes gives, so the
    missing part of the tile comes out in the lightest colour. *)
Theorem decodeTile_short_buffer (data : list Z) (k off : nat) (px : list Z)
    (W sx sy : nat) :
  decodeTile data off px W sx sy =
  decodeTile (data ++ replicate k 0) off px W sx sy.
Proof.
  apply decodeTile_ext_orZero. intros j Hj.
  destruct (data !! (off + j)%nat) as [x|] eqn:Hx.
  - rewrite (lookup_app_l_Some _ _ _ _ Hx). reflexivity.
  - apply lookup_ge_None in Hx.
    rewrite lookup_app_r by exact Hx.
    destruct (replicate k 0 !! (off + j - length data)%nat) as [z|] eqn:Hz;
      [|reflexivity].
    apply lookup_replicate_1 in Hz as [-> _]. reflexivity.
Qed.

(** * js/serial.js *)

(** ** Hex strings *)

Lemma hexByteOk_all : forallb hexByteOk (map Z.of_nat (seq 0 256)) = true.
Proof. vm_compute. reflexivity. Qed.

Lemma hexByteOk_byte (b : Z) : isByte b -> hexByteOk b = true.
Proof.
  intros Hb. unfold isByte in Hb.
  pose proof hexByteOk_all as H.
  rewrite forallb_forall in H. apply H.
  apply in_map_iff. exists (Z.to_nat b). split; [lia|].
  apply in_seq. lia.
Qed.

Lemma hex_of_byte (b : Z) :
  isByte b ->
  exists c1 c2,
    padStart2 (numberToHex b) = [c1; c2] /\
    isLineTerminator c1 = false /\ isLineTerminator c2 = false /\
    numberToUint8 (parseInt16 [c1; c2]) = b.
Proof.
  intros Hb. pose proof (hexByteOk_byte b Hb) as H. unfold hexByteOk in H.
  destruct (padStart2 (numberToHex b)) as [|c1 [|c2 [|c3 rest]]];
    try discriminate H.
  exists c1, c2.
  apply andb_prop in H as [H H3]. apply andb_prop in H as [H1 H2].
  apply negb_true_iff in H1, H2. apply Z.eqb_eq in H3.
  repeat split; assumption.
Qed.

Lemma toHexString_acc (bytes : list Z) :
  forall str,
    foldl (fun str byte => str ++ padStart2 (numberToHex byte)) str bytes =
    str ++ buf2hex bytes.
Proof.
  unfold buf2hex. induction bytes as [|b bs IH]; intros str; cbn [foldl map concat].
  - rewrite app_nil_r. reflexivity.
  - rewrite IH, <- app_assoc. reflexivity.
Qed.

Lemma matchPairs_buf2hex (bytes : list Z) :
  Forall isByte bytes ->
  matchPairs (buf2hex bytes) =
    map (fun b => padStart2 (numberToHex b)) bytes /\
  map (fun byte => numberToUint8 (parseInt16 byte))
      (map (fun b => padStart2 (numberToHex b)) bytes) = bytes /\
  length (buf2hex bytes) = (2 * length bytes)%nat.
Proof.
  unfold buf2hex. induction 1 as [|b bs Hb _ IH]; [repeat split; reflexivity|].
  destruct IH as (IH1 & IH2 & IH3).
  destruct (hex_of_byte b Hb) as (c1 & c2 & Hh & H1 & H2 & Hv).
  cbn [map concat]. rewrite Hh. cbn [app matchPairs]. rewrite H1, H2.
  rewrite IH1, IH2, Hv. cbn [length]. rewrite IH3.
  repeat split; try reflexivity. lia.
Qed.

(** X16.  Hex strings round-trip: for a non-empty sequence of bytes,
    [toHexString] (and [buf2hex], which gives the same string) writes two
    hexadecimal digits per byte and [fromHexString] reads the bytes back.
    The empty sequence does not round-trip: it is written as the empty
    string, on which [fromHexString] throws. *)
Theorem hex_round_trip :
  (forall bytes,
     Forall isByte bytes -> bytes <> [] ->
     fromHexString (toHexString bytes) = Some bytes /\
     length (toHexString bytes) = (2 * length bytes)%nat /\
     buf2hex bytes = toHexString bytes) /\
  toHexString [] = [] /\ fromHexString [] = None.
Proof.
  split; [|split; reflexivity].
  intros bytes Hb Hne.
  assert (Ht : toHexString bytes = buf2hex bytes).
  { unfold toHexString. rewrite toHexString_acc. reflexivity. }
  destruct (matchPairs_buf2hex bytes Hb) as (H1 & H2 & H3).
  rewrite Ht. repeat split; try assumption; try reflexivity.
  unfold fromHexString. rewrite H1.
  destruct bytes as [|b bs]; [congruence|].
  cbn [map] in *. rewrite H2. reflexivity.
Qed.

Lemma hex_round_trip_witness :
  (Forall isByte [0x00; 0x0A; 0xFF] /\ [0x00; 0x0A; 0xFF] <> []) /\
  toHexString [0x00; 0x0A; 0xFF] = [48; 48; 48; 97; 102; 102] /\
  fromHexString (toHexString [0x00; 0x0A; 0xFF]) = Some [0x00; 0x0A; 0xFF].
Proof.
  assert (Hb : Forall isByte [0x00; 0x0A; 0xFF])
    by (repeat (constructor; [unfold isByte; lia|]); constructor).
  assert (Hne : [0x00; 0x0A; 0xFF] <> []) by discriminate.
  split; [split; assumption|]. split; [reflexivity|].
  exact (proj1 (proj1 hex_round_trip _ Hb Hne)).
Defined.

(** ** Magic packets *)

(** X17.  The magic packets.  [buildVswitchPacket] returns a packet
    exactly when the encoded suffix has at most four bytes (a longer one
    makes [set] throw); the packet has 36 bytes: the 32-byte magic prefix,
    the suffix, and zeroes up to the end.  [buildLedPacket] always returns
    40 bytes: the magic prefix, "LEDS", the three colour values reduced
    modulo 256 and the on flag as 1 or 0.  The printer-mode magic of
    printer.js starts with the same 32-byte prefix, followed by "PRNT". *)
Theorem magic_packets :
  (forall encoded,
     buildVswitchPacket encoded =
     if (length encoded <=? 4)%nat
     then Some (MAGIC_PREFIX ++ encoded ++ replicate (4 - length encoded) 0)
     else None) /\
  (forall r g b on,
     buildLedPacket r g b on =
     Some (MAGIC_PREFIX ++ [0x4C; 0x45; 0x44; 0x53] ++
           [r mod 256; g mod 256; b mod 256; if on then 1 else 0])) /\
  PRINTER_MODE_MAGIC = MAGIC_PREFIX ++ [0x50; 0x52; 0x4E; 0x54] /\
  buildVswitchPacket [0x50; 0x52; 0x4E; 0x54] = Some PRINTER_MODE_MAGIC.
Proof.
  split; [|split; [|split; reflexivity]].
  - intros encoded. unfold buildVswitchPacket. cbn zeta.
    change (typedArraySet (replicate 36 0) MAGIC_PREFIX 0)
      with (Some (MAGIC_PREFIX ++ replicate 4 0)).
    unfold typedArraySet.
    change (length (MAGIC_PREFIX ++ replicate 4 0)) with 36%nat.
    destruct (Nat.leb_spec (length encoded) 4) as [Hle|Hgt].
    + rewrite (proj2 (Nat.leb_le _ _)) by lia.
      f_equal. rewrite take_app_length' by reflexivity. f_equal. f_equal.
      rewrite drop_app_ge by (cbn; lia).
      change (length MAGIC_PREFIX) with 32%nat.
      replace (32 + length encoded - 32)%nat with (length encoded) by lia.
      rewrite drop_replicate. reflexivity.
    + rewrite (proj2 (Nat.leb_gt _ _)) by lia. reflexivity.
  - intros r g b on. unfold buildLedPacket, toUint8.
    destruct on; reflexivity.
Qed.
